(** * Price-comparison backend: the product normaliser, search and listing

    A shallow embedding of [app/products/service.py] and
    [app/para/service.py].  Both services read BSON documents out of MongoDB
    as Python dictionaries and reshape them into pydantic models.

    Modelling choices, stated once:
    - A number is a [number]: the rational a stored integer or decimal
      spells, NaN, or an infinity.  A Python [float] is a binary64 double:
      [float(x)] is the double nearest to [x], and [round(x, n)] is the
      double nearest to the [n]-place decimal nearest to the double [x],
      which is how CPython computes it.  The two zeros are one number.
    - A document key is [Missing], an explicit [Null], or holds a value of
      the type the collections store under it, so [d.get(k)] and
      [d.get(k, default)] can be told apart.
    - Exceptions are values: every function that can raise returns a
      [result].
    - Strings are byte strings; [upper], [capitalize] and [title] act on
      the ASCII letters, which is what the shop names and the default brand
      consist of.
    - The database is a parameter: a query is answered by a function the
      theorems quantify over. *)

From Stdlib Require Import QArith Qround Qabs Qpower Lqa ZArith String Ascii List
  Sorted Permutation Lia.
From stdpp Require Import gmap strings list.

Local Open Scope string_scope.
Local Open Scope list_scope.
Local Open Scope Z_scope.

(** ** Exceptions and results *)

Inductive exn : Type :=
| TypeError
| AttributeError
| IndexError
| ZeroDivisionError
| ValidationError
| QueryError.

Inductive result (A : Type) : Type :=
| Ok (a : A)
| Raise (e : exn).

Arguments Ok {A} a.
Arguments Raise {A} e.

#[global] Instance result_ret : MRet result := fun A a => Ok a.
#[global] Instance result_bind : MBind result := fun A B k r =>
  match r with
  | Ok a => k a
  | Raise e => Raise e
  end.

(** ** Document keys *)

Inductive field (A : Type) : Type :=
| Missing
| Null
| Val (a : A).

Arguments Missing {A}.
Arguments Null {A}.
Arguments Val {A} a.

(** [d.get(k)]: [None] when the key is missing and when it holds null. *)
Definition get {A : Type} (f : field A) : option A :=
  match f with
  | Val a => Some a
  | Missing | Null => None
  end.

(** [d.get(k, default)]: the default only replaces a missing key. *)
Definition get_default {A : Type} (f : field A) (d : A) : option A :=
  match f with
  | Missing => Some d
  | Null => None
  | Val a => Some a
  end.

(** ** Truth values of Python objects *)

Class Truthy (A : Type) := truthy : A -> bool.

#[global] Instance truthy_bool : Truthy bool := fun b => b.
#[global] Instance truthy_string : Truthy string :=
  fun s => match s with EmptyString => false | String _ _ => true end.
#[global] Instance truthy_list {A : Type} : Truthy (list A) :=
  fun l => match l with [] => false | _ :: _ => true end.
#[global] Instance truthy_option {A : Type} `{Truthy A} : Truthy (option A) :=
  fun o => match o with None => false | Some a => truthy a end.

(** ** Numbers *)

(** A number of a document or of Python: [Num q] is the integer or the
    decimal [q] as it is written, which Python reads as an [int] or as the
    double nearest to it. *)
Inductive number : Type :=
| Num (q : Q)
| NaN
| Inf (negative : bool).

Fixpoint pow10 (n : nat) : positive :=
  match n with
  | O => 1%positive
  | S n' => (10 * pow10 n')%positive
  end.

(** Nearest integer, halves to the even neighbour. *)
Definition round_half_even (q : Q) : Z :=
  let f := Qfloor q in
  match (q - inject_Z f ?= 1 # 2)%Q with
  | Lt => f
  | Gt => f + 1
  | Eq => if Z.even f then f else f + 1
  end.

(** The power of two [2 ** e]. *)
Definition pow2 (e : Z) : Q := (2 ^ e)%Q.

(** The binary exponent [e] of a positive rational:
    [2 ** e <= a < 2 ** (e + 1)]. *)
Definition ilog2 (a : Q) : Z :=
  let k := Z.log2 (Qnum a) - Z.log2 (Z.pos (Qden a)) in
  if Qle_bool (pow2 k) a then k else k - 1.

(** The exponent of the last place of the double nearest to [a]: 53
    significant bits, and no place below [2 ** -1074]. *)
Definition ulp_exponent (a : Q) : Z := Z.max (ilog2 a - 52) (-1074).

(** The magnitude of the double nearest to the magnitude [a]: the nearest
    multiple of the last place, halves to the even significand. *)
Definition double_abs (a : Q) : Q :=
  let e := ulp_exponent a in
  (inject_Z (round_half_even (a / pow2 e)) * pow2 e)%Q.

Definition signed (negative : bool) (r : Q) : Q := if negative then (- r)%Q else r.

(** The binary64 value nearest to a rational; beyond the largest double it
    is an infinity. *)
Definition nearest_double (q : Q) : number :=
  let q := Qred q in
  let r := double_abs (Qabs q) in
  if Qle_bool (pow2 1024) r then Inf (Qnum q <? 0)
  else Num (Qred (signed (Qnum q <? 0) r)).

(** [float(x)] on a number; on a double it changes nothing. *)
Definition float (x : number) : number :=
  match x with
  | Num q => nearest_double q
  | NaN | Inf _ => x
  end.

(** [float(x)] on the result of a [get]: [float(None)] raises. *)
Definition float_opt (o : option number) : result number :=
  match o with
  | Some x => Ok (float x)
  | None => Raise TypeError
  end.

(** The truth value of a number: false for zero, as an [int] and as a
    double; NaN and the infinities are true. *)
#[global] Instance truthy_number : Truthy number := fun x =>
  match float x with
  | Num q => negb (Qeq_bool q 0)
  | NaN | Inf _ => true
  end.

(** The decimal with [ndigits] places nearest to [q], halves to the even
    last digit. *)
Definition decimal_round (q : Q) (ndigits : nat) : Q :=
  round_half_even (q * inject_Z (Z.pos (pow10 ndigits))) # pow10 ndigits.

(** [round(x, ndigits)] on a double: CPython rounds the exact value of the
    double to a decimal string and reads the string back as a double; NaN
    and the infinities are returned as they are. *)
Definition round (x : number) (ndigits : nat) : number :=
  match x with
  | Num q => nearest_double (decimal_round q ndigits)
  | NaN | Inf _ => x
  end.

(** A number with at most [n] decimal places. *)
Definition has_decimals (n : nat) (q : Q) : Prop :=
  exists k : Z, (q == k # pow10 n)%Q.

(** [x < y] on doubles: false as soon as one side is NaN. *)
Definition num_lt (x y : number) : bool :=
  match x, y with
  | NaN, _ | _, NaN => false
  | Inf true, Inf true => false
  | Inf true, _ => true
  | _, Inf true => false
  | Inf false, _ => false
  | _, Inf false => true
  | Num a, Num b => negb (Qle_bool b a)
  end.

(** [x == y] on doubles. *)
Definition num_eq (x y : number) : bool :=
  match x, y with
  | Num a, Num b => Qeq_bool a b
  | Inf s, Inf s' => Bool.eqb s s'
  | _, _ => false
  end.

(** [x <= y] on doubles. *)
Definition num_le (x y : number) : bool := num_lt x y || num_eq x y.

Definition is_nan (x : number) : bool :=
  match x with
  | NaN => true
  | Num _ | Inf _ => false
  end.

(** [min(l)] on a non-empty list: an element replaces the current minimum
    when it is less than it. *)
Definition py_min (x : number) (l : list number) : number :=
  fold_left (fun m y => if num_lt y m then y else m) l x.

(** ** Strings *)

Definition is_lower (c : ascii) : bool := (("a" <=? c) && (c <=? "z"))%char.
Definition is_upper (c : ascii) : bool := (("A" <=? c) && (c <=? "Z"))%char.

Definition upper_char (c : ascii) : ascii :=
  if is_lower c then ascii_of_nat (nat_of_ascii c - 32) else c.
Definition lower_char (c : ascii) : ascii :=
  if is_upper c then ascii_of_nat (nat_of_ascii c + 32) else c.

Fixpoint map_string (f : ascii -> ascii) (s : string) : string :=
  match s with
  | EmptyString => EmptyString
  | String c s' => String (f c) (map_string f s')
  end.

(** [s.upper()], [s.lower()], [s.capitalize()] on ASCII text. *)
Definition upper (s : string) : string := map_string upper_char s.
Definition lower (s : string) : string := map_string lower_char s.
Definition capitalize (s : string) : string :=
  match s with
  | EmptyString => EmptyString
  | String c s' => String (upper_char c) (lower s')
  end.

(** [s.replace(old, new)] for one-character [old] and [new]. *)
Definition replace (old new : ascii) (s : string) : string :=
  map_string (fun c => if Ascii.eqb c old then new else c) s.

(** [s.title()]: a letter that follows a letter is lowered, any other
    letter is raised. *)
Fixpoint title_from (prev_cased : bool) (s : string) : string :=
  match s with
  | EmptyString => EmptyString
  | String c s' =>
      String (if prev_cased then lower_char c else upper_char c)
             (title_from (is_lower c || is_upper c) s')
  end.
Definition title (s : string) : string := title_from false s.

(** [needle in hay] on strings. *)
Fixpoint contains (needle hay : string) : bool :=
  String.prefix needle hay ||
  match hay with
  | EmptyString => false
  | String _ hay' => contains needle hay'
  end.

(** ** [list.sort(key=...)]

    CPython's sort compares keys with [<] only.  Where the keys are totally
    ordered it returns the one stable sorted arrangement, which insertion
    from the right computes.  Where a key is NaN no arrangement is sorted;
    on the lists of this program, which hold at most three entries (one
    per shop), insertion from the right is also what CPython leaves: it
    detects the leading run with the same comparisons and inserts the
    rest. *)

Section Sort.
Context {A : Type} (key : A -> number).

Fixpoint insert_by (x : A) (l : list A) : list A :=
  match l with
  | [] => [x]
  | y :: l' => if num_lt (key y) (key x) then y :: insert_by x l' else x :: y :: l'
  end.

Fixpoint sort_by (l : list A) : list A :=
  match l with
  | [] => []
  | x :: l' => insert_by x (sort_by l')
  end.

Definition key_le (a b : A) : Prop := num_le (key a) (key b) = true.

End Sort.

(** [a or b]: the first operand when it is truthy, else the second. *)
Definition py_or {A : Type} `{Truthy A} (a b : A) : A := if truthy a then a else b.

(** [l[:n]]: a negative [n] counts from the end. *)
Definition py_slice_to {A : Type} (l : list A) (n : Z) : list A :=
  if 0 <=? n then take (Z.to_nat n) l
  else take (Z.to_nat (Z.of_nat (length l) + n)) l.

(** [str(x)] on the result of a [get] of a string: [str(None)] is ["None"]. *)
Definition py_str (o : option string) : string :=
  match o with
  | Some s => s
  | None => "None"
  end.

(** ** Documents of the collections *)

(** One value of the [shops] mapping of a merged product. *)
Module Offer.
Record t : Type := mk {
  price : field number;
  old_price : field number;
  available : field bool;
  url : field string;
  images : field (list string);
  brand : field string;
  specifications : field (gmap string string)
}.
End Offer.

(** A document of [merged_products].  A shop key that holds null reads as
    [None] under [shops_data.get(shop_name)], the same as a missing key, so
    the mapping only records the shops that hold a document. *)
Module Raw.
Record t : Type := mk {
  _id : field string;
  title : field string;
  sku : field string;
  subcategory : field string;
  low_category : field string;
  top_category : field string;
  shops : field (gmap string Offer.t)
}.
End Raw.

(** A document of a [<shop>_details] collection. *)
Module ShopDoc.
Record t : Type := mk {
  _id : field string;
  title : field string;
  sku : field string;
  price : field number;
  old_price : field number;
  available : field bool;
  url : field string;
  images : field (list string);
  brand : field string;
  overview : field string;
  description : field string;
  subcategory : field string;
  low_category : field string;
  top_category : field string;
  specifications : field (gmap string string)
}.
End ShopDoc.

(** ** The pydantic schemas *)

Module ShopPrice.
Record t : Type := mk {
  shop : string;
  price : number;
  oldPrice : option number;
  available : bool;
  url : option string
}.
End ShopPrice.

Module Product.
Record t : Type := mk {
  id : string;
  name : string;
  brand : string;
  bestPrice : number;
  originalPrice : option number;
  image : string;
  description : string;
  inStock : bool;
  category : option string;
  shopPrices : list ShopPrice.t;
  specifications : option (gmap string string)
}.
End Product.

Module ParaProduct.
Record t : Type := mk {
  id : string;
  name : string;
  brand : string;
  bestPrice : number;
  originalPrice : option number;
  image : string;
  description : string;
  inStock : bool;
  category : option string;
  topCategory : option string;
  shopPrices : list ShopPrice.t;
  specifications : option (gmap string string)
}.
End ParaProduct.

(** [SearchResult] and [ParaSearchResult] have the same fields. *)
Module SearchResult.
Record t : Type := mk {
  id : string;
  name : string;
  brand : string;
  bestPrice : number;
  image : string;
  inStock : bool
}.
End SearchResult.

(** [ProductListResponse] and [ParaProductListResponse]. *)
Module ListResponse.
Record t (P : Type) : Type := mk {
  products : list P;
  total : Z;
  page : Z;
  limit : Z;
  totalPages : Z
}.
Arguments mk {P} _ _ _ _ _.
Arguments products {P} _.
Arguments total {P} _.
Arguments page {P} _.
Arguments limit {P} _.
Arguments totalPages {P} _.
End ListResponse.

(** A field declared [str] rejects [None] when the model is built. *)
Definition required_str (o : option string) : result string :=
  match o with
  | Some s => Ok s
  | None => Raise ValidationError
  end.

(** ** The merged-record normalisers *)

Definition RETAIL_SHOPS : list string := ["mytek"; "spacenet"; "tunisianet"].
Definition RETAIL_IMAGE_SHOPS : list string := ["mytek"; "tunisianet"; "spacenet"].
Definition PARA_SHOPS : list string := ["parashop"; "pharma-shop"; "parafendri"].

Definition PLACEHOLDER : string := "/placeholder.svg".

(** [p.get("shops", {})]; the first [shops_data.get(...)] of the function
    raises when the key holds null. *)
Definition shops_of (p : Raw.t) : result (gmap string Offer.t) :=
  match get_default (Raw.shops p) ∅ with
  | Some shops_data => Ok shops_data
  | None => Raise AttributeError
  end.

(** [float(shop["old_price"]) if shop.get("old_price") else None]. *)
Definition old_price_of (f : field number) : option number :=
  if truthy (get f) then float <$> get f else None.

(** [bool(shop.get("available", False))]. *)
Definition available_of (f : field bool) : bool := truthy (get_default f false).

(** The [ShopPrice] built for [shop_name] in [parse_product]. *)
Definition retail_entry (shop_name : string) (shop : Offer.t) (price : number) : ShopPrice.t :=
  ShopPrice.mk (capitalize shop_name) (float price)
               (old_price_of (Offer.old_price shop))
               (available_of (Offer.available shop))
               (get (Offer.url shop)).

(** The [ShopPrice] built for [shop_name] in [parse_para_product]. *)
Definition para_entry (shop_name : string) (shop : Offer.t) (price : number) : ShopPrice.t :=
  ShopPrice.mk (title (replace "-" " " shop_name)) (round (float price) 3)
               (old_price_of (Offer.old_price shop))
               (available_of (Offer.available shop))
               (get (Offer.url shop)).

(** One turn of the collecting loop: [if shop and shop.get("price")], then
    append.  An empty [shop] has no price, so the test on [shop] itself
    never decides. *)
Definition collect_step (entry : string -> Offer.t -> number -> ShopPrice.t)
    (shops_data : gmap string Offer.t)
    (shop_prices : list ShopPrice.t) (shop_name : string) : list ShopPrice.t :=
  match shops_data !! shop_name with
  | Some shop =>
      match get (Offer.price shop) with
      | Some price =>
          if truthy price then shop_prices ++ [entry shop_name shop price]
          else shop_prices
      | None => shop_prices
      end
  | None => shop_prices
  end.

Definition collect_shop_prices (entry : string -> Offer.t -> number -> ShopPrice.t)
    (shops_data : gmap string Offer.t) (names : list string) : list ShopPrice.t :=
  fold_left (collect_step entry shops_data) names [].

(** [shop_prices[0].price if shop_prices else 0.0]. *)
Definition best_price_of (shop_prices : list ShopPrice.t) : number :=
  match shop_prices with
  | sp :: _ => ShopPrice.price sp
  | [] => (Num 0)
  end.

(** [[sp.oldPrice for sp in shop_prices if sp.oldPrice]]. *)
Definition old_prices_of (shop_prices : list ShopPrice.t) : list number :=
  omap (fun sp => if truthy (ShopPrice.oldPrice sp) then ShopPrice.oldPrice sp else None)
       shop_prices.

(** [min(old_prices) if old_prices else None]. *)
Definition original_price_of (old_prices : list number) : option number :=
  match old_prices with
  | x :: l => Some (py_min x l)
  | [] => None
  end.

(** The inner image loop of [parse_product]: the first image that is not the
    free-delivery banner replaces [image_url]. *)
Fixpoint pick_image (imgs : list string) (image_url : string) : string :=
  match imgs with
  | [] => image_url
  | img :: rest =>
      if negb (contains "livraison-gratuite" img) then img
      else pick_image rest image_url
  end.

Fixpoint retail_image (shops_data : gmap string Offer.t) (names : list string)
    (image_url : string) : string :=
  match names with
  | [] => image_url
  | shop_name :: rest =>
      match shops_data !! shop_name ≫= (fun shop => get (Offer.images shop)) with
      | Some imgs =>
          if truthy imgs then
            let image_url' := pick_image imgs image_url in
            if negb (String.eqb image_url' PLACEHOLDER) then image_url'
            else retail_image shops_data rest image_url'
          else retail_image shops_data rest image_url
      | None => retail_image shops_data rest image_url
      end
  end.

Fixpoint para_image (shops_data : gmap string Offer.t) (names : list string) : string :=
  match names with
  | [] => PLACEHOLDER
  | shop_name :: rest =>
      match shops_data !! shop_name ≫= (fun shop => get (Offer.images shop)) with
      | Some (img :: _) => img
      | Some [] | None => para_image shops_data rest
      end
  end.

(** The brand loop: the first shop with a truthy brand decides. *)
Fixpoint first_brand (shops_data : gmap string Offer.t) (names : list string) : string :=
  match names with
  | [] => "Generic"
  | shop_name :: rest =>
      match shops_data !! shop_name ≫= (fun shop => get (Offer.brand shop)) with
      | Some b => if truthy b then upper b else first_brand shops_data rest
      | None => first_brand shops_data rest
      end
  end.

(** The specification loop: a key already present is kept. *)
Definition merge_specifications (shops_data : gmap string Offer.t)
    (names : list string) : gmap string string :=
  fold_left
    (fun specifications shop_name =>
       match shops_data !! shop_name ≫= (fun shop => get (Offer.specifications shop)) with
       | Some specs => specifications ∪ specs
       | None => specifications
       end)
    names ∅.

(** [float(original_price) if original_price else None]. *)
Definition emit_original (original_price : option number) (rnd : number -> number) : option number :=
  if truthy original_price then (fun q => rnd (float q)) <$> original_price else None.

Definition parse_product (p : Raw.t) (default_category : string)
    (include_specs : bool) : result Product.t :=
  shops_data ← shops_of p;
  let shop_prices :=
    sort_by ShopPrice.price (collect_shop_prices retail_entry shops_data RETAIL_SHOPS) in
  let best_price := best_price_of shop_prices in
  let original_price := original_price_of (old_prices_of shop_prices) in
  let image_url := retail_image shops_data RETAIL_IMAGE_SHOPS PLACEHOLDER in
  let brand := first_brand shops_data RETAIL_SHOPS in
  let in_stock := existsb ShopPrice.available shop_prices in
  let product_id := py_str (get_default (Raw._id p) "unknown") in
  let specifications :=
    if include_specs then Some (merge_specifications shops_data RETAIL_SHOPS) else None in
  name ← required_str (get_default (Raw.title p) "Unknown Product");
  description ← required_str (get_default (Raw.title p) "");
  Ok (Product.mk product_id name brand best_price
        (emit_original original_price (fun q => q))
        image_url description in_stock
        (py_or (get (Raw.subcategory p))
               (py_or (get (Raw.low_category p)) (Some default_category)))
        shop_prices specifications).

Definition parse_para_product (p : Raw.t) (default_category : string)
    (include_specs : bool) : result ParaProduct.t :=
  shops_data ← shops_of p;
  let shop_prices :=
    sort_by ShopPrice.price (collect_shop_prices para_entry shops_data PARA_SHOPS) in
  let best_price := best_price_of shop_prices in
  let original_price := original_price_of (old_prices_of shop_prices) in
  let image_url := para_image shops_data PARA_SHOPS in
  let brand := first_brand shops_data PARA_SHOPS in
  let in_stock := existsb ShopPrice.available shop_prices in
  let product_id := py_str (get_default (Raw._id p) "unknown") in
  let specifications :=
    if include_specs then Some (merge_specifications shops_data PARA_SHOPS) else None in
  name ← required_str (get_default (Raw.title p) "Unknown Product");
  description ← required_str (get_default (Raw.title p) "");
  Ok (ParaProduct.mk product_id name brand (round best_price 3)
        (emit_original original_price (fun q => round q 3))
        image_url description in_stock
        (py_or (get (Raw.low_category p))
               (py_or (get (Raw.subcategory p)) (Some default_category)))
        (get (Raw.top_category p))
        shop_prices specifications).

(** ** The single-shop normalisers *)

(** [brand = p.get("brand", "Generic")], then [if brand: brand = brand.upper()]. *)
Definition single_brand (f : field string) : option string :=
  let brand := get_default f "Generic" in
  if truthy brand then upper <$> brand else brand.

(** [for img in p.get("images", [])]: iterating [None] raises. *)
Definition single_retail_image (f : field (list string)) : result string :=
  match get_default f [] with
  | Some images => Ok (pick_image images PLACEHOLDER)
  | None => Raise TypeError
  end.

(** [p.get(k, p.get("title", ""))]. *)
Definition description_of (f : field string) (title : field string) : option string :=
  match f with
  | Missing => get_default title ""
  | Null => None
  | Val s => Some s
  end.

Definition parse_single_shop_product (p : ShopDoc.t) (shop_name : string)
    : result Product.t :=
  price ← float_opt (get_default (ShopDoc.price p) (Num 0));
  let old_price := old_price_of (ShopDoc.old_price p) in
  let shop_prices :=
    [ShopPrice.mk (capitalize shop_name) price old_price
                  (available_of (ShopDoc.available p)) (get (ShopDoc.url p))] in
  image_url ← single_retail_image (ShopDoc.images p);
  name ← required_str (get_default (ShopDoc.title p) "Unknown Product");
  brand ← required_str (single_brand (ShopDoc.brand p));
  description ← required_str (description_of (ShopDoc.overview p) (ShopDoc.title p));
  Ok (Product.mk (py_str (get_default (ShopDoc._id p) "unknown")) name brand
        price old_price image_url description
        (available_of (ShopDoc.available p))
        (py_or (get (ShopDoc.subcategory p)) (get (ShopDoc.low_category p)))
        shop_prices (get (ShopDoc.specifications p))).

(** [round(old_price, 3) if old_price else None]. *)
Definition round_old (old_price : option number) : option number :=
  if truthy old_price then (fun q => round q 3) <$> old_price else None.

(** [images = p.get("images", [])], then [images[0]] when [images] is truthy. *)
Definition single_para_image (f : field (list string)) : string :=
  match get_default f [] with
  | Some (img :: _) => img
  | Some [] | None => PLACEHOLDER
  end.

Definition parse_single_para_shop_product (p : ShopDoc.t) (shop_name : string)
    : result ParaProduct.t :=
  price ← float_opt (get_default (ShopDoc.price p) (Num 0));
  let old_price := old_price_of (ShopDoc.old_price p) in
  let shop_prices :=
    [ShopPrice.mk (title (replace "-" " " shop_name)) (round price 3) (round_old old_price)
                  (available_of (ShopDoc.available p)) (get (ShopDoc.url p))] in
  let image_url := single_para_image (ShopDoc.images p) in
  name ← required_str (get_default (ShopDoc.title p) "Unknown Product");
  brand ← required_str (single_brand (ShopDoc.brand p));
  description ← required_str (description_of (ShopDoc.description p) (ShopDoc.title p));
  Ok (ParaProduct.mk (py_str (get_default (ShopDoc._id p) "unknown")) name brand
        (round price 3) (round_old old_price) image_url description
        (available_of (ShopDoc.available p))
        (py_or (get (ShopDoc.low_category p)) (get (ShopDoc.subcategory p)))
        (get (ShopDoc.top_category p))
        shop_prices (Some ∅)).

(** ** The database *)

(** The conditions the services put in a [$match] stage. *)
Inductive Cond : Type :=
| FieldEq (field_name value : string)
| TitleOrSkuRegex (pattern : string)
| BestPriceGte (min_price : number)
| BestPriceLte (max_price : number)
| DerivedInStock.

(** The stages of the listing pipeline.  [AddDerived] stands for the stage
    that computes [derived_best_price] (a price that does not convert
    counts as 9999999) and [derived_in_stock]. *)
Inductive Stage : Type :=
| Match (conds : list Cond)
| AddShopsArray
| AddDerived
| Facet (skip limit : Z).

(** The one document a [$facet] stage returns: [metadata] holds the totals
    of its [$count] documents. *)
Module FacetResult.
Record t : Type := mk {
  metadata : field (list Z);
  products : field (list Raw.t)
}.
End FacetResult.

(** One database ([Retails] or [PARA]) as the services see it. *)
Module Database.
Record t : Type := mk {
  (** [merged_products.find({"$or": [title, sku]}).limit(n)], iterated. *)
  find_merged : string -> Z -> result (list Raw.t);
  (** The same query on the collection named first. *)
  find_details : string -> string -> Z -> result (list ShopDoc.t);
  (** [merged_products.aggregate(pipeline).to_list(length=1)]. *)
  aggregate : list Stage -> result (list FacetResult.t)
}.
End Database.

(** ** Autocomplete search *)

Definition RETAIL_DETAILS : list (string * string) :=
  [("mytek", "mytek_details"); ("spacenet", "spacenet_details");
   ("tunisianet", "tunisianet_details")].

(** Each collection of [search_para_products] with the shop name
    [shop_collection.replace("_details", "")] gives. *)
Definition PARA_DETAILS : list (string * string) :=
  [("parashop", "parashop_details"); ("pharma-shop", "pharma-shop_details");
   ("parafendri", "parafendri_details")].

Definition product_result (product : Product.t) : SearchResult.t :=
  SearchResult.mk (Product.id product) (Product.name product) (Product.brand product)
    (Product.bestPrice product) (Product.image product) (Product.inStock product).

Definition para_product_result (product : ParaProduct.t) : SearchResult.t :=
  SearchResult.mk (ParaProduct.id product) (ParaProduct.name product)
    (ParaProduct.brand product) (ParaProduct.bestPrice product)
    (ParaProduct.image product) (ParaProduct.inStock product).

(** [if sku and sku not in seen_skus]. *)
Definition fresh_sku (sku : field string) (seen_skus : gset string) : option string :=
  match get sku with
  | Some k => if truthy k && negb (bool_decide (k ∈ seen_skus)) then Some k else None
  | None => None
  end.

(** The loop state: [results] and [seen_skus]. *)
Definition search_state : Type := list SearchResult.t * gset string.

Definition len_ge (st : search_state) (limit : Z) : bool :=
  limit <=? Z.of_nat (length st.1).

Section Search.
Context {P : Type}.
Variable to_result : P -> SearchResult.t.
Variable parse_merged : Raw.t -> result P.
Variable parse_single : ShopDoc.t -> string -> result P.
Variable details : list (string * string).

(** The first loop runs over every document of the cursor. *)
Fixpoint scan_merged (docs : list Raw.t) (st : search_state) : result search_state :=
  match docs with
  | [] => Ok st
  | p :: rest =>
      match fresh_sku (Raw.sku p) st.2 with
      | Some sku =>
          product ← parse_merged p;
          scan_merged rest (st.1 ++ [to_result product], {[sku]} ∪ st.2)
      | None => scan_merged rest st
      end
  end.

(** The inner loop over one shop collection leaves as soon as [results]
    holds [limit] entries. *)
Fixpoint scan_details (limit : Z) (shop_name : string) (docs : list ShopDoc.t)
    (st : search_state) : result search_state :=
  match docs with
  | [] => Ok st
  | p :: rest =>
      match fresh_sku (ShopDoc.sku p) st.2 with
      | Some sku =>
          product ← parse_single p shop_name;
          let st' := (st.1 ++ [to_result product], {[sku]} ∪ st.2) in
          if len_ge st' limit then Ok st'
          else scan_details limit shop_name rest st'
      | None => scan_details limit shop_name rest st
      end
  end.

Fixpoint scan_collections (db : Database.t) (query : string) (limit remaining : Z)
    (colls : list (string * string)) (st : search_state) : result search_state :=
  match colls with
  | [] => Ok st
  | (shop_name, collection_name) :: rest =>
      if len_ge st limit then Ok st
      else
        docs ← Database.find_details db collection_name query remaining;
        st' ← scan_details limit shop_name docs st;
        scan_collections db query limit remaining rest st'
  end.

Definition search_with (db : Database.t) (query : string) (limit : Z)
    : result (list SearchResult.t) :=
  docs ← Database.find_merged db query limit;
  st ← scan_merged docs ([], ∅);
  st' ← (if negb (len_ge st limit)
         then scan_collections db query limit (limit - Z.of_nat (length st.1)) details st
         else Ok st);
  Ok (py_slice_to st'.1 limit).
End Search.

Definition search_products : Database.t -> string -> Z -> result (list SearchResult.t) :=
  search_with product_result (fun p => parse_product p "" false)
              parse_single_shop_product RETAIL_DETAILS.

Definition search_para_products : Database.t -> string -> Z -> result (list SearchResult.t) :=
  search_with para_product_result (fun p => parse_para_product p "" false)
              parse_single_para_shop_product PARA_DETAILS.

(** ** Paginated listing *)

(** [category_type if category_type in [...] else "subcategory"]. *)
Definition retail_match_field (category_type : string) : string :=
  if bool_decide (category_type ∈ ["subcategory"; "low_category"]) then category_type
  else "subcategory".

Definition get_category_field (category_type : string) : string :=
  if String.eqb category_type "top" then "top_category"
  else if String.eqb category_type "low" then "low_category"
  else if String.eqb category_type "top_category" then "top_category"
  else if String.eqb category_type "low_category" then "low_category"
  else if String.eqb category_type "subcategory" then "subcategory"
  else "top_category".

Definition match_stage (match_field : string -> string)
    (category : option string) (category_type : string) (search : option string)
    : list Cond :=
  (match category with
   | Some c => if truthy c then [FieldEq (match_field category_type) c] else []
   | None => []
   end) ++
  (match search with
   | Some s => if truthy s then [TitleOrSkuRegex s] else []
   | None => []
   end).

Definition filter_stage (min_price max_price : option number) (in_stock_only : bool)
    : list Cond :=
  (match min_price with Some q => [BestPriceGte q] | None => [] end) ++
  (match max_price with Some q => [BestPriceLte q] | None => [] end) ++
  (if in_stock_only then [DerivedInStock] else []).

Definition listing_pipeline (match_field : string -> string)
    (category : option string) (category_type : string) (search : option string)
    (min_price max_price : option number) (in_stock_only : bool) (page limit : Z)
    : list Stage :=
  [Match (match_stage match_field category category_type search);
   AddShopsArray; AddDerived] ++
  (if truthy (filter_stage min_price max_price in_stock_only)
   then [Match (filter_stage min_price max_price in_stock_only)] else []) ++
  [Facet ((page - 1) * limit) limit].

(** [a // b] on integers. *)
Definition floordiv (a b : Z) : result Z :=
  if b =? 0 then Raise ZeroDivisionError else Ok (a / b).

(** [(total + limit - 1) // limit if total > 0 else 1]. *)
Definition total_pages_of (total limit : Z) : result Z :=
  if 0 <? total then floordiv (total + limit - 1) limit else Ok 1.

Fixpoint parse_all {P : Type} (parse : Raw.t -> result P) (docs : list Raw.t)
    : result (list P) :=
  match docs with
  | [] => Ok []
  | p :: rest =>
      x ← parse p;
      xs ← parse_all parse rest;
      Ok (x :: xs)
  end.

Section Listing.
Context {P : Type}.
Variable parse : Raw.t -> result P.

(** The body of the [try] block, given what the aggregation answered. *)
Definition listing_try (answer : result (list FacetResult.t)) (page limit : Z)
    : result (ListResponse.t P) :=
  result_list ← answer;
  result ← (match result_list with
            | r :: _ => Ok r
            | [] => Raise IndexError
            end);
  let metadata := get_default (FacetResult.metadata result) [] in
  let products_raw := get_default (FacetResult.products result) [] in
  let total := match metadata with
               | Some (t :: _) => t
               | Some [] | None => 0
               end in
  total_pages ← total_pages_of total limit;
  products ← (match products_raw with
              | Some docs => parse_all parse docs
              | None => Raise TypeError
              end);
  Ok (ListResponse.mk products total page limit total_pages).

(** [try: ... except Exception: return the empty page]. *)
Definition listing_with (match_field : string -> string) (db : Database.t)
    (category : option string) (category_type : string) (search : option string)
    (min_price max_price : option number) (in_stock_only : bool) (page limit : Z)
    : ListResponse.t P :=
  let pipeline :=
    listing_pipeline match_field category category_type search
                     min_price max_price in_stock_only page limit in
  match listing_try (Database.aggregate db pipeline) page limit with
  | Ok response => response
  | Raise _ => ListResponse.mk [] 0 page limit 0
  end.
End Listing.

Definition get_products_listing :=
  listing_with (fun p => parse_product p "" false) retail_match_field.

Definition get_para_products_listing :=
  listing_with (fun p => parse_para_product p "" false) get_category_field.

(** ** The other accessors of the services *)

(** The filter of a [find_one]: [{"_id": obj_id}] or [{"sku": sku}]. *)
Inductive Key : Type :=
| ById (obj_id : string)
| BySku (sku : string).

(** A document of [shop_rankings] in [analytics_cheapest_by_category]. *)
Module RankingDoc.
Record t : Type := mk {
  shop : field string;
  avg_price : field number;
  min_price : field number;
  max_price : field number;
  product_count : field Z
}.
End RankingDoc.

(** A document of [analytics_cheapest_by_category]. *)
Module AnalyticsDoc.
Record t : Type := mk {
  category : field string;
  cheapest_shop : field string;
  cheapest_avg_price : field number;
  shop_rankings : field (list RankingDoc.t);
  only_available : field bool
}.
End AnalyticsDoc.

Module ShopRanking.
Record t : Type := mk {
  shop : string;
  avg_price : number;
  min_price : number;
  max_price : number;
  product_count : Z
}.
End ShopRanking.

Module CategoryAnalytics.
Record t : Type := mk {
  category : string;
  cheapest_shop : string;
  cheapest_avg_price : number;
  shop_rankings : list ShopRanking.t;
  only_available : bool
}.
End CategoryAnalytics.

(** The queries of one database that the listing and the search do not
    use.  A document [find_one] returns holds its [_id], so it is truthy. *)
Module Store.
Record t : Type := mk {
  (** [merged_products.find_one(filter)]. *)
  find_one_merged : Key -> result (option Raw.t);
  (** [find_one(filter)] on the collection named first. *)
  find_one_details : string -> Key -> result (option ShopDoc.t);
  (** [merged_products.distinct(field)]. *)
  distinct : string -> result (list (option string));
  (** [merged_products.aggregate([{"$match": {field: category}},
      {"$sample": {"size": size}}]).to_list(length=size)]. *)
  sample : string -> string -> Z -> result (list Raw.t);
  (** [analytics_cheapest_by_category.find_one({"category": category})]. *)
  find_one_analytics : string -> result (option AnalyticsDoc.t)
}.
End Store.

(** *** Lookup by SKU and by id *)

Section Lookup.
Context {P : Type}.
Variable parse_merged : Raw.t -> result P.
Variable parse_single : ShopDoc.t -> string -> result P.

(** The loop over the details collections: the first document found is
    returned. *)
Fixpoint lookup_details (st : Store.t) (key : Key) (colls : list (string * string))
    : result (option P) :=
  match colls with
  | [] => Ok None
  | (shop_name, collection_name) :: rest =>
      product_doc ← Store.find_one_details st collection_name key;
      match product_doc with
      | Some doc => product ← parse_single doc shop_name; Ok (Some product)
      | None => lookup_details st key rest
      end
  end.

Definition lookup_with (st : Store.t) (key : Key) (colls : list (string * string))
    : result (option P) :=
  product_doc ← Store.find_one_merged st key;
  match product_doc with
  | Some doc => product ← parse_merged doc; Ok (Some product)
  | None => lookup_details st key colls
  end.
End Lookup.

Definition get_product_by_sku (st : Store.t) (sku : string) : result (option Product.t) :=
  lookup_with (fun p => parse_product p "" true) parse_single_shop_product
              st (BySku sku) RETAIL_DETAILS.

Definition get_para_product_by_sku (st : Store.t) (sku : string)
    : result (option ParaProduct.t) :=
  lookup_with (fun p => parse_para_product p "" true) parse_single_para_shop_product
              st (BySku sku) PARA_DETAILS.

(** [ObjectId(product_id)] is bson's: [object_id] gives the id it builds,
    or [None] where it raises. *)
Definition get_product_by_id (object_id : string -> option string) (st : Store.t)
    (product_id : string) : result (option Product.t) :=
  match object_id product_id with
  | None => Ok None
  | Some obj_id =>
      lookup_with (fun p => parse_product p "" true) parse_single_shop_product
                  st (ById obj_id) RETAIL_DETAILS
  end.

Definition get_para_product_by_id (object_id : string -> option string) (st : Store.t)
    (product_id : string) : result (option ParaProduct.t) :=
  match object_id product_id with
  | None => Ok None
  | Some obj_id =>
      lookup_with (fun p => parse_para_product p "" true) parse_single_para_shop_product
                  st (ById obj_id) PARA_DETAILS
  end.

(** *** Distinct categories *)

(** [sorted(l)] on strings: ascending by code point, which is the order of
    the bytes. *)
Fixpoint insert_str (x : string) (l : list string) : list string :=
  match l with
  | [] => [x]
  | y :: l' => if String.leb x y then x :: y :: l' else y :: insert_str x l'
  end.

Fixpoint sorted (l : list string) : list string :=
  match l with
  | [] => []
  | x :: l' => insert_str x (sorted l')
  end.

(** [[c for c in categories if c]]. *)
Definition truthy_strings (categories : list (option string)) : list string :=
  omap (fun c => if truthy c then c else None) categories.

(** [try: return sorted([c for c in distinct(field) if c])], and [[]] on
    any exception. *)
Definition distinct_categories (st : Store.t) (field_name : string) : list string :=
  match Store.distinct st field_name with
  | Ok categories => sorted (truthy_strings categories)
  | Raise _ => []
  end.

Definition get_categories (st : Store.t) : list string :=
  distinct_categories st "subcategory".

Definition get_all_low_categories (st : Store.t) : list string :=
  distinct_categories st "low_category".

Definition get_para_categories (st : Store.t) (category_type : string) : list string :=
  distinct_categories st (get_category_field category_type).

(** *** Random products *)

Definition get_random_products (st : Store.t) (category category_type : string)
    (limit : Z) : result (list Product.t) :=
  let actual_limit := Z.min limit 10 in
  let match_field := retail_match_field category_type in
  raw_products ← Store.sample st match_field category actual_limit;
  parse_all (fun p => parse_product p category false) raw_products.

Definition get_para_random_products (st : Store.t) (category category_type : string)
    (limit : Z) : result (list ParaProduct.t) :=
  let actual_limit := Z.min limit 10 in
  let match_field := get_category_field category_type in
  raw_products ← Store.sample st match_field category actual_limit;
  parse_all (fun p => parse_para_product p category false) raw_products.

(** *** Category analytics *)

(** [round(d.get(k, 0), 2)], stored in a field declared [float]: rounding
    [None] raises; an [int] rounds to itself and becomes a double in the
    model, which is what rounding its double gives. *)
Definition round_field (f : field number) : result number :=
  match get_default f (Num 0) with
  | Some x => Ok (round (float x) 2)
  | None => Raise TypeError
  end.

(** A field declared [int] or [bool] rejects [None], like one declared
    [str]. *)
Definition required {A : Type} (o : option A) : result A :=
  match o with
  | Some a => Ok a
  | None => Raise ValidationError
  end.

Definition parse_ranking (r : RankingDoc.t) : result ShopRanking.t :=
  avg ← round_field (RankingDoc.avg_price r);
  min ← round_field (RankingDoc.min_price r);
  max ← round_field (RankingDoc.max_price r);
  shop ← required (get_default (RankingDoc.shop r) "");
  count ← required (get_default (RankingDoc.product_count r) 0);
  Ok (ShopRanking.mk shop avg min max count).

Fixpoint parse_rankings (rs : list RankingDoc.t) : result (list ShopRanking.t) :=
  match rs with
  | [] => Ok []
  | r :: rest =>
      x ← parse_ranking r;
      xs ← parse_rankings rest;
      Ok (x :: xs)
  end.

(** The body of the [try] block of [get_category_analytics]. *)
Definition category_analytics_try (st : Store.t) (category : string)
    : result (option CategoryAnalytics.t) :=
  doc ← Store.find_one_analytics st category;
  match doc with
  | None => Ok None
  | Some doc =>
      rankings ← (match get_default (AnalyticsDoc.shop_rankings doc) [] with
                  | Some rs => parse_rankings rs
                  | None => Raise TypeError
                  end);
      cheapest ← round_field (AnalyticsDoc.cheapest_avg_price doc);
      category ← required (get_default (AnalyticsDoc.category doc) "");
      cheapest_shop ← required (get_default (AnalyticsDoc.cheapest_shop doc) "");
      only_available ← required (get_default (AnalyticsDoc.only_available doc) true);
      Ok (Some (CategoryAnalytics.mk category cheapest_shop cheapest rankings
                                     only_available))
  end.

(** [get_category_analytics], the same in both services: [None] on any
    exception. *)
Definition get_category_analytics (st : Store.t) (category : string)
    : option CategoryAnalytics.t :=
  match category_analytics_try st category with
  | Ok analytics => analytics
  | Raise _ => None
  end.

(** *** The routes *)

(** What a route answers: the body, or an [HTTPException] with its status
    code. *)
Inductive response (A : Type) : Type :=
| Http200 (body : A)
| HttpError (status_code : Z).

Arguments Http200 {A} body.
Arguments HttpError {A} status_code.

(** The by-SKU, by-id and analytics routes: 404 for [None], 500 for any
    other exception. *)
Definition found_or_404 {A : Type} (r : result (option A)) : response A :=
  match r with
  | Ok (Some product) => Http200 product
  | Ok None => HttpError 404
  | Raise _ => HttpError 500
  end.

Definition by_sku_route (st : Store.t) (sku : string) : response Product.t :=
  found_or_404 (get_product_by_sku st sku).

Definition para_by_sku_route (st : Store.t) (sku : string) : response ParaProduct.t :=
  found_or_404 (get_para_product_by_sku st sku).

Definition by_id_route (object_id : string -> option string) (st : Store.t)
    (product_id : string) : response Product.t :=
  found_or_404 (get_product_by_id object_id st product_id).

Definition para_by_id_route (object_id : string -> option string) (st : Store.t)
    (product_id : string) : response ParaProduct.t :=
  found_or_404 (get_para_product_by_id object_id st product_id).

(** [len(q)]: the code points of a UTF-8 string are its bytes that are not
    continuation bytes (10xxxxxx). *)
Fixpoint py_len (s : string) : nat :=
  match s with
  | EmptyString => 0
  | String (Ascii _ _ _ _ _ _ b6 b7) s' =>
      if b7 && negb b6 then py_len s' else S (py_len s')
  end.

(** The search routes: a query shorter than two characters is answered
    without calling the service. *)
Definition search_route (search : Database.t -> string -> Z -> result (list SearchResult.t))
    (db : Database.t) (q : string) (limit : Z) : response (list SearchResult.t) :=
  if (py_len q <? 2)%nat then Http200 []
  else match search db q limit with
       | Ok results => Http200 results
       | Raise _ => HttpError 500
       end.

(** * Vocabulary of the statements *)

(** What one shop contributes to the price list. *)
Definition included (entry : string -> Offer.t -> number -> ShopPrice.t)
    (shops_data : gmap string Offer.t) (shop_name : string) : option ShopPrice.t :=
  shop ← shops_data !! shop_name;
  price ← get (Offer.price shop);
  if truthy price then Some (entry shop_name shop price) else None.


(** No entry of the list has the price NaN. *)
Definition nan_free (shop_prices : list ShopPrice.t) : Prop :=
  Forall (fun sp => is_nan (ShopPrice.price sp) = false) shop_prices.


(** No old price of the list is NaN. *)
Definition old_nan_free (shop_prices : list ShopPrice.t) : Prop :=
  Forall (fun sp => match ShopPrice.oldPrice sp with
                    | Some o => is_nan o = false
                    | None => True
                    end) shop_prices.


(** A magnitude a double can have: a significand of at most 53 bits at an
    exponent of at least -1074. *)
Definition on_grid (a : Q) : Prop :=
  exists m e, 0 <= m <= 2 ^ 53 /\ -1074 <= e /\ (a == inject_Z m * pow2 e)%Q.

(** The number is not zero: its double is not 0.0.  NaN and the
    infinities are not zero. *)
Definition nonzero (x : number) : Prop := float x <> Num 0.

(** A shop of the priority list whose offer holds a price that is neither
    null nor zero. *)
Definition priced (p : Raw.t) (n : string) (shop : Offer.t) (q : number) : Prop :=
  exists shops_data, shops_of p = Ok shops_data /\ shops_data !! n = Some shop /\
                     Offer.price shop = Val q /\ nonzero q.

(** An old price that reaches the price list: the double of an old price
    held, neither null nor zero, by a shop of the priority order whose
    offer is listed. *)
Definition listed_old (names : list string) (p : Raw.t) (o : number) : Prop :=
  exists n shop q old, n ∈ names /\ priced p n shop q /\
                       Offer.old_price shop = Val old /\ nonzero old /\ o = float old.

(** The old price [o] an entry shows for the stored key [f]: the double of
    the stored old price when that is neither null nor zero, and none
    otherwise. *)
Definition old_price_shown (f : field number) (o : option number) : Prop :=
  forall x, o = Some x <-> exists old, f = Val old /\ nonzero old /\ x = float old.

(** The pipelines the two listing functions hand to the database. *)
Definition retail_pipeline := listing_pipeline retail_match_field.
Definition para_pipeline := listing_pipeline get_category_field.

(** Where a search result comes from: a document of [merged_products], or
    a document of the details collection of [shop_name]. *)
Inductive Source : Type :=
| FromMerged (p : Raw.t)
| FromShop (shop_name : string) (p : ShopDoc.t).

Definition source_sku (s : Source) : option string :=
  match s with
  | FromMerged p => get (Raw.sku p)
  | FromShop _ p => get (ShopDoc.sku p)
  end.

(** The document was handed out by one of the cursors of the search. *)
Definition yielded (details : list (string * string)) (db : Database.t)
    (query : string) (s : Source) : Prop :=
  match s with
  | FromMerged p =>
      exists n docs, Database.find_merged db query n = Ok docs /\ p ∈ docs
  | FromShop shop_name p =>
      exists collection_name n docs,
        (shop_name, collection_name) ∈ details /\
        Database.find_details db collection_name query n = Ok docs /\ p ∈ docs
  end.

(** The string has no character outside ASCII, where [upper] is Python's
    [str.upper]. *)
Fixpoint ascii_only (s : string) : bool :=
  match s with
  | EmptyString => true
  | String c s' => (nat_of_ascii c <? 128)%nat && ascii_only s'
  end.

(** The brand one shop offers to the brand loop. *)
Definition shop_brand (shops_data : gmap string Offer.t) (shop_name : string)
    : option string :=
  shop ← shops_data !! shop_name;
  b ← get (Offer.brand shop);
  if truthy b then Some b else None.

Section SearchSpec.
Context {P : Type}.
Variable to_result : P -> SearchResult.t.
Variable parse_merged : Raw.t -> result P.
Variable parse_single : ShopDoc.t -> string -> result P.
Variable good : Source -> Prop.

(** The search result the functions build from a source document. *)
Definition source_result (s : Source) : result SearchResult.t :=
  match s with
  | FromMerged p => product ← parse_merged p; Ok (to_result product)
  | FromShop shop_name p => product ← parse_single p shop_name; Ok (to_result product)
  end.

(** [results] were built, in order, from [srcs]: documents that satisfy
    [good], each with a non-empty SKU, no SKU twice. *)
Definition built_from (srcs : list Source) (results : list SearchResult.t) : Prop :=
  Forall2 (fun s r => source_result s = Ok r) srcs results /\
  NoDup (source_sku <$> srcs) /\
  Forall (fun s => exists k, source_sku s = Some k /\ k <> "") srcs /\
  Forall good srcs.

Definition search_inv (st : search_state) : Prop :=
  exists srcs, built_from srcs st.1 /\
               Forall (fun s => exists k, source_sku s = Some k /\ k ∈ st.2) srcs.
End SearchSpec.

(** * Worked records *)

Definition offer (price old_price : field number) (available : field bool) : Offer.t :=
  Offer.mk price old_price available Missing Missing Missing Missing.

Definition merged (shops : gmap string Offer.t) : Raw.t :=
  Raw.mk Missing (Val "Laptop") (Val "SKU-1") Missing Missing Missing (Val shops).

(** A details document that only holds a title and a price. *)
Definition no_brand_doc : ShopDoc.t :=
  ShopDoc.mk Missing (Val "Laptop") Missing (Val (Num 100)) Missing Missing Missing
             Missing Missing Missing Missing Missing Missing Missing Missing.


(** Shop A at 100 and available, shop B at 80 and not available. *)
Definition two_shops : Raw.t :=
  merged (<["mytek" := offer (Val (Num 100)) Missing (Val true)]>
          (<["spacenet" := offer (Val (Num 80)) Missing (Val false)]> ∅)).

Definition two_shops_product : Product.t :=
  Product.mk "unknown" "Laptop" "Generic" (Num 80) None PLACEHOLDER "Laptop" true (Some "")
    [ShopPrice.mk "Spacenet" (Num 80) None false None;
     ShopPrice.mk "Mytek" (Num 100) None true None]
    None.


(** A parapharmacy record with a four-decimal price and old price. *)
Definition para_fine : Raw.t :=
  merged (<["pharma-shop" := offer (Val (Num 1.2345)) (Val (Num 2.2225)) (Val true)]> ∅).

(** What [parse_para_product] returns on it: the doubles Python prints as
    1.234, 2.2225 and 2.223. *)
Definition para_fine_entry : ShopPrice.t :=
  ShopPrice.mk "Pharma Shop" (float (Num 1.234)) (Some (float (Num 2.2225))) true None.

Definition para_fine_product : ParaProduct.t :=
  ParaProduct.mk "unknown" "Laptop" "Generic" (float (Num 1.234))
    (Some (float (Num 2.223)))
    PLACEHOLDER "Laptop" true (Some "") None [para_fine_entry] None.


(** A record whose only offer has the price 0. *)
Definition zero_price : Raw.t :=
  merged (<["mytek" := offer (Val (Num 0)) Missing (Val true)]> ∅).

(** A record whose only offer is available but has no price. *)
Definition available_unpriced : Raw.t :=
  merged (<["mytek" := offer Missing Missing (Val true)]> ∅).

(** A record whose only old price equals its current price. *)
Definition same_old_price : Raw.t :=
  merged (<["mytek" := offer (Val (Num 100)) (Val (Num 100)) (Val true)]> ∅).

Definition same_old_price_product : Product.t :=
  Product.mk "unknown" "Laptop" "Generic" (Num 100) (Some (Num 100)) PLACEHOLDER "Laptop" true
    (Some "") [ShopPrice.mk "Mytek" (Num 100) (Some (Num 100)) true None] None.

(** A record whose only old price sits in an offer without a price. *)
Definition old_price_unpriced : Raw.t :=
  merged (<["mytek" := offer Missing (Val (Num 120)) (Val true)]> ∅).


(** A database whose every query raises. *)
Definition failing_db : Database.t :=
  Database.mk (fun _ _ => Raise QueryError) (fun _ _ _ => Raise QueryError)
              (fun _ => Raise QueryError).

(** A merged document without a SKU. *)
Definition no_sku_raw : Raw.t :=
  Raw.mk Missing (Val "Laptop bag") Missing Missing Missing Missing (Val ∅).

(** A database whose merged collection answers with the same document
    twice, then with the document without a SKU. *)
Definition repeating_db : Database.t :=
  Database.mk (fun _ _ => Ok [two_shops; two_shops; no_sku_raw]) (fun _ _ _ => Ok [])
              (fun _ => Raise QueryError).

(** A database whose merged collection answers with one document that has
    no SKU. *)
Definition no_sku_db : Database.t :=
  Database.mk (fun _ _ => Ok [no_sku_raw]) (fun _ _ _ => Ok [])
              (fun _ => Raise QueryError).

(** A details document without a price key. *)
Definition bare_doc : ShopDoc.t :=
  ShopDoc.mk Missing (Val "Laptop") (Val "SKU-2") Missing Missing Missing Missing
             Missing (Val "Acme") Missing Missing Missing Missing Missing Missing.


(** A details document on offer: 80 instead of 100, and available. *)
Definition discounted_doc : ShopDoc.t :=
  ShopDoc.mk Missing (Val "Laptop") (Val "SKU-6") (Val (Num 80)) (Val (Num 100))
             (Val true) Missing Missing (Val "Acme") Missing Missing Missing Missing
             Missing Missing.

Definition discounted_product : Product.t :=
  Product.mk "unknown" "Laptop" "ACME" (Num 80) (Some (Num 100)) PLACEHOLDER "Laptop"
    true None [ShopPrice.mk "Mytek" (Num 80) (Some (Num 100)) true None] None.

(** A record whose first shop holds an empty brand and whose second shop
    holds a brand. *)
Definition branded : Raw.t :=
  merged (<["mytek" := Offer.mk (Val (Num 100)) Missing (Val true) Missing Missing
                                (Val "") Missing]>
          (<["spacenet" := Offer.mk (Val (Num 90)) Missing (Val true) Missing Missing
                                    (Val "Asus") Missing]> ∅)).

Definition branded_product : Product.t :=
  Product.mk "unknown" "Laptop" "ASUS" (Num 90) None PLACEHOLDER "Laptop" true (Some "")
    [ShopPrice.mk "Spacenet" (Num 90) None true None;
     ShopPrice.mk "Mytek" (Num 100) None true None]
    None.

(** The pattern of the image that [parse_product] skips. *)
Definition BANNER : string := "livraison-gratuite".

(** The value one shop holds for the specification key [k]. *)
Definition shop_spec (shops_data : gmap string Offer.t) (k : string)
    (shop_name : string) : option string :=
  shop ← shops_data !! shop_name;
  specs ← get (Offer.specifications shop);
  specs !! k.

(** [img] is one of the images the shop [n] of the record holds. *)
Definition shop_image (p : Raw.t) (names : list string) (img : string) : Prop :=
  exists shops_data n shop imgs,
    shops_of p = Ok shops_data /\ n ∈ names /\ shops_data !! n = Some shop /\
    Offer.images shop = Val imgs /\ img ∈ imgs.

(** A record with images: the banner first in the shop that is asked
    first, a photo in the next. *)
Definition with_banner : Raw.t :=
  merged (<["mytek" := Offer.mk (Val (Num 100)) Missing (Val true) Missing
                         (Val ["https://cdn/livraison-gratuite.png"]) Missing
                         (Val {["ram" := "8 GB"]})]>
          (<["tunisianet" := Offer.mk (Val (Num 90)) Missing (Val true) Missing
                         (Val ["https://cdn/photo.png"]) Missing
                         (Val (<["ram" := "16 GB"]> {["cpu" := "i5"]}))]> ∅)).

Definition with_banner_product : Product.t :=
  Product.mk "unknown" "Laptop" "Generic" (Num 90) None "https://cdn/photo.png" "Laptop"
    true (Some "")
    [ShopPrice.mk "Tunisianet" (Num 90) None true None;
     ShopPrice.mk "Mytek" (Num 100) None true None]
    (Some (<["ram" := "8 GB"]> {["cpu" := "i5"]})).

(** The key is missing, null or holds the empty string. *)
Definition blank (f : field string) : Prop := forall s, f = Val s -> s = "".

(** A record filed under a subcategory and a low category. *)
Definition categorised : Raw.t :=
  Raw.mk Missing (Val "Laptop") (Val "SKU-3") (Val "Ultrabooks") (Val "Computers")
         Missing (Val ∅).

Definition categorised_product : Product.t :=
  Product.mk "unknown" "Laptop" "Generic" (Num 0) None PLACEHOLDER "Laptop" false
    (Some "Ultrabooks") [] None.

(** A details document whose price holds null. *)
Definition null_price_doc : ShopDoc.t :=
  ShopDoc.mk Missing (Val "Laptop") (Val "SKU-4") Null Missing Missing Missing
             Missing Missing Missing Missing Missing Missing Missing Missing.

(** The documents of a cursor that carry a SKU, not empty and carried by
    no document before them nor held in [seen]. *)
Fixpoint fresh_docs {D : Type} (sku : D -> field string) (docs : list D)
    (seen : gset string) : list D :=
  match docs with
  | [] => []
  | p :: rest =>
      match fresh_sku (sku p) seen with
      | Some k => p :: fresh_docs sku rest ({[k]} ∪ seen)
      | None => fresh_docs sku rest seen
      end
  end.

(** The results of a search as the loops build them: those of the merged
    documents [ms], then those of the details documents [ss], each with
    the shop it was found under. *)
Definition merged_then_details {P : Type} (to_result : P -> SearchResult.t)
    (parse_merged : Raw.t -> result P)
    (parse_single : ShopDoc.t -> string -> result P)
    (ms : list Raw.t) (ss : list (string * ShopDoc.t))
    (from_merged from_details : list SearchResult.t) : Prop :=
  Forall2 (fun p r => source_result to_result parse_merged parse_single
                                    (FromMerged p) = Ok r) ms from_merged /\
  Forall2 (fun s r => source_result to_result parse_merged parse_single
                                    (FromShop s.1 s.2) = Ok r) ss from_details.

(** A database whose merged collection answers with one document and
    whose details collections raise. *)
Definition merged_only_db : Database.t :=
  Database.mk (fun _ _ => Ok [two_shops]) (fun _ _ _ => Raise QueryError)
              (fun _ => Raise QueryError).

(** A database whose merged collection answers with [two_shops] and whose
    details collection of mytek answers with [discounted_doc]. *)
Definition mixed_db : Database.t :=
  Database.mk (fun _ _ => Ok [two_shops])
              (fun collection_name _ _ =>
                 if String.eqb collection_name "mytek_details" then Ok [discounted_doc]
                 else Ok [])
              (fun _ => Raise QueryError).

(** The loop state after the one document of [merged_only_db]. *)
Definition one_result_state : search_state :=
  ([product_result two_shops_product], {["SKU-1"]} ∪ ∅).

(** Every condition a pipeline matches on. *)
Definition conditions (pipeline : list Stage) : list Cond :=
  concat (omap (fun stage => match stage with
                             | Match conds => Some conds
                             | _ => None
                             end) pipeline).

(** A merged document whose title holds null. *)
Definition null_title_raw : Raw.t :=
  Raw.mk Missing Null (Val "SKU-5") Missing Missing Missing (Val ∅).

(** A database whose aggregation returns a slice with [two_shops] and a
    document whose title holds null. *)
Definition spoiled_db : Database.t :=
  Database.mk (fun _ _ => Ok []) (fun _ _ _ => Ok [])
              (fun _ => Ok [FacetResult.mk (Val [2]) (Val [two_shops; null_title_raw])]).

(** A database whose aggregation returns a slice with [two_shops] out of
    41 matches. *)
Definition paging_db : Database.t :=
  Database.mk (fun _ _ => Ok []) (fun _ _ _ => Ok [])
              (fun _ => Ok [FacetResult.mk (Val [41]) (Val [two_shops])]).

(** The first collection of [colls] that holds a document under [key] is
    that of [shop_name], and the document is [doc]. *)
Definition first_hit (st : Store.t) (key : Key) (colls : list (string * string))
    (shop_name : string) (doc : ShopDoc.t) : Prop :=
  exists pre collection_name post,
    colls = pre ++ (shop_name, collection_name) :: post /\
    Forall (fun c => Store.find_one_details st c.2 key = Ok None) pre /\
    Store.find_one_details st collection_name key = Ok (Some doc).

(** No collection of [colls] holds a document under [key]. *)
Definition no_hit (st : Store.t) (key : Key) (colls : list (string * string)) : Prop :=
  Forall (fun c => Store.find_one_details st c.2 key = Ok None) colls.

(** [y] is the double nearest to a decimal with [n] places that is at
    most half a unit of its last place away from the double [x]; NaN and
    the infinities stay what they are. *)
Definition rounded (n : nat) (x y : number) : Prop :=
  match x with
  | Num v => exists d, has_decimals n d /\
                       (Qabs (d - v) <= 1 # (2 * pow10 n))%Q /\ y = nearest_double d
  | NaN | Inf _ => y = x
  end.

(** [x] is a price of three decimal places: rounding it to three places
    returns it, and when finite it is the double nearest to a decimal with
    at most three places. *)
Definition three_places (x : number) : Prop :=
  round x 3 = x /\
  forall v, x = Num v -> exists d, has_decimals 3 d /\ x = nearest_double d.

(** [x] is the stored number (0 when the key is missing) rounded to two
    decimal places. *)
Definition rounded_from (f : field number) (x : number) : Prop :=
  exists q, get_default f (Num 0) = Some q /\ x = round (float q) 2 /\
            rounded 2 (float q) x.

(** The ranking [x] presents the stored ranking [r]. *)
Definition presents (r : RankingDoc.t) (x : ShopRanking.t) : Prop :=
  get_default (RankingDoc.shop r) "" = Some (ShopRanking.shop x) /\
  get_default (RankingDoc.product_count r) 0 = Some (ShopRanking.product_count x) /\
  rounded_from (RankingDoc.avg_price r) (ShopRanking.avg_price x) /\
  rounded_from (RankingDoc.min_price r) (ShopRanking.min_price x) /\
  rounded_from (RankingDoc.max_price r) (ShopRanking.max_price x).

(** The analytics route: 404 when the service returns [None]. *)
Definition analytics_route (st : Store.t) (category : string)
    : response CategoryAnalytics.t :=
  found_or_404 (Ok (get_category_analytics st category)).

(** A store that holds [bare_doc] in the details collection of spacenet
    only, and one analytics document. *)
Definition details_only_store : Store.t :=
  Store.mk (fun _ => Ok None)
           (fun collection_name _ =>
              if String.eqb collection_name "spacenet_details" then Ok (Some bare_doc)
              else Ok None)
           (fun _ => Ok [Some "Phones"; None; Some ""; Some "Laptops"; Some "Audio"])
           (fun _ _ _ => Ok [categorised; two_shops])
           (fun _ =>
              Ok (Some (AnalyticsDoc.mk (Val "Laptops") (Val "Mytek") (Val (Num 1234.5678))
                          (Val [RankingDoc.mk (Val "Mytek") (Val (Num 1234.5678))
                                              (Val (Num 999.995)) Missing (Val 12)])
                          Missing))).

Definition bare_spacenet_product : Product.t :=
  Product.mk "unknown" "Laptop" "ACME" (Num 0) None PLACEHOLDER "Laptop" false None
    [ShopPrice.mk "Spacenet" (Num 0) None false None] None.

(** A store whose every query raises. *)
Definition failing_store : Store.t :=
  Store.mk (fun _ => Raise QueryError) (fun _ _ => Raise QueryError)
           (fun _ => Raise QueryError) (fun _ _ _ => Raise QueryError)
           (fun _ => Raise QueryError).

(** A store that holds nothing. *)
Definition empty_store : Store.t :=
  Store.mk (fun _ => Ok None) (fun _ _ => Ok None) (fun _ => Ok [])
           (fun _ _ _ => Ok []) (fun _ => Ok None).

(** [a] is before or equal to [b] in the order [sorted] uses. *)
Definition str_le (a b : string) : Prop := String.leb a b = true.

(** [l] lists, in ascending order, the non-empty strings of the answer of
    [distinct], and is empty when the query raised. *)
Definition category_listing (answer : result (list (option string)))
    (l : list string) : Prop :=
  Sorted str_le l /\
  Forall (fun c => c <> "") l /\
  (forall categories, answer = Ok categories ->
     l ≡ₚ truthy_strings categories /\
     forall c, c ∈ l <-> Some c ∈ categories /\ c <> "") /\
  (forall e, answer = Raise e -> l = []).

(** A price of the ranking holds null. *)
Definition null_price (r : RankingDoc.t) : Prop :=
  RankingDoc.avg_price r = Null \/ RankingDoc.min_price r = Null \/
  RankingDoc.max_price r = Null.

(** A store whose analytics document has a ranking with a null price. *)
Definition null_ranking_store : Store.t :=
  Store.mk (fun _ => Ok None) (fun _ _ => Ok None) (fun _ => Ok [])
           (fun _ _ _ => Ok [])
           (fun _ =>
              Ok (Some (AnalyticsDoc.mk (Val "Laptops") (Val "Mytek") (Val (Num 10))
                          (Val [RankingDoc.mk (Val "Mytek") (Val (Num 10)) Null
                                              (Val (Num 12)) (Val 3)])
                          (Val true)))).

Definition search_products_route : Database.t -> string -> Z -> response (list SearchResult.t) :=
  search_route search_products.

Definition search_para_products_route : Database.t -> string -> Z -> response (list SearchResult.t) :=
  search_route search_para_products.

(** What [get_random_products] returns for the two documents
    [details_only_store] samples when asked for the category Laptops. *)
Definition sampled_products : list Product.t :=
  [Product.mk "unknown" "Laptop" "Generic" (Num 0) None PLACEHOLDER "Laptop" false
     (Some "Ultrabooks") [] None;
   Product.mk "unknown" "Laptop" "Generic" (Num 80) None PLACEHOLDER "Laptop" true
     (Some "Laptops")
     [ShopPrice.mk "Spacenet" (Num 80) None false None;
      ShopPrice.mk "Mytek" (Num 100) None true None]
     None].

(** What [get_category_analytics] returns on [details_only_store]. *)
Definition laptop_analytics : CategoryAnalytics.t :=
  CategoryAnalytics.mk "Laptops" "Mytek" (float (Num 1234.57))
    [ShopRanking.mk "Mytek" (float (Num 1234.57)) (Num 1000) (Num 0) 12] true.

(** * Properties *)

(** ** Results, keys and numbers *)

Lemma bind_Ok_inv {A B : Type} (r : result A) (k : A -> result B) (b : B) :
  r ≫= k = Ok b -> exists a, r = Ok a /\ k a = Ok b.
Proof. destruct r as [a|e]; simpl; intros H; [eauto | discriminate]. Qed.

Ltac inv_bind H :=
  let a := fresh "x" in
  let Ha := fresh "Hx" in
  apply bind_Ok_inv in H; destruct H as (a & Ha & H).

Lemma pow2_pos (e : Z) : (0 < pow2 e)%Q.
Proof. apply Qpower_0_lt. reflexivity. Qed.

Lemma pow2_add (a b : Z) : (pow2 (a + b) == pow2 a * pow2 b)%Q.
Proof. apply Qpower_plus. discriminate. Qed.

Lemma pow2_le (a b : Z) : a <= b -> (pow2 a <= pow2 b)%Q.
Proof. intros H. apply Qpower_le_compat_l; [assumption|]. discriminate. Qed.

Lemma pow2_Z (n : Z) : 0 <= n -> (pow2 n == inject_Z (2 ^ n))%Q.
Proof. intros H. unfold pow2. now rewrite Zpower_Qpower. Qed.

Lemma pow2_succ (e : Z) : (pow2 (e + 1) == 2 * pow2 e)%Q.
Proof. rewrite pow2_add. change (pow2 1) with 2%Q. ring. Qed.

Lemma round_half_even_comp (q q' : Q) :
  (q == q')%Q -> round_half_even q = round_half_even q'.
Proof.
  intros Heq. unfold round_half_even.
  rewrite (Qfloor_comp _ _ Heq).
  replace ((q - inject_Z (Qfloor q') ?= 1 # 2)%Q)
    with ((q' - inject_Z (Qfloor q') ?= 1 # 2)%Q); [reflexivity|].
  apply Qcompare_comp; [|reflexivity]. now rewrite Heq.
Qed.

Lemma round_half_even_close (q : Q) :
  (Qabs (inject_Z (round_half_even q) - q) <= 1 # 2)%Q.
Proof.
  unfold round_half_even.
  pose proof (Qfloor_le q) as Hlo. pose proof (Qlt_floor q) as Hhi.
  rewrite inject_Z_plus in Hhi. change (inject_Z 1) with 1%Q in Hhi.
  apply Qabs_Qle_condition.
  destruct (Qcompare_spec (q - inject_Z (Qfloor q)) (1 # 2)) as [He|Hl|Hg].
  - destruct (Z.even (Qfloor q)); rewrite ?inject_Z_plus;
      change (inject_Z 1) with 1%Q; split; lra.
  - split; lra.
  - rewrite inject_Z_plus. change (inject_Z 1) with 1%Q. split; lra.
Qed.

(** The integer strictly less than a half away is the one chosen. *)
Lemma round_half_even_unique (q : Q) (k : Z) :
  (Qabs (q - inject_Z k) < 1 # 2)%Q -> round_half_even q = k.
Proof.
  intros H. apply Qabs_Qlt_condition in H. destruct H as [Hlo Hhi].
  pose proof (round_half_even_close q) as Hc.
  apply Qabs_Qle_condition in Hc. destruct Hc as [Hc1 Hc2].
  set (m := round_half_even q) in *.
  assert (Hd : (-1 < inject_Z m - inject_Z k < 1)%Q) by (split; lra).
  destruct Hd as [Hd1 Hd2]. unfold Qminus in Hd1, Hd2.
  rewrite <- inject_Z_opp, <- inject_Z_plus in Hd1, Hd2.
  change (-1)%Q with (inject_Z (-1)) in Hd1. change 1%Q with (inject_Z 1) in Hd2.
  rewrite <- Zlt_Qlt in Hd1, Hd2. lia.
Qed.

Lemma round_half_even_Z (k : Z) : round_half_even (inject_Z k) = k.
Proof.
  apply round_half_even_unique. apply Qabs_Qlt_condition. split; lra.
Qed.

Lemma round_half_even_nonneg (q : Q) : (0 <= q)%Q -> 0 <= round_half_even q.
Proof.
  intros H. pose proof (round_half_even_close q) as Hc.
  apply Qabs_Qle_condition in Hc. destruct Hc as [Hc1 Hc2].
  assert (Hm : (inject_Z (-1) < inject_Z (round_half_even q))%Q).
  { change (inject_Z (-1)) with (-1)%Q. lra. }
  rewrite <- Zlt_Qlt in Hm. lia.
Qed.

Lemma round_half_even_le (q : Q) (k : Z) :
  (q <= inject_Z k)%Q -> round_half_even q <= k.
Proof.
  intros H. pose proof (round_half_even_close q) as Hc.
  apply Qabs_Qle_condition in Hc. destruct Hc as [Hc1 Hc2].
  assert (Hm : (inject_Z (round_half_even q) < inject_Z (k + 1))%Q).
  { rewrite inject_Z_plus. change (inject_Z 1) with 1%Q. lra. }
  rewrite <- Zlt_Qlt in Hm. lia.
Qed.

Lemma round_half_even_ge (q : Q) (k : Z) :
  (inject_Z k <= q)%Q -> k <= round_half_even q.
Proof.
  intros H. pose proof (round_half_even_close q) as Hc.
  apply Qabs_Qle_condition in Hc. destruct Hc as [Hc1 Hc2].
  assert (Hm : (inject_Z (k - 1) < inject_Z (round_half_even q))%Q).
  { unfold Z.sub. rewrite inject_Z_plus, inject_Z_opp. change (inject_Z 1) with 1%Q. lra. }
  rewrite <- Zlt_Qlt in Hm. lia.
Qed.

Lemma pow2_log2 (n : Z) :
  0 < n -> (pow2 (Z.log2 n) <= inject_Z n < pow2 (Z.log2 n + 1))%Q.
Proof.
  intros H. pose proof (Z.log2_nonneg n) as Hl.
  destruct (Z.log2_spec n H) as [H1 H2].
  rewrite !pow2_Z by lia. replace (Z.succ (Z.log2 n)) with (Z.log2 n + 1) in H2 by lia.
  split; [now rewrite <- Zle_Qle | now rewrite <- Zlt_Qlt].
Qed.

Lemma ilog2_spec (a : Q) :
  (0 < a)%Q -> (pow2 (ilog2 a) <= a < pow2 (ilog2 a + 1))%Q.
Proof.
  intros Ha. destruct a as [n d].
  assert (Hn : 0 < n) by (unfold Qlt in Ha; simpl in Ha; lia).
  unfold ilog2. cbn [Qnum Qden].
  set (ln := Z.log2 n). set (ld := Z.log2 (Z.pos d)).
  destruct (pow2_log2 n Hn) as [Hn1 Hn2]. fold ln in Hn1, Hn2.
  destruct (pow2_log2 (Z.pos d) eq_refl) as [Hd1 Hd2]. fold ld in Hd1, Hd2.
  assert (E : (inject_Z n == (n # d) * inject_Z (Z.pos d))%Q).
  { unfold Qeq, Qmult, inject_Z. simpl. lia. }
  pose proof (pow2_pos ld) as Pd. pose proof (pow2_pos (ln - ld)) as Pk.
  assert (E1 : (pow2 (ln + 1) == pow2 (ln - ld + 1) * pow2 ld)%Q).
  { rewrite <- pow2_add. now replace (ln - ld + 1 + ld) with (ln + 1) by lia. }
  assert (E2 : (pow2 ln == pow2 (ln - ld - 1) * pow2 (ld + 1))%Q).
  { rewrite <- pow2_add. now replace (ln - ld - 1 + (ld + 1)) with ln by lia. }
  pose proof (pow2_pos (ln - ld - 1)) as Pk1. pose proof (pow2_pos (ln - ld + 1)) as Pk2.
  assert (Hd0 : (0 < inject_Z (Z.pos d))%Q) by reflexivity.
  assert (Hup : (n # d < pow2 (ln - ld + 1))%Q).
  { apply (Qmult_lt_r _ _ (pow2 ld) Pd). rewrite <- E1.
    apply Qle_lt_trans with ((n # d) * inject_Z (Z.pos d))%Q; [|now rewrite <- E].
    apply Qmult_le_l; assumption. }
  assert (Hlo : (pow2 (ln - ld - 1) < n # d)%Q).
  { apply (Qmult_lt_r _ _ (inject_Z (Z.pos d)) Hd0). rewrite <- E.
    apply Qlt_le_trans with (pow2 ln); [|assumption].
    rewrite E2. apply Qmult_lt_l; assumption. }
  destruct (Qle_bool (pow2 (ln - ld)) (n # d)) eqn:T.
  - apply Qle_bool_iff in T. split; assumption.
  - replace (ln - ld - 1 + 1) with (ln - ld) by lia. split; [now apply Qlt_le_weak|].
    apply Qnot_le_lt. intros Hc. apply Qle_bool_iff in Hc. congruence.
Qed.

Lemma ilog2_unique (a : Q) (e : Z) :
  (pow2 e <= a < pow2 (e + 1))%Q -> ilog2 a = e.
Proof.
  intros [H1 H2].
  assert (Ha : (0 < a)%Q) by (apply Qlt_le_trans with (pow2 e); [apply pow2_pos | assumption]).
  destruct (ilog2_spec a Ha) as [S1 S2].
  assert (L1 : ilog2 a < e + 1).
  { apply (Qpower_lt_compat_l_inv 2); [|reflexivity].
    apply Qle_lt_trans with a; assumption. }
  assert (L2 : e < ilog2 a + 1).
  { apply (Qpower_lt_compat_l_inv 2); [|reflexivity].
    apply Qle_lt_trans with a; assumption. }
  lia.
Qed.

(** ** The nearest double *)

Lemma ulp_exponent_ge (a : Q) : -1074 <= ulp_exponent a.
Proof. unfold ulp_exponent. lia. Qed.

Lemma Qdiv_pow2 (a : Q) (e : Z) : (a / pow2 e * pow2 e == a)%Q.
Proof. pose proof (pow2_pos e). field. lra. Qed.

Lemma double_abs_close (a : Q) :
  (Qabs (double_abs a - a) <= pow2 (ulp_exponent a - 1))%Q.
Proof.
  unfold double_abs. set (e := ulp_exponent a).
  pose proof (pow2_pos e) as Pe.
  pose proof (round_half_even_close (a / pow2 e)) as Hc.
  set (m := round_half_even (a / pow2 e)) in *.
  assert (E : (inject_Z m * pow2 e - a == (inject_Z m - a / pow2 e) * pow2 e)%Q).
  { field. lra. }
  rewrite E, Qabs_Qmult, (Qabs_pos (pow2 e)) by lra.
  assert (E2 : (pow2 (e - 1) == (1 # 2) * pow2 e)%Q).
  { replace e with (e - 1 + 1) at 2 by lia. rewrite pow2_succ. field. }
  rewrite E2. apply Qmult_le_compat_r; [assumption | lra].
Qed.

Lemma double_abs_nonneg (a : Q) : (0 <= a)%Q -> (0 <= double_abs a)%Q.
Proof.
  intros Ha. unfold double_abs. pose proof (pow2_pos (ulp_exponent a)) as Pe.
  apply Qmult_le_0_compat; [|lra].
  change 0%Q with (inject_Z 0). rewrite <- Zle_Qle.
  apply round_half_even_nonneg. apply Qle_shift_div_l; [assumption|lra].
Qed.

Lemma scaled_lt_pow2_53 (a : Q) :
  (0 < a)%Q -> (a / pow2 (ulp_exponent a) < inject_Z (2 ^ 53))%Q.
Proof.
  intros Ha. destruct (ilog2_spec a Ha) as [_ S2].
  set (e := ulp_exponent a). pose proof (pow2_pos e) as Pe.
  apply Qlt_shift_div_r; [assumption|].
  rewrite <- pow2_Z, <- pow2_add by lia.
  apply Qlt_le_trans with (pow2 (ilog2 a + 1)); [assumption|].
  apply pow2_le. unfold e, ulp_exponent. lia.
Qed.

Lemma double_abs_on_grid (a : Q) : (0 <= a)%Q -> on_grid (double_abs a).
Proof.
  intros Ha. exists (round_half_even (a / pow2 (ulp_exponent a))), (ulp_exponent a).
  split; [|split; [apply ulp_exponent_ge | reflexivity]].
  pose proof (pow2_pos (ulp_exponent a)) as Pe.
  split.
  - apply round_half_even_nonneg. apply Qle_shift_div_l; [assumption|lra].
  - apply round_half_even_le.
    destruct (Qle_lt_or_eq _ _ Ha) as [Hpos|Hz].
    + apply Qlt_le_weak. now apply scaled_lt_pow2_53.
    + generalize (pow2 (ulp_exponent a)). intros p.
      rewrite <- Hz. unfold Qdiv. rewrite Qmult_0_l. easy.
Qed.

Lemma ilog2_scaled (m e : Z) :
  0 < m -> ilog2 (inject_Z m * pow2 e) = Z.log2 m + e.
Proof.
  intros Hm. apply ilog2_unique.
  destruct (pow2_log2 m Hm) as [H1 H2]. pose proof (pow2_pos e) as Pe.
  replace (Z.log2 m + e + 1) with (Z.log2 m + 1 + e) by lia.
  rewrite (pow2_add (Z.log2 m) e), (pow2_add (Z.log2 m + 1) e). split.
  - apply Qmult_le_compat_r; [assumption | lra].
  - now apply (proj2 (Qmult_lt_r _ _ _ Pe)).
Qed.

Lemma ilog2_comp (a a' : Q) : (0 < a)%Q -> (a == a')%Q -> ilog2 a' = ilog2 a.
Proof.
  intros Ha E. apply ilog2_unique. rewrite <- E. now apply ilog2_spec.
Qed.

Lemma double_abs_zero (a : Q) : (a == 0)%Q -> (double_abs a == 0)%Q.
Proof.
  intros E. unfold double_abs. generalize (ulp_exponent a). intros e.
  assert (E' : (a / pow2 e == inject_Z 0)%Q).
  { rewrite E. unfold Qdiv. now rewrite Qmult_0_l. }
  rewrite (round_half_even_comp _ _ E'), round_half_even_Z.
  change (inject_Z 0) with 0%Q. ring.
Qed.

Lemma double_abs_comp (a a' : Q) :
  (0 <= a)%Q -> (a == a')%Q -> (double_abs a' == double_abs a)%Q.
Proof.
  intros Ha E. destruct (Qle_lt_or_eq _ _ Ha) as [Hpos|Hz].
  - unfold double_abs, ulp_exponent. rewrite (ilog2_comp a a' Hpos E).
    set (e := Z.max (ilog2 a - 52) (-1074)).
    assert (E' : (a' / pow2 e == a / pow2 e)%Q) by now rewrite E.
    now rewrite (round_half_even_comp _ _ E').
  - rewrite (double_abs_zero a) by now symmetry.
    apply double_abs_zero. rewrite <- E. now symmetry.
Qed.

(** A magnitude a double can have is its own nearest double. *)
Lemma double_abs_fix (a : Q) : on_grid a -> (double_abs a == a)%Q.
Proof.
  intros (m & e & [Hm0 Hm] & He & E).
  destruct (Z.eq_dec m 0) as [->|Hne].
  { assert (Ez : (a == 0)%Q) by (rewrite E; change (inject_Z 0) with 0%Q; ring).
    rewrite (double_abs_zero a Ez). now symmetry. }
  assert (Hpos : 0 < m) by lia.
  pose proof (pow2_pos e) as Pe.
  assert (Ha : (0 < inject_Z m * pow2 e)%Q).
  { apply Qmult_lt_0_compat; [|assumption]. change 0%Q with (inject_Z 0).
    now rewrite <- Zlt_Qlt. }
  assert (H0 : (0 <= inject_Z m * pow2 e)%Q) by lra.
  rewrite (double_abs_comp _ a H0) by (now symmetry).
  transitivity (inject_Z m * pow2 e)%Q; [|now symmetry].
  clear E a. unfold double_abs, ulp_exponent. rewrite (ilog2_scaled m e Hpos).
  set (e' := Z.max (Z.log2 m + e - 52) (-1074)). pose proof (pow2_pos e') as Pe'.
  assert (Hl : Z.log2 m <= 53).
  { rewrite <- (Z.log2_pow2 53) by lia. now apply Z.log2_le_mono. }
  assert (Hz : exists z, (inject_Z m * pow2 e / pow2 e' == inject_Z z)%Q).
  { destruct (Z.eq_dec (Z.log2 m) 53) as [E53|N53].
    - assert (Em : m = 2 ^ 53).
      { destruct (Z.log2_spec m Hpos) as [L1 _]. rewrite E53 in L1. lia. }
      exists (2 ^ 52). unfold e'. rewrite E53.
      replace (Z.max (53 + e - 52) (-1074)) with (e + 1) by lia.
      rewrite pow2_succ. subst m. change (inject_Z (2 ^ 53)) with (2 * inject_Z (2 ^ 52))%Q.
      field. lra.
    - exists (m * 2 ^ (e - e')).
      assert (Hle : e' <= e) by (unfold e'; lia).
      rewrite inject_Z_mult, <- pow2_Z by lia.
      replace e with (e - e' + e') at 1 by lia. rewrite pow2_add. field. lra. }
  destruct Hz as (z & Ez).
  rewrite (round_half_even_comp _ _ Ez), round_half_even_Z, <- Ez.
  apply Qdiv_pow2.
Qed.

Lemma signed_abs (q : Q) : (signed (Qnum q <? 0) (Qabs q) == q)%Q.
Proof.
  destruct q as [n d]. unfold signed, Qabs. cbn [Qnum].
  destruct (Z.ltb_spec n 0); unfold Qeq, Qopp; cbn [Qnum Qden]; lia.
Qed.

Lemma Qabs_signed (s : bool) (r : Q) : (0 <= r)%Q -> (Qabs (signed s r) == r)%Q.
Proof.
  intros Hr. destruct s; unfold signed; [rewrite Qabs_opp|]; now apply Qabs_pos.
Qed.

Lemma Qred_Qred (q : Q) : Qred (Qred q) = Qred q.
Proof. apply Qred_complete, Qred_correct. Qed.

Lemma nearest_double_comp (q q' : Q) :
  (q == q')%Q -> nearest_double q = nearest_double q'.
Proof. intros E. unfold nearest_double. now rewrite (Qred_complete _ _ E). Qed.

(** What [nearest_double] returns when it returns a finite number. *)
Lemma nearest_double_Num (q v : Q) :
  nearest_double q = Num v ->
  (double_abs (Qabs (Qred q)) < pow2 1024)%Q /\
  v = Qred (signed (Qnum (Qred q) <? 0) (double_abs (Qabs (Qred q)))).
Proof.
  unfold nearest_double.
  destruct (Qle_bool (pow2 1024) (double_abs (Qabs (Qred q)))) eqn:T; [discriminate|].
  intros [= <-]. split; [|reflexivity].
  apply Qnot_le_lt. intros Hc. apply Qle_bool_iff in Hc. congruence.
Qed.

Lemma nearest_double_of_grid (v : Q) :
  on_grid (Qabs v) -> (Qabs v < pow2 1024)%Q -> nearest_double v = Num (Qred v).
Proof.
  intros Hg Hlt. unfold nearest_double.
  assert (Ea : (Qabs (Qred v) == Qabs v)%Q) by now rewrite Qred_correct.
  assert (Er : (double_abs (Qabs (Qred v)) == Qabs v)%Q).
  { rewrite (double_abs_comp (Qabs v)); [now apply double_abs_fix | apply Qabs_nonneg |].
    now symmetry. }
  destruct (Qle_bool (pow2 1024) (double_abs (Qabs (Qred v)))) eqn:T.
  - apply Qle_bool_iff in T. rewrite Er in T. lra.
  - f_equal. apply Qred_complete.
    transitivity (signed (Qnum (Qred v) <? 0) (Qabs (Qred v))).
    + destruct (Qnum (Qred v) <? 0); unfold signed; now rewrite Er, Ea.
    + rewrite signed_abs. apply Qred_correct.
Qed.

Lemma nearest_double_grid (q v : Q) :
  nearest_double q = Num v ->
  Qred v = v /\ on_grid (Qabs v) /\ (Qabs v < pow2 1024)%Q.
Proof.
  intros H. apply nearest_double_Num in H as [Hlt ->].
  set (a := Qabs (Qred q)) in *.
  pose proof (double_abs_nonneg a (Qabs_nonneg _)) as Hr.
  assert (Ea : (Qabs (Qred (signed (Qnum (Qred q) <? 0) (double_abs a))) == double_abs a)%Q).
  { rewrite Qred_correct. now apply Qabs_signed. }
  split; [apply Qred_Qred|]. split.
  - destruct (double_abs_on_grid a (Qabs_nonneg _)) as (m & e & Hm & He & E).
    exists m, e. split; [assumption|]. split; [assumption|]. now rewrite Ea.
  - now rewrite Ea.
Qed.

(** The nearest double of a double is the double itself. *)
Lemma nearest_double_idem (q v : Q) :
  nearest_double q = Num v -> nearest_double v = Num v.
Proof.
  intros H. apply nearest_double_grid in H as (E & Hg & Hlt).
  rewrite <- E at 2. now apply nearest_double_of_grid.
Qed.

Lemma float_idem (x : number) : float (float x) = float x.
Proof.
  destruct x as [q| |b]; try reflexivity. simpl.
  destruct (nearest_double q) as [v| |b] eqn:E; try reflexivity.
  simpl. now apply nearest_double_idem in E.
Qed.

(** ** [round] *)

Lemma decimal_round_close (q : Q) (n : nat) :
  (Qabs (decimal_round q n - q) <= 1 # (2 * pow10 n))%Q.
Proof.
  unfold decimal_round.
  set (d := pow10 n). set (k := round_half_even (q * inject_Z (Z.pos d))).
  assert (E : ((k # d) - q == (inject_Z k - q * inject_Z (Z.pos d)) * (1 # d))%Q).
  { unfold Qeq, Qminus, Qplus, Qmult, Qopp, inject_Z. simpl. lia. }
  rewrite E, Qabs_Qmult.
  rewrite (Qabs_pos (1 # d)) by easy.
  change (1 # 2 * d)%Q with ((1 # 2) * (1 # d))%Q.
  apply Qmult_le_compat_r; [apply round_half_even_close | easy].
Qed.

Lemma decimal_round_Z (z : Z) (v : Q) (n : nat) :
  (v == inject_Z z)%Q -> (decimal_round v n == v)%Q.
Proof.
  intros E. unfold decimal_round.
  assert (E' : (v * inject_Z (Z.pos (pow10 n)) == inject_Z (z * Z.pos (pow10 n)))%Q).
  { rewrite E. now rewrite inject_Z_mult. }
  rewrite (round_half_even_comp _ _ E'), round_half_even_Z, E.
  unfold Qeq, inject_Z. simpl. lia.
Qed.

Lemma nearest_double_close (q v : Q) :
  nearest_double q = Num v ->
  (Qabs (v - q) <= pow2 (ulp_exponent (Qabs (Qred q)) - 1))%Q.
Proof.
  intros H. apply nearest_double_Num in H as [_ ->].
  set (q0 := Qred q). set (a := Qabs q0). set (s := Qnum q0 <? 0).
  assert (Eq : (q == signed s a)%Q).
  { unfold s, a. rewrite signed_abs. unfold q0. now rewrite Qred_correct. }
  assert (E : (Qred (signed s (double_abs a)) - q == signed s (double_abs a - a))%Q).
  { rewrite Qred_correct, Eq at 1. destruct s; unfold signed; ring. }
  rewrite E.
  assert (Es : (Qabs (signed s (double_abs a - a)) == Qabs (double_abs a - a))%Q).
  { destruct s; unfold signed; [apply Qabs_opp | reflexivity]. }
  rewrite Es. apply double_abs_close.
Qed.

Lemma Qabs_diff_abs (x y : Q) : (Qabs (Qabs x - Qabs y) <= Qabs (x - y))%Q.
Proof.
  apply Qabs_Qle_condition. split.
  - pose proof (Qabs_triangle_reverse y x) as H.
    assert (E : (Qabs (y - x) == Qabs (x - y))%Q).
    { rewrite <- Qabs_opp. apply Qabs_wd. ring. }
    rewrite E in H. lra.
  - apply Qabs_triangle_reverse.
Qed.

Lemma Qred_neg (q : Q) : (Qnum (Qred q) <? 0) = (Qnum q <? 0).
Proof.
  pose proof (Qred_correct q) as E. unfold Qeq in E.
  destruct (Z.ltb_spec (Qnum (Qred q)) 0), (Z.ltb_spec (Qnum q) 0); try reflexivity; nia.
Qed.

(** Rounding to three places a double that lies within half a last place
    of a three-place decimal gives back that decimal when doubles are
    dense. *)
Lemma decimal_round_back (k : Z) (v : Q) :
  (Qabs (v - (k # 1000)) <= pow2 (-11))%Q -> decimal_round v 3 = (k # 1000)%Q.
Proof.
  intros H. unfold decimal_round. f_equal.
  apply round_half_even_unique.
  change (Z.pos (pow10 3)) with 1000.
  assert (E : (v * inject_Z 1000 - inject_Z k == (v - (k # 1000)) * inject_Z 1000)%Q).
  { unfold Qeq, Qminus, Qplus, Qmult, Qopp, inject_Z. simpl. lia. }
  rewrite E, Qabs_Qmult. change (Qabs (inject_Z 1000)) with (inject_Z 1000).
  change (pow2 (-11)) with (1 # 2048)%Q in H.
  apply Qle_lt_trans with ((1 # 2048) * inject_Z 1000)%Q; [|reflexivity].
  apply Qmult_le_compat_r; [assumption | easy].
Qed.

(** The double nearest to a three-place decimal rounds back to a decimal
    that has the same nearest double: where doubles are dense the decimal
    itself, where they are sparse one within half a last place. *)
Lemma round_back_3 (k : Z) (v : Q) :
  nearest_double (k # 1000) = Num v -> nearest_double (decimal_round v 3) = Num v.
Proof.
  intros H.
  pose proof (nearest_double_close _ _ H) as Hclose.
  pose proof (nearest_double_idem _ _ H) as Hidem.
  pose proof (nearest_double_Num _ _ H) as [Hlt Hv].
  set (q0 := Qred (k # 1000)) in *. set (a := Qabs q0) in *.
  set (s := Qnum q0 <? 0) in *.
  destruct (Z_le_gt_dec (ulp_exponent a) (-10)) as [Hdense|Hsparse].
  { rewrite (decimal_round_back k v); [assumption|].
    apply Qle_trans with (1 := Hclose). apply pow2_le. lia. }
  assert (Ha : (0 < a)%Q).
  { destruct (Qlt_le_dec 0 a) as [Hp|Hn]; [assumption|exfalso].
    assert (E0 : (q0 == 0)%Q).
    { pose proof (Qabs_nonneg q0). fold a in H0.
      assert (Ea : (Qabs q0 == 0)%Q) by (fold a; lra).
      destruct (Qabs_Qle_condition q0 0) as [Hc _].
      destruct Hc as [Hc1 Hc2]; [rewrite Ea; apply Qle_refl|]. lra. }
    apply Qred_complete in E0. unfold q0 in E0 at 1. rewrite Qred_Qred in E0.
    fold q0 in E0. unfold a in Hsparse. rewrite E0 in Hsparse.
    vm_compute in Hsparse. discriminate. }
  destruct (ilog2_spec a Ha) as [S1 S2]. set (e := ilog2 a) in *.
  assert (Eu : ulp_exponent a = e - 52) by (unfold ulp_exponent in *; fold e in Hsparse |- *; lia).
  assert (He : -9 <= e - 52) by lia.
  pose proof (pow2_pos (e - 52)) as Pu.
  assert (Pu9 : (1 # 512 <= pow2 (e - 52))%Q).
  { change (1 # 512)%Q with (pow2 (-9)). now apply pow2_le. }
  set (m := round_half_even (a / pow2 (e - 52))).
  assert (ER : double_abs a = (inject_Z m * pow2 (e - 52))%Q).
  { unfold double_abs. now rewrite Eu. }
  assert (Hm1 : 2 ^ 52 <= m).
  { apply round_half_even_ge. apply Qle_shift_div_l; [assumption|].
    rewrite <- pow2_Z, <- pow2_add by lia. now replace (52 + (e - 52)) with e by lia. }
  assert (Hm2 : m <= 2 ^ 53).
  { apply round_half_even_le. apply Qlt_le_weak.
    pose proof (scaled_lt_pow2_53 a Ha) as Hs. now rewrite Eu in Hs. }
  assert (Ev : (v == signed s (double_abs a))%Q) by (rewrite Hv; apply Qred_correct).
  assert (E52 : (inject_Z (2 ^ 52) * pow2 (e - 52) == pow2 e)%Q).
  { rewrite <- pow2_Z, <- pow2_add by lia. now replace (52 + (e - 52)) with e by lia. }
  assert (E53 : (inject_Z (2 ^ 53) * pow2 (e - 52) == pow2 (e + 1))%Q).
  { rewrite <- pow2_Z, <- pow2_add by lia. now replace (53 + (e - 52)) with (e + 1) by lia. }
  destruct (Z.eq_dec m (2 ^ 52)) as [Em|Nm52]; [|destruct (Z.eq_dec m (2 ^ 53)) as [Em|Nm53]].
  - (* the double is a power of two, hence an integer *)
    assert (Ez : (v == inject_Z (if s then - 2 ^ e else 2 ^ e))%Q).
    { rewrite Ev, ER, Em. clearbody s.
      destruct s; unfold signed; rewrite ?inject_Z_opp, E52, pow2_Z by lia; reflexivity. }
    rewrite (nearest_double_comp _ v); [assumption|]. now apply (decimal_round_Z _ _ _ Ez).
  - assert (Ez : (v == inject_Z (if s then - 2 ^ (e + 1) else 2 ^ (e + 1)))%Q).
    { rewrite Ev, ER, Em. clearbody s.
      destruct s; unfold signed; rewrite ?inject_Z_opp, E53, pow2_Z by lia; reflexivity. }
    rewrite (nearest_double_comp _ v); [assumption|]. now apply (decimal_round_Z _ _ _ Ez).
  - (* the double is inside its binade: the decimal stays within half a
       last place of it *)
    pose proof (decimal_round_close v 3) as Hd.
    change (1 # 2 * pow10 3)%Q with (1 # 2000)%Q in Hd.
    set (q' := decimal_round v 3) in *.
    assert (HR1 : (pow2 e + pow2 (e - 52) <= double_abs a)%Q).
    { rewrite ER, <- E52.
      assert (Es : (inject_Z (2 ^ 52) * pow2 (e - 52) + pow2 (e - 52) ==
                    inject_Z (2 ^ 52 + 1) * pow2 (e - 52))%Q)
        by (rewrite inject_Z_plus; change (inject_Z 1) with 1%Q; ring).
      rewrite Es.
      apply Qmult_le_compat_r; [|lra]. rewrite <- Zle_Qle. lia. }
    assert (HR2 : (double_abs a <= pow2 (e + 1) - pow2 (e - 52))%Q).
    { rewrite ER, <- E53.
      assert (Es : (inject_Z (2 ^ 53) * pow2 (e - 52) - pow2 (e - 52) ==
                    inject_Z (2 ^ 53 - 1) * pow2 (e - 52))%Q)
        by (unfold Z.sub; rewrite inject_Z_plus, inject_Z_opp;
            change (inject_Z 1) with 1%Q; ring).
      rewrite Es.
      apply Qmult_le_compat_r; [|lra]. rewrite <- Zle_Qle. lia. }
    assert (HR0 : (0 <= double_abs a)%Q) by (apply double_abs_nonneg; lra).
    assert (Eav : (Qabs v == double_abs a)%Q).
    { rewrite Ev. now apply Qabs_signed. }
    set (a' := Qabs (Qred q')).
    assert (Hnear : (Qabs (a' - double_abs a) <= 1 # 2000)%Q).
    { unfold a'. rewrite <- Eav.
      assert (Eq' : (Qabs (Qred q') == Qabs q')%Q) by now rewrite Qred_correct.
      rewrite Eq'. apply Qle_trans with (2 := Hd). apply Qabs_diff_abs. }
    apply Qabs_Qle_condition in Hnear as [Hn1 Hn2].
    assert (Ee' : ilog2 a' = e) by (apply ilog2_unique; split; lra).
    assert (Eu' : ulp_exponent a' = e - 52) by (unfold ulp_exponent; rewrite Ee'; lia).
    assert (Em' : round_half_even (a' / pow2 (e - 52)) = m).
    { apply round_half_even_unique.
      assert (Ed : (a' / pow2 (e - 52) - inject_Z m ==
                    (a' - double_abs a) / pow2 (e - 52))%Q).
      { rewrite ER. field. lra. }
      rewrite Ed. unfold Qdiv. rewrite Qabs_Qmult.
      rewrite (Qabs_pos (/ pow2 (e - 52))) by (apply Qinv_le_0_compat; lra).
      apply Qlt_shift_div_r; [assumption|].
      apply Qle_lt_trans with (1 # 2000)%Q; [apply Qabs_Qle_condition; split; lra | lra]. }
    assert (ER' : double_abs a' = double_abs a).
    { rewrite ER. unfold double_abs. now rewrite Eu', Em'. }
    assert (Es : (Qnum (Qred q') <? 0) = s).
    { assert (P1 : (1 <= pow2 e)%Q).
      { change 1%Q with (pow2 0). apply pow2_le. lia. }
      apply Qabs_Qle_condition in Hd as [Hd1 Hd2].
      rewrite Qred_neg. clearbody s.
      destruct s; unfold signed in Ev.
      - assert (Hq : (q' < 0)%Q) by lra.
        unfold Qlt in Hq. cbn [Qnum Qden] in Hq. apply Z.ltb_lt. lia.
      - assert (Hq : (0 < q')%Q) by lra.
        unfold Qlt in Hq. cbn [Qnum Qden] in Hq. apply Z.ltb_ge. lia. }
    unfold nearest_double. fold a'. rewrite ER', Es.
    destruct (Qle_bool (pow2 1024) (double_abs a)) eqn:T.
    + apply Qle_bool_iff in T. lra.
    + now rewrite Hv.
Qed.

(** [round(round(x, 3), 3) == round(x, 3)] on every double. *)
Lemma round_3_idempotent (x : number) : round (round x 3) 3 = round x 3.
Proof.
  destruct x as [q| |b]; try reflexivity. simpl.
  destruct (nearest_double (decimal_round q 3)) as [v| |b] eqn:E; try reflexivity.
  simpl. now apply (round_back_3 (round_half_even (q * inject_Z (Z.pos (pow10 3))))).
Qed.

(** What Python prints: [float(9007199254740993)] is 9007199254740992.0,
    [round(2.2225, 3)] is 2.223, [round(10.0005, 3)] is 10.001,
    [round(2.675, 2)] is 2.67 and [round(999.995, 2)] is 1000.0. *)
Lemma round_examples :
  float (Num 9007199254740993) = Num 9007199254740992 /\
  round (float (Num 2.2225)) 3 = float (Num 2.223) /\
  round (float (Num 10.0005)) 3 = float (Num 10.001) /\
  round (float (Num 2.675)) 2 = float (Num 2.67) /\
  round (float (Num 999.995)) 2 = Num 1000.
Proof. repeat split; vm_compute; reflexivity. Qed.

Lemma round_rounded (x : number) (n : nat) : rounded n x (round x n).
Proof.
  destruct x as [v| |b]; simpl; [|reflexivity..].
  exists (decimal_round v n). split; [|split; [apply decimal_round_close | reflexivity]].
  eexists. reflexivity.
Qed.

(** ** Truth values and order of numbers *)

Lemma float_Num_canonical (x : number) (v : Q) : float x = Num v -> Qred v = v.
Proof.
  destruct x as [q| |b]; simpl; [|discriminate..].
  intros H. now apply nearest_double_grid in H as [E _].
Qed.

Lemma truthy_number_spec (x : number) : truthy x = true <-> nonzero x.
Proof.
  unfold truthy, truthy_number, nonzero.
  destruct (float x) as [v| |b] eqn:E; [|split; [discriminate | reflexivity]..].
  apply float_Num_canonical in E. rewrite negb_true_iff. split.
  - intros Hb [= Hv]. subst v. discriminate.
  - intros Hne. destruct (Qeq_bool v 0) eqn:T; [|reflexivity].
    apply Qeq_bool_iff, Qred_complete in T. rewrite E in T. subst v. now destruct Hne.
Qed.

Lemma truthy_float (x : number) : truthy (float x) = truthy x.
Proof. unfold truthy, truthy_number. now rewrite float_idem. Qed.

Lemma nonzero_float (x : number) : nonzero (float x) <-> nonzero x.
Proof. unfold nonzero. now rewrite float_idem. Qed.

Lemma num_le_not_nan (x y : number) :
  num_le x y = true -> is_nan x = false /\ is_nan y = false.
Proof. destruct x as [a| |[|]], y as [b| |[|]]; simpl; try discriminate; auto. Qed.

Lemma Qle_bool_false (a b : Q) : Qle_bool a b = false -> (b < a)%Q.
Proof.
  intros H. apply Qnot_le_lt. intros Hc. apply Qle_bool_iff in Hc. congruence.
Qed.

(** On numbers that are not NaN, [x <= y] holds exactly when [y < x] fails. *)
Lemma num_le_iff_not_lt (x y : number) :
  is_nan x = false -> is_nan y = false -> num_le x y = negb (num_lt y x).
Proof.
  unfold num_le.
  destruct x as [a| |[|]], y as [b| |[|]]; simpl; try discriminate; try reflexivity.
  intros _ _. rewrite negb_involutive.
  destruct (Qle_bool a b) eqn:T.
  - apply Qle_bool_iff in T. destruct (Qle_bool b a) eqn:T'; [|reflexivity]. simpl.
    apply Qle_bool_iff in T'. apply Qeq_bool_iff. now apply Qle_antisym.
  - apply Qle_bool_false in T. rewrite (proj2 (Qle_bool_iff b a)) by now apply Qlt_le_weak.
    simpl. destruct (Qeq_bool a b) eqn:T'; [|reflexivity].
    apply Qeq_bool_iff in T'. rewrite T' in T. now apply Qlt_irrefl in T.
Qed.

Lemma num_lt_le (x y : number) : num_lt x y = true -> num_le x y = true.
Proof. unfold num_le. now intros ->. Qed.

Lemma num_le_Num (a b : Q) : num_le (Num a) (Num b) = true <-> (a <= b)%Q.
Proof.
  rewrite num_le_iff_not_lt by reflexivity. simpl. rewrite negb_involutive.
  apply Qle_bool_iff.
Qed.

Lemma num_le_trans (x y z : number) :
  num_le x y = true -> num_le y z = true -> num_le x z = true.
Proof.
  intros H1 H2.
  destruct (num_le_not_nan _ _ H1) as [Nx Ny], (num_le_not_nan _ _ H2) as [_ Nz].
  destruct x as [a| |[|]], y as [b| |[|]], z as [c| |[|]];
    try discriminate; try reflexivity.
  apply num_le_Num in H1, H2. apply num_le_Num. now apply Qle_trans with b.
Qed.

Lemma num_le_refl (x : number) : is_nan x = false -> num_le x x = true.
Proof.
  destruct x as [a| |[|]]; try discriminate; try reflexivity.
  intros _. apply num_le_Num, Qle_refl.
Qed.


(** ** The sort *)

Section SortFacts.
Context {A : Type} (key : A -> number).

(** No key of the list is NaN. *)
Local Abbreviation keys_ordered := (Forall (fun a => is_nan (key a) = false)).

Lemma insert_by_perm (x : A) (l : list A) : Permutation (x :: l) (insert_by key x l).
Proof.
  induction l as [|y l IH]; simpl; [reflexivity|].
  destruct (num_lt (key y) (key x)); [|reflexivity].
  rewrite perm_swap. now apply perm_skip.
Qed.

Lemma sort_by_perm (l : list A) : Permutation l (sort_by key l).
Proof.
  induction l as [|x l IH]; simpl; [constructor|].
  rewrite <- insert_by_perm. now apply perm_skip.
Qed.

Lemma insert_by_hd (x : A) (l : list A) (a : A) :
  key_le key a x -> HdRel (key_le key) a l -> HdRel (key_le key) a (insert_by key x l).
Proof.
  intros Hax Hal. destruct l as [|y l]; simpl; [now constructor|].
  destruct (num_lt (key y) (key x)); constructor; [|assumption].
  now inversion Hal.
Qed.

Lemma insert_by_sorted (x : A) (l : list A) :
  is_nan (key x) = false -> keys_ordered l ->
  Sorted (key_le key) l -> Sorted (key_le key) (insert_by key x l).
Proof.
  intros Nx Nl. induction 1 as [|y l Hs IH Hhd]; simpl; [repeat constructor|].
  apply Forall_cons in Nl as [Ny Nl].
  destruct (num_lt (key y) (key x)) eqn:E.
  - constructor; [now apply IH|].
    apply insert_by_hd; [|assumption]. now apply num_lt_le.
  - repeat constructor; try assumption.
    unfold key_le. now rewrite num_le_iff_not_lt, E.
Qed.

Lemma sort_by_ordered (l : list A) : keys_ordered l -> keys_ordered (sort_by key l).
Proof.
  intros H. now rewrite <- (sort_by_perm l).
Qed.

(** Without a NaN key the result is in ascending order. *)
Lemma sort_by_sorted (l : list A) : keys_ordered l -> Sorted (key_le key) (sort_by key l).
Proof.
  induction l as [|x l IH]; simpl; [constructor|].
  intros H. apply Forall_cons in H as [Nx Nl].
  apply insert_by_sorted; [assumption | now apply sort_by_ordered | now apply IH].
Qed.



(** A list without a descent is left as it is, NaN keys or not. *)
Lemma sort_by_no_descent (l : list A) :
  Sorted (fun a b => num_lt (key b) (key a) = false) l -> sort_by key l = l.
Proof.
  induction 1 as [|x l Hs IH Hhd]; [reflexivity|].
  cbn [sort_by]. rewrite IH. destruct Hhd as [|y l' Hxy]; [reflexivity|].
  cbn [insert_by]. now rewrite Hxy.
Qed.
End SortFacts.

(** ** The collecting loop *)

Lemma collect_step_included entry shops_data shop_prices shop_name :
  collect_step entry shops_data shop_prices shop_name =
  shop_prices ++ option_list (included entry shops_data shop_name).
Proof.
  unfold collect_step, included.
  destruct (shops_data !! shop_name) as [shop|]; simpl; [|now rewrite app_nil_r].
  destruct (get (Offer.price shop)) as [price|]; simpl; [|now rewrite app_nil_r].
  destruct (truthy price); simpl; [reflexivity | now rewrite app_nil_r].
Qed.

Lemma fold_collect entry shops_data names acc :
  fold_left (collect_step entry shops_data) names acc =
  acc ++ omap (included entry shops_data) names.
Proof.
  revert acc. induction names as [|n names IH]; intros acc; simpl.
  - now rewrite app_nil_r.
  - rewrite IH, collect_step_included.
    destruct (included entry shops_data n); simpl; [|now rewrite app_nil_r].
    now rewrite <- app_assoc.
Qed.

Lemma collect_omap entry shops_data names :
  collect_shop_prices entry shops_data names = omap (included entry shops_data) names.
Proof. unfold collect_shop_prices. now rewrite fold_collect. Qed.

(** ** What the normalisers return *)

Lemma parse_product_inv p dc specs prod :
  parse_product p dc specs = Ok prod ->
  exists shops_data,
    shops_of p = Ok shops_data /\
    Product.shopPrices prod =
      sort_by ShopPrice.price (collect_shop_prices retail_entry shops_data RETAIL_SHOPS) /\
    Product.bestPrice prod = best_price_of (Product.shopPrices prod) /\
    Product.originalPrice prod =
      emit_original (original_price_of (old_prices_of (Product.shopPrices prod)))
                    (fun q => q) /\
    Product.inStock prod = existsb ShopPrice.available (Product.shopPrices prod) /\
    Product.brand prod = first_brand shops_data RETAIL_SHOPS.
Proof.
  unfold parse_product. intros H.
  inv_bind H. inv_bind H. inv_bind H. injection H as <-.
  exists x. simpl. repeat split; try reflexivity; assumption.
Qed.

Lemma parse_para_product_inv p dc specs prod :
  parse_para_product p dc specs = Ok prod ->
  exists shops_data,
    shops_of p = Ok shops_data /\
    ParaProduct.shopPrices prod =
      sort_by ShopPrice.price (collect_shop_prices para_entry shops_data PARA_SHOPS) /\
    ParaProduct.bestPrice prod = round (best_price_of (ParaProduct.shopPrices prod)) 3 /\
    ParaProduct.originalPrice prod =
      emit_original (original_price_of (old_prices_of (ParaProduct.shopPrices prod)))
                    (fun q => round q 3) /\
    ParaProduct.inStock prod = existsb ShopPrice.available (ParaProduct.shopPrices prod) /\
    ParaProduct.brand prod = first_brand shops_data PARA_SHOPS.
Proof.
  unfold parse_para_product. intros H.
  inv_bind H. inv_bind H. inv_bind H. injection H as <-.
  exists x. simpl. repeat split; try reflexivity; assumption.
Qed.

(** The collected list follows the priority order of the shops. *)
Lemma collected_in_order entry display shops_data names :
  (forall n shop price, ShopPrice.shop (entry n shop price) = display n) ->
  sublist (ShopPrice.shop <$> collect_shop_prices entry shops_data names)
          (display <$> names).
Proof.
  intros Hshop. rewrite collect_omap.
  induction names as [|n names IH]; simpl; [constructor|].
  destruct (included entry shops_data n) as [sp|] eqn:E; simpl.
  - unfold included in E.
    destruct (shops_data !! n) as [shop|]; simpl in E; [|discriminate].
    destruct (get (Offer.price shop)) as [price|]; simpl in E; [|discriminate].
    destruct (truthy price); [|discriminate].
    injection E as <-. rewrite Hshop. now constructor.
  - now constructor.
Qed.

(** Every price of the parapharmacy list is a rounded one. *)
Lemma para_prices_rounded shops_data names sp :
  sp ∈ collect_shop_prices para_entry shops_data names ->
  exists q, ShopPrice.price sp = round q 3.
Proof.
  rewrite collect_omap, list_elem_of_omap.
  intros (n & _ & E). unfold included in E.
  destruct (shops_data !! n) as [shop|]; simpl in E; [|discriminate].
  destruct (get (Offer.price shop)) as [price|]; simpl in E; [|discriminate].
  destruct (truthy price); [|discriminate].
  injection E as <-. simpl. eauto.
Qed.

(** ** Sorted price list and best price *)




(** ** Which offers reach the price list *)

Lemma truthy_old_price (f : field number) (o : number) :
  old_price_of f = Some o <-> exists old, f = Val old /\ nonzero old /\ o = float old.
Proof.
  unfold old_price_of. destruct f as [| |q]; simpl.
  - split; [discriminate | intros (? & ? & _); discriminate].
  - split; [discriminate | intros (? & ? & _); discriminate].
  - unfold truthy at 1, truthy_option. destruct (truthy q) eqn:E; simpl.
    + apply truthy_number_spec in E.
      split; [intros [= <-]; eauto | intros (? & [= <-] & _ & ->); reflexivity].
    + split; [discriminate|]. intros (? & [= <-] & Hne & _).
      apply truthy_number_spec in Hne. congruence.
Qed.

Lemma included_spec entry shops_data n sp :
  included entry shops_data n = Some sp <->
  exists shop q, shops_data !! n = Some shop /\ Offer.price shop = Val q /\
                 nonzero q /\ sp = entry n shop q.
Proof.
  unfold included. split.
  - destruct (shops_data !! n) as [shop|]; simpl; [|discriminate].
    destruct (Offer.price shop) as [| |q] eqn:Ep; simpl; try discriminate.
    destruct (truthy q) eqn:Et; [|discriminate].
    intros [= <-]. apply truthy_number_spec in Et. eauto 8.
  - intros (shop & q & -> & Ep & Hne & ->). simpl. rewrite Ep. simpl.
    apply truthy_number_spec in Hne. now rewrite Hne.
Qed.

Lemma elem_of_sorted_prices entry shops_data names sp :
  sp ∈ sort_by ShopPrice.price (collect_shop_prices entry shops_data names) <->
  exists n shop q, n ∈ names /\ shops_data !! n = Some shop /\
                   Offer.price shop = Val q /\ nonzero q /\ sp = entry n shop q.
Proof.
  rewrite <- (sort_by_perm ShopPrice.price), collect_omap, list_elem_of_omap.
  split.
  - intros (n & Hn & E). apply included_spec in E as (shop & q & ?). eauto 8.
  - intros (n & shop & q & Hn & ?). exists n. split; [assumption|].
    apply included_spec. eauto.
Qed.

Lemma retail_display_inj n n' :
  n ∈ RETAIL_SHOPS -> n' ∈ RETAIL_SHOPS -> capitalize n = capitalize n' -> n = n'.
Proof.
  unfold RETAIL_SHOPS. rewrite !elem_of_cons, !elem_of_nil.
  intros [->|[->|[->|[]]]] [->|[->|[->|[]]]]; vm_compute; congruence.
Qed.

Lemma para_display_inj n n' :
  n ∈ PARA_SHOPS -> n' ∈ PARA_SHOPS ->
  title (replace "-" " " n) = title (replace "-" " " n') -> n = n'.
Proof.
  unfold PARA_SHOPS. rewrite !elem_of_cons, !elem_of_nil.
  intros [->|[->|[->|[]]]] [->|[->|[->|[]]]]; vm_compute; congruence.
Qed.

(** ** Precision of the listed prices *)




(** ** Inclusion of an offer *)

(** C3, as the code has it: a shop of the priority order is listed exactly
    when its offer holds a price that is neither null nor zero. *)
Theorem offer_listed_iff_truthy_price (p : Raw.t) (dc : string) (specs : bool) :
  (forall prod n, parse_product p dc specs = Ok prod -> n ∈ RETAIL_SHOPS ->
     (exists sp, sp ∈ Product.shopPrices prod /\ ShopPrice.shop sp = capitalize n) <->
     (exists shop q, priced p n shop q)) /\
  (forall prod n, parse_para_product p dc specs = Ok prod -> n ∈ PARA_SHOPS ->
     (exists sp, sp ∈ ParaProduct.shopPrices prod /\
                 ShopPrice.shop sp = title (replace "-" " " n)) <->
     (exists shop q, priced p n shop q)).
Proof.
  split; intros prod n H Hn.
  - apply parse_product_inv in H as (sd & Hsd & Hsp & _). rewrite Hsp. split.
    + intros (sp & Hin & Hshop).
      apply elem_of_sorted_prices in Hin as (n' & shop & q & Hn' & Hl & Hp & Hne & ->).
      simpl in Hshop. apply retail_display_inj in Hshop as ->; [|assumption..].
      exists shop, q, sd. auto.
    + intros (shop & q & sd' & Hsd' & Hl & Hp & Hne).
      assert (sd' = sd) as -> by congruence.
      exists (retail_entry n shop q). split; [|reflexivity].
      apply elem_of_sorted_prices. eauto 8.
  - apply parse_para_product_inv in H as (sd & Hsd & Hsp & _). rewrite Hsp. split.
    + intros (sp & Hin & Hshop).
      apply elem_of_sorted_prices in Hin as (n' & shop & q & Hn' & Hl & Hp & Hne & ->).
      simpl in Hshop. apply para_display_inj in Hshop as ->; [|assumption..].
      exists shop, q, sd. auto.
    + intros (shop & q & sd' & Hsd' & Hl & Hp & Hne).
      assert (sd' = sd) as -> by congruence.
      exists (para_entry n shop q). split; [|reflexivity].
      apply elem_of_sorted_prices. eauto 8.
Qed.

Lemma offer_listed_iff_truthy_price_witness :
  (exists sp, sp ∈ Product.shopPrices two_shops_product /\
              ShopPrice.shop sp = capitalize "spacenet") <->
  (exists shop q, priced two_shops "spacenet" shop q).
Proof.
  apply (proj1 (offer_listed_iff_truthy_price two_shops "" false)
               two_shops_product "spacenet").
  - vm_compute. reflexivity.
  - unfold RETAIL_SHOPS. apply list_elem_of_further, list_elem_of_here.
Defined.

(** C3 fails as stated: an offer whose price is present and equal to 0 is
    not listed. *)
Lemma zero_price_offer_is_not_listed :
  exists shops_data shop prod,
    shops_of zero_price = Ok shops_data /\
    shops_data !! "mytek" = Some shop /\ Offer.price shop = Val (Num 0) /\
    parse_product zero_price "" false = Ok prod /\
    Product.shopPrices prod = [].
Proof. do 3 eexists. repeat split; vm_compute; reflexivity. Qed.

(** ** Stock flag *)

Lemma available_of_true (f : field bool) : available_of f = true <-> f = Val true.
Proof.
  unfold available_of. destruct f as [| |[|]]; simpl;
    (split; [try discriminate; reflexivity | try discriminate; try reflexivity]);
    intros [=].
Qed.

Lemma entry_available entry :
  (forall n shop q,
     ShopPrice.available (entry n shop q) = available_of (Offer.available shop)) ->
  forall shops_data names,
  existsb ShopPrice.available
          (sort_by ShopPrice.price (collect_shop_prices entry shops_data names)) = true <->
  exists n shop q, n ∈ names /\ shops_data !! n = Some shop /\
                   Offer.price shop = Val q /\ nonzero q /\
                   Offer.available shop = Val true.
Proof.
  intros Hav shops_data names. rewrite existsb_exists. split.
  - intros (sp & Hin & Ha). apply list_elem_of_In in Hin.
    apply elem_of_sorted_prices in Hin as (n & shop & q & Hn & Hl & Hp & Hne & ->).
    rewrite Hav in Ha. apply available_of_true in Ha. eauto 10.
  - intros (n & shop & q & Hn & Hl & Hp & Hne & Ha).
    exists (entry n shop q). split.
    + apply list_elem_of_In, elem_of_sorted_prices. eauto 10.
    + rewrite Hav. now apply available_of_true.
Qed.

(** C4, as the code has it: the product is in stock exactly when a listed
    offer is available, that is, when a shop of the priority order holds a
    price that is neither null nor zero together with available = true; a
    product with an empty price list is out of stock. *)
Theorem in_stock_iff_listed_offer_available (p : Raw.t) (dc : string) (specs : bool) :
  (forall prod, parse_product p dc specs = Ok prod ->
     (Product.inStock prod = true <->
        exists sp, sp ∈ Product.shopPrices prod /\ ShopPrice.available sp = true) /\
     (Product.inStock prod = true <->
        exists n shop q, n ∈ RETAIL_SHOPS /\ priced p n shop q /\
                         Offer.available shop = Val true) /\
     (Product.shopPrices prod = [] -> Product.inStock prod = false)) /\
  (forall prod, parse_para_product p dc specs = Ok prod ->
     (ParaProduct.inStock prod = true <->
        exists sp, sp ∈ ParaProduct.shopPrices prod /\ ShopPrice.available sp = true) /\
     (ParaProduct.inStock prod = true <->
        exists n shop q, n ∈ PARA_SHOPS /\ priced p n shop q /\
                         Offer.available shop = Val true) /\
     (ParaProduct.shopPrices prod = [] -> ParaProduct.inStock prod = false)).
Proof.
  split; intros prod H.
  - apply parse_product_inv in H as (sd & Hsd & Hsp & _ & _ & Hst & _).
    rewrite Hst. repeat split.
    + rewrite existsb_exists. intros (sp & Hin & Ha).
      exists sp. split; [now apply list_elem_of_In | assumption].
    + rewrite existsb_exists. intros (sp & Hin & Ha).
      exists sp. split; [now apply list_elem_of_In | assumption].
    + rewrite Hsp, (entry_available retail_entry) by reflexivity.
      intros (n & shop & q & Hn & Hl & Hp & Hne & Ha).
      exists n, shop, q. repeat split; try assumption. exists sd. auto.
    + rewrite Hsp, (entry_available retail_entry) by reflexivity.
      intros (n & shop & q & Hn & (sd' & Hsd' & Hl & Hp & Hne) & Ha).
      assert (sd' = sd) as -> by congruence. eauto 10.
    + now intros ->.
  - apply parse_para_product_inv in H as (sd & Hsd & Hsp & _ & _ & Hst & _).
    rewrite Hst. repeat split.
    + rewrite existsb_exists. intros (sp & Hin & Ha).
      exists sp. split; [now apply list_elem_of_In | assumption].
    + rewrite existsb_exists. intros (sp & Hin & Ha).
      exists sp. split; [now apply list_elem_of_In | assumption].
    + rewrite Hsp, (entry_available para_entry) by reflexivity.
      intros (n & shop & q & Hn & Hl & Hp & Hne & Ha).
      exists n, shop, q. repeat split; try assumption. exists sd. auto.
    + rewrite Hsp, (entry_available para_entry) by reflexivity.
      intros (n & shop & q & Hn & (sd' & Hsd' & Hl & Hp & Hne) & Ha).
      assert (sd' = sd) as -> by congruence. eauto 10.
    + now intros ->.
Qed.

Lemma in_stock_iff_listed_offer_available_witness :
  Product.inStock two_shops_product = true <->
  exists sp, sp ∈ Product.shopPrices two_shops_product /\ ShopPrice.available sp = true.
Proof.
  apply (proj1 (in_stock_iff_listed_offer_available two_shops "" false)
               two_shops_product).
  vm_compute. reflexivity.
Defined.

(** C4 fails as stated: an offer marked available without a price leaves
    the product out of stock. *)
Lemma available_unpriced_offer_is_out_of_stock :
  exists shops_data shop prod,
    shops_of available_unpriced = Ok shops_data /\
    shops_data !! "mytek" = Some shop /\ Offer.available shop = Val true /\
    parse_product available_unpriced "" false = Ok prod /\
    Product.inStock prod = false.
Proof. do 3 eexists. repeat split; vm_compute; reflexivity. Qed.

(** ** Original price *)

Lemma py_min_spec (l : list number) (x : number) :
  (py_min x l = x \/ In (py_min x l) l) /\
  (is_nan x = false -> Forall (fun y => is_nan y = false) l ->
   num_le (py_min x l) x = true /\
   forall y, In y l -> num_le (py_min x l) y = true).
Proof.
  revert x. induction l as [|y l IH]; intros x.
  - simpl. split; [now left|]. intros Nx _. split; [now apply num_le_refl | intros y []].
  - unfold py_min in *. cbn [fold_left].
    destruct (num_lt y x) eqn:E.
    + destruct (IH y) as (Hin & Hord). split.
      * right. destruct Hin as [->|Hin]; [now left | now right].
      * intros Nx Nl. apply Forall_cons in Nl as [Ny Nl].
        destruct (Hord Ny Nl) as [Hle Hall]. split.
        -- apply num_le_trans with y; [assumption | now apply num_lt_le].
        -- intros z [<-|Hz]; [assumption | now apply Hall].
    + destruct (IH x) as (Hin & Hord). split.
      * destruct Hin as [->|Hin]; [now left | right; now right].
      * intros Nx Nl. apply Forall_cons in Nl as [Ny Nl].
        destruct (Hord Nx Nl) as [Hle Hall]. split; [assumption|].
        intros z [<-|Hz]; [|now apply Hall].
        apply num_le_trans with x; [assumption|].
        now rewrite num_le_iff_not_lt, E.
Qed.

Lemma emit_original_None (olds : list number) (rnd : number -> number) :
  Forall nonzero olds ->
  emit_original (original_price_of olds) rnd = None <-> olds = [].
Proof.
  intros Hnz. destruct olds as [|x l]; [easy|].
  split; [|discriminate]. unfold emit_original. cbn [original_price_of].
  assert (Hm : truthy (py_min x l) = true).
  { apply truthy_number_spec. rewrite List.Forall_forall in Hnz. apply Hnz.
    destruct (py_min_spec l x) as ([->|Hin] & _); [now left | now right]. }
  unfold truthy at 1, truthy_option. now rewrite Hm.
Qed.

Lemma emit_original_Some (olds : list number) (rnd : number -> number) (x : number) :
  emit_original (original_price_of olds) rnd = Some x ->
  exists m, x = rnd (float m) /\ In m olds /\
            (Forall (fun o => is_nan o = false) olds ->
             forall o, In o olds -> num_le m o = true).
Proof.
  destruct olds as [|y l]; [discriminate|].
  unfold emit_original. cbn [original_price_of].
  destruct (truthy (Some (py_min y l))); [|discriminate].
  simpl. intros [= <-]. exists (py_min y l).
  destruct (py_min_spec l y) as (Hin & Hord). split; [reflexivity|]. split.
  - destruct Hin as [->|Hin]; [now left | now right].
  - intros Hn. apply Forall_cons in Hn as [Ny Nl].
    destruct (Hord Ny Nl) as [Hle Hall].
    intros o [<-|Ho]; [assumption | now apply Hall].
Qed.

Lemma old_prices_spec entry :
  (forall n shop q,
     ShopPrice.oldPrice (entry n shop q) = old_price_of (Offer.old_price shop)) ->
  forall shops_data names o,
  In o (old_prices_of
          (sort_by ShopPrice.price (collect_shop_prices entry shops_data names))) <->
  exists n shop q old, n ∈ names /\ shops_data !! n = Some shop /\
                       Offer.price shop = Val q /\ nonzero q /\
                       Offer.old_price shop = Val old /\ nonzero old /\ o = float old.
Proof.
  intros Hold shops_data names o. unfold old_prices_of.
  rewrite <- list_elem_of_In, list_elem_of_omap. split.
  - intros (sp & Hin & E).
    apply elem_of_sorted_prices in Hin as (n & shop & q & Hn & Hl & Hp & Hne & ->).
    rewrite Hold in E.
    destruct (truthy (old_price_of (Offer.old_price shop))); [|discriminate].
    apply truthy_old_price in E as (old & Ho & Hnz & ->). eauto 14.
  - intros (n & shop & q & old & Hn & Hl & Hp & Hne & Ho & Hnz & ->).
    exists (entry n shop q). split; [apply elem_of_sorted_prices; eauto 10|].
    rewrite Hold.
    assert (E : old_price_of (Offer.old_price shop) = Some (float old))
      by (apply truthy_old_price; eauto).
    rewrite E. unfold truthy, truthy_option. fold (truthy (float old)).
    rewrite truthy_float. apply truthy_number_spec in Hnz. now rewrite Hnz.
Qed.

Lemma listed_old_iff entry names p shops_data o :
  (forall n shop q,
     ShopPrice.oldPrice (entry n shop q) = old_price_of (Offer.old_price shop)) ->
  shops_of p = Ok shops_data ->
  In o (old_prices_of
          (sort_by ShopPrice.price (collect_shop_prices entry shops_data names))) <->
  listed_old names p o.
Proof.
  intros Hold Hsd. rewrite (old_prices_spec entry Hold). unfold listed_old, priced.
  split.
  - intros (n & shop & q & old & Hn & Hl & Hp & Hne & Ho & Hnz & ->).
    exists n, shop, q, old. repeat split; try assumption. exists shops_data. auto.
  - intros (n & shop & q & old & Hn & (sd' & Hsd' & Hl & Hp & Hne) & Ho & Hnz & ->).
    assert (sd' = shops_data) as -> by congruence. eauto 14.
Qed.

Lemma listed_old_float names p o : listed_old names p o -> float o = o /\ nonzero o.
Proof.
  intros (n & shop & q & old & _ & _ & _ & Hnz & ->).
  split; [apply float_idem | now apply nonzero_float].
Qed.

Lemma old_prices_nan_free (shop_prices : list ShopPrice.t) :
  old_nan_free shop_prices ->
  Forall (fun o => is_nan o = false) (old_prices_of shop_prices).
Proof.
  unfold old_nan_free, old_prices_of. rewrite !List.Forall_forall.
  intros H o Ho. apply list_elem_of_In, list_elem_of_omap in Ho as (sp & Hin & E).
  apply list_elem_of_In, H in Hin.
  destruct (truthy (ShopPrice.oldPrice sp)); [|discriminate].
  now rewrite E in Hin.
Qed.

Lemma original_price_spec entry names p shops_data rnd :
  (forall n shop q,
     ShopPrice.oldPrice (entry n shop q) = old_price_of (Offer.old_price shop)) ->
  shops_of p = Ok shops_data ->
  let shop_prices :=
    sort_by ShopPrice.price (collect_shop_prices entry shops_data names) in
  let original := emit_original (original_price_of (old_prices_of shop_prices)) rnd in
  (original = None <-> forall o, ~ listed_old names p o) /\
  (forall x, original = Some x ->
     exists m, x = rnd m /\ listed_old names p m /\
               (old_nan_free shop_prices ->
                forall o, listed_old names p o -> num_le m o = true)).
Proof.
  intros Hold Hsd shop_prices original. subst original.
  pose proof (old_prices_nan_free shop_prices) as Hnan.
  set (olds := old_prices_of shop_prices) in *.
  assert (Hiff : forall o, In o olds <-> listed_old names p o)
    by (intros o; now apply listed_old_iff).
  split.
  - rewrite emit_original_None.
    + split.
      * intros E o Ho. apply Hiff in Ho. rewrite E in Ho. destruct Ho.
      * intros Hno. destruct olds as [|o l] eqn:E; [reflexivity|].
        exfalso. apply (Hno o), Hiff. now left.
    + apply List.Forall_forall. intros o Ho. apply Hiff in Ho.
      now apply listed_old_float in Ho.
  - intros x Hx. apply emit_original_Some in Hx as (m & -> & Hin & Hmin).
    exists m. apply Hiff in Hin as Hl.
    destruct (listed_old_float _ _ _ Hl) as [-> _].
    split; [reflexivity|]. split; [assumption|].
    intros Hn o Ho. apply Hmin; [now apply Hnan | now apply Hiff].
Qed.

(** C5, as the code has it: originalPrice is present exactly when a listed
    offer holds an old price that is neither null nor zero; it is then one
    of those old prices, the smallest of them when none is NaN (rounded to
    3 places in the parapharmacy normaliser), whether or not an old price
    differs from the current one.  No price, and so no bestPrice, enters
    it. *)
Theorem original_price_min_listed_old (p : Raw.t) (dc : string) (specs : bool) :
  (forall prod, parse_product p dc specs = Ok prod ->
     (Product.originalPrice prod = None <->
        forall o, ~ listed_old RETAIL_SHOPS p o) /\
     (forall m, Product.originalPrice prod = Some m ->
        listed_old RETAIL_SHOPS p m /\
        (old_nan_free (Product.shopPrices prod) ->
         forall o, listed_old RETAIL_SHOPS p o -> num_le m o = true))) /\
  (forall prod, parse_para_product p dc specs = Ok prod ->
     (ParaProduct.originalPrice prod = None <->
        forall o, ~ listed_old PARA_SHOPS p o) /\
     (forall x, ParaProduct.originalPrice prod = Some x ->
        exists m, x = round m 3 /\ listed_old PARA_SHOPS p m /\
                  (old_nan_free (ParaProduct.shopPrices prod) ->
                   forall o, listed_old PARA_SHOPS p o -> num_le m o = true))).
Proof.
  split; intros prod H.
  - apply parse_product_inv in H as (sd & Hsd & Hsp & _ & Horig & _).
    rewrite Horig, Hsp.
    destruct (original_price_spec retail_entry RETAIL_SHOPS p sd (fun q => q))
      as [Hnone Hsome]; [reflexivity | assumption |].
    split; [exact Hnone|].
    intros m Hm. apply Hsome in Hm as (m' & -> & Hl & Hmin). auto.
  - apply parse_para_product_inv in H as (sd & Hsd & Hsp & _ & Horig & _).
    rewrite Horig, Hsp.
    now apply (original_price_spec para_entry PARA_SHOPS p sd (fun q => round q 3)).
Qed.

Lemma original_price_min_listed_old_witness :
  listed_old RETAIL_SHOPS same_old_price (Num 100) /\
  forall o, listed_old RETAIL_SHOPS same_old_price o -> num_le (Num 100) o = true.
Proof.
  destruct (proj2 (proj1 (original_price_min_listed_old same_old_price "" false)
                         same_old_price_product ltac:(vm_compute; reflexivity))
                  (Num 100) ltac:(reflexivity)) as [Hl Hmin].
  split; [exact Hl|]. apply Hmin. repeat constructor.
Defined.

(** C5 fails as stated: originalPrice is emitted although no old price
    differs from the current price, and it is absent although a shop
    reported an old price. *)
Lemma original_price_ignores_current_price :
  (exists prod, parse_product same_old_price "" false = Ok prod /\
     Product.originalPrice prod = Some (Num 100) /\
     Forall (fun sp => ShopPrice.oldPrice sp = Some (ShopPrice.price sp))
            (Product.shopPrices prod)) /\
  (exists shops_data shop prod,
     shops_of old_price_unpriced = Ok shops_data /\
     shops_data !! "mytek" = Some shop /\ Offer.old_price shop = Val (Num 120) /\
     parse_product old_price_unpriced "" false = Ok prod /\
     Product.originalPrice prod = None).
Proof.
  split.
  - eexists. split; [vm_compute; reflexivity|]. split; [reflexivity|].
    repeat constructor.
  - do 3 eexists. repeat split; vm_compute; reflexivity.
Qed.

(** ** Page count *)



Lemma listing_try_pages {P : Type} (parse : Raw.t -> result P) answer page limit resp :
  listing_try parse answer page limit = Ok resp ->
  total_pages_of (ListResponse.total resp) limit = Ok (ListResponse.totalPages resp).
Proof.
  unfold listing_try. intros H.
  inv_bind H. inv_bind H. inv_bind H. inv_bind H. now injection H as <-.
Qed.

Lemma listing_with_Ok {P : Type} (parse : Raw.t -> result P) match_field db
    category category_type search min_price max_price in_stock_only page limit resp :
  listing_try parse
    (Database.aggregate db
       (listing_pipeline match_field category category_type search
                         min_price max_price in_stock_only page limit))
    page limit = Ok resp ->
  listing_with parse match_field db category category_type search
               min_price max_price in_stock_only page limit = resp.
Proof. unfold listing_with. now intros ->. Qed.

Lemma listing_with_Raise {P : Type} (parse : Raw.t -> result P) match_field db
    category category_type search min_price max_price in_stock_only page limit e :
  Database.aggregate db
    (listing_pipeline match_field category category_type search
                      min_price max_price in_stock_only page limit) = Raise e ->
  listing_with parse match_field db category category_type search
               min_price max_price in_stock_only page limit =
  ListResponse.mk [] 0 page limit 0.
Proof. unfold listing_with, listing_try. now intros ->. Qed.



(** ** Failure of the listing query *)

(** C7: when the aggregation raises, neither listing function raises; each
    returns the page with no products, total 0 and totalPages 0. *)
Theorem listing_failure_gives_empty_page (db : Database.t)
    (category : option string) (category_type : string) (search : option string)
    (min_price max_price : option number) (in_stock_only : bool) (page limit : Z) :
  (forall e,
     Database.aggregate db
       (retail_pipeline category category_type search
                        min_price max_price in_stock_only page limit) = Raise e ->
     get_products_listing db category category_type search
                          min_price max_price in_stock_only page limit =
     ListResponse.mk [] 0 page limit 0) /\
  (forall e,
     Database.aggregate db
       (para_pipeline category category_type search
                      min_price max_price in_stock_only page limit) = Raise e ->
     get_para_products_listing db category category_type search
                               min_price max_price in_stock_only page limit =
     ListResponse.mk [] 0 page limit 0).
Proof.
  split; intros e H.
  - now apply (listing_with_Raise _ _ _ _ _ _ _ _ _ _ _ e).
  - now apply (listing_with_Raise _ _ _ _ _ _ _ _ _ _ _ e).
Qed.

Lemma listing_failure_gives_empty_page_witness :
  get_products_listing failing_db (Some "laptops") "subcategory" None None None
                       true 3 20 =
  ListResponse.mk [] 0 3 20 0.
Proof.
  apply (proj1 (listing_failure_gives_empty_page failing_db (Some "laptops")
                  "subcategory" None None None true 3 20) QueryError).
  reflexivity.
Defined.

(** ** Deduplication of the search results *)

Lemma fresh_sku_spec (sku : field string) (seen_skus : gset string) (k : string) :
  fresh_sku sku seen_skus = Some k -> get sku = Some k /\ k <> "" /\ k ∉ seen_skus.
Proof.
  unfold fresh_sku. destruct (get sku) as [k'|]; [|discriminate].
  destruct (truthy k') eqn:Et; simpl; [|discriminate].
  destruct (bool_decide (k' ∈ seen_skus)) eqn:Es; simpl; [discriminate|].
  intros [= <-]. apply bool_decide_eq_false in Es.
  repeat split; [|assumption]. now intros ->.
Qed.

Section SearchFacts.
Context {P : Type}.
Variable to_result : P -> SearchResult.t.
Variable parse_merged : Raw.t -> result P.
Variable parse_single : ShopDoc.t -> string -> result P.
Variable good : Source -> Prop.

Local Abbreviation inv := (search_inv to_result parse_merged parse_single good).
Local Abbreviation result_of := (source_result to_result parse_merged parse_single).

Lemma search_inv_init : inv ([], ∅).
Proof. exists []. repeat split; constructor. Qed.

Lemma search_inv_step st s r k :
  inv st -> good s -> source_sku s = Some k -> k <> "" -> k ∉ st.2 ->
  result_of s = Ok r ->
  inv (st.1 ++ [r], {[k]} ∪ st.2).
Proof.
  intros (srcs & (Hres & Hnd & Hne & Hgood) & Hseen) Hg Hk Hk0 Hfresh Hr.
  exists (srcs ++ [s]). simpl. split; [repeat split|].
  - apply Forall2_app; [assumption | now repeat constructor].
  - rewrite fmap_app. apply NoDup_app. split; [assumption|]. split.
    + intros o Ho Hin. apply list_elem_of_fmap in Ho as (s' & -> & Hs').
      rewrite Forall_forall in Hseen. destruct (Hseen _ Hs') as (k' & Hk' & Hin').
      simpl in Hin. apply list_elem_of_singleton in Hin. congruence.
    + simpl. apply NoDup_singleton.
  - apply Forall_app. split; [assumption|]. constructor; [eauto | constructor].
  - apply Forall_app. split; [assumption|]. now repeat constructor.
  - apply Forall_app. split.
    + eapply Forall_impl; [exact Hseen|]. intros s' (k' & Hk' & Hin').
      exists k'. split; [assumption | set_solver].
    + constructor; [|constructor]. exists k. split; [assumption | set_solver].
Qed.

Lemma scan_merged_inv docs st st' :
  Forall (fun p => good (FromMerged p)) docs ->
  scan_merged to_result parse_merged docs st = Ok st' ->
  inv st -> inv st'.
Proof.
  revert st. induction docs as [|p docs IH]; intros st Hdocs H Hinv; simpl in H.
  - now injection H as <-.
  - apply Forall_cons in Hdocs as [Hp Hdocs].
    destruct (fresh_sku (Raw.sku p) st.2) as [k|] eqn:E; [|now apply (IH st)].
    apply fresh_sku_spec in E as (Hk & Hk0 & Hfresh).
    inv_bind H. apply (IH _ Hdocs H).
    apply (search_inv_step st (FromMerged p)); try assumption.
    simpl. now rewrite Hx.
Qed.

Lemma scan_details_inv limit shop_name docs st st' :
  Forall (fun p => good (FromShop shop_name p)) docs ->
  scan_details to_result parse_single limit shop_name docs st = Ok st' ->
  inv st -> inv st'.
Proof.
  revert st. induction docs as [|p docs IH]; intros st Hdocs H Hinv; simpl in H.
  - now injection H as <-.
  - apply Forall_cons in Hdocs as [Hp Hdocs].
    destruct (fresh_sku (ShopDoc.sku p) st.2) as [k|] eqn:E; [|now apply (IH st)].
    apply fresh_sku_spec in E as (Hk & Hk0 & Hfresh).
    inv_bind H.
    assert (Hnew : inv (st.1 ++ [to_result x], {[k]} ∪ st.2)).
    { apply (search_inv_step st (FromShop shop_name p)); try assumption.
      simpl. now rewrite Hx. }
    destruct (len_ge _ limit); [now injection H as <- | now apply (IH _ Hdocs H)].
Qed.

Lemma scan_collections_inv db query limit remaining colls st st' :
  (forall shop_name collection_name docs,
     (shop_name, collection_name) ∈ colls ->
     Database.find_details db collection_name query remaining = Ok docs ->
     Forall (fun p => good (FromShop shop_name p)) docs) ->
  scan_collections to_result parse_single db query limit remaining colls st = Ok st' ->
  inv st -> inv st'.
Proof.
  revert st. induction colls as [|[shop_name collection_name] colls IH];
    intros st Hgood H Hinv; simpl in H.
  - now injection H as <-.
  - destruct (len_ge st limit); [now injection H as <-|].
    inv_bind H. inv_bind H.
    apply (IH x0); [| exact H |].
    + intros s c docs Hin. apply Hgood. now right.
    + eapply scan_details_inv; [|exact Hx0|exact Hinv].
      eapply Hgood; [now left | exact Hx].
Qed.
End SearchFacts.

Lemma built_from_slice {P : Type} (to_result : P -> SearchResult.t)
    parse_merged parse_single good srcs results (n : Z) :
  built_from to_result parse_merged parse_single good srcs results ->
  exists srcs',
    built_from to_result parse_merged parse_single good srcs' (py_slice_to results n).
Proof.
  intros (Hres & Hnd & Hne & Hgood). unfold py_slice_to.
  set (m := if 0 <=? n then Z.to_nat n
            else Z.to_nat (Z.of_nat (length results) + n)).
  exists (take m srcs).
  assert (E : (if 0 <=? n then take (Z.to_nat n) results
               else take (Z.to_nat (Z.of_nat (length results) + n)) results) =
              take m results) by (subst m; now destruct (0 <=? n)).
  rewrite E. repeat split.
  - now apply Forall2_take.
  - rewrite fmap_take. eapply sublist_NoDup; [exact Hnd | apply sublist_take].
  - now apply Forall_take.
  - now apply Forall_take.
Qed.

Lemma search_with_built {P : Type} (to_result : P -> SearchResult.t)
    parse_merged parse_single details db query limit results :
  search_with to_result parse_merged parse_single details db query limit = Ok results ->
  exists srcs,
    built_from to_result parse_merged parse_single (yielded details db query)
               srcs results.
Proof.
  unfold search_with. intros H. inv_bind H. inv_bind H. inv_bind H.
  injection H as <-.
  assert (H0 : search_inv to_result parse_merged parse_single
                          (yielded details db query) x0).
  { eapply scan_merged_inv; [|exact Hx0|apply search_inv_init].
    apply Forall_forall. intros p Hp. simpl. eauto. }
  assert (H1 : search_inv to_result parse_merged parse_single
                          (yielded details db query) x1).
  { destruct (negb (len_ge x0 limit)); [|now injection Hx1 as <-].
    eapply scan_collections_inv; [|exact Hx1|exact H0].
    intros s c docs Hin Hfind. apply Forall_forall. intros p Hp. simpl. eauto 8. }
  destruct H1 as (srcs & Hb & _). now apply (built_from_slice _ _ _ _ srcs).
Qed.

(** C8, as the code has it: the results of a search are built from
    documents the cursors handed out, each with a non-empty SKU and no two
    with the same SKU; a document whose SKU is absent or empty is passed
    over and yields no result. *)
Theorem search_results_have_distinct_skus (db : Database.t) (query : string) (limit : Z) :
  (forall results, search_products db query limit = Ok results ->
     exists srcs,
       built_from product_result (fun p => parse_product p "" false)
                  parse_single_shop_product (yielded RETAIL_DETAILS db query)
                  srcs results) /\
  (forall results, search_para_products db query limit = Ok results ->
     exists srcs,
       built_from para_product_result (fun p => parse_para_product p "" false)
                  parse_single_para_shop_product (yielded PARA_DETAILS db query)
                  srcs results).
Proof. split; intros results H; now apply search_with_built in H. Qed.

Lemma search_results_have_distinct_skus_witness :
  exists srcs,
    built_from product_result (fun p => parse_product p "" false)
               parse_single_shop_product (yielded RETAIL_DETAILS repeating_db "lap")
               srcs [product_result two_shops_product].
Proof.
  apply (proj1 (search_results_have_distinct_skus repeating_db "lap" 10)).
  vm_compute. reflexivity.
Defined.

(** C8 fails as stated: a match without a SKU does not appear in the
    results. *)
Lemma match_without_sku_is_dropped :
  Database.find_merged no_sku_db "lap" 10 = Ok [no_sku_raw] /\
  Raw.sku no_sku_raw = Missing /\
  (exists r, source_result product_result (fun p => parse_product p "" false)
                           parse_single_shop_product (FromMerged no_sku_raw) = Ok r) /\
  search_products no_sku_db "lap" 10 = Ok [].
Proof.
  repeat split; try reflexivity.
  eexists. vm_compute. reflexivity.
Qed.

(** ** Brand *)

(** In the merged normalisers the brand is the first non-empty shop brand
    in priority order, uppercased, and "Generic" when there is none. *)
Lemma first_brand_spec (shops_data : gmap string Offer.t) (names : list string) :
  first_brand shops_data names =
  match head (omap (shop_brand shops_data) names) with
  | Some b => upper b
  | None => "Generic"
  end.
Proof.
  induction names as [|n names IH]; [reflexivity|].
  cbn [first_brand omap list_omap]. unfold shop_brand at 1.
  destruct (shops_data !! n) as [shop|]; simpl; [|exact IH].
  destruct (get (Offer.brand shop)) as [b|]; simpl; [|exact IH].
  destruct (truthy b); simpl; [reflexivity | exact IH].
Qed.

Lemma merged_brand_first_nonempty (p : Raw.t) (dc : string) (specs : bool) :
  (forall prod, parse_product p dc specs = Ok prod ->
     exists shops_data, shops_of p = Ok shops_data /\
       Product.brand prod =
       match head (omap (shop_brand shops_data) RETAIL_SHOPS) with
       | Some b => upper b
       | None => "Generic"
       end) /\
  (forall prod, parse_para_product p dc specs = Ok prod ->
     exists shops_data, shops_of p = Ok shops_data /\
       ParaProduct.brand prod =
       match head (omap (shop_brand shops_data) PARA_SHOPS) with
       | Some b => upper b
       | None => "Generic"
       end).
Proof.
  split; intros prod H.
  - apply parse_product_inv in H as (sd & Hsd & _ & _ & _ & _ & Hb).
    exists sd. split; [assumption|]. rewrite Hb. apply first_brand_spec.
  - apply parse_para_product_inv in H as (sd & Hsd & _ & _ & _ & _ & Hb).
    exists sd. split; [assumption|]. rewrite Hb. apply first_brand_spec.
Qed.

(** The single-shop normalisers uppercase whatever [get] with the default
    "Generic" returned, the default included. *)
Lemma single_brand_spec (f : field string) :
  single_brand f =
  match f with
  | Missing => Some "GENERIC"
  | Null => None
  | Val b => Some (upper b)
  end.
Proof. destruct f as [| |[|c b]]; reflexivity. Qed.

(** C9 at a details document without a brand key: both single-shop
    normalisers uppercase the default and return "GENERIC", not "Generic". *)
Theorem single_shop_default_brand_is_uppercased :
  (exists prod, parse_single_shop_product no_brand_doc "mytek" = Ok prod /\
                Product.brand prod = "GENERIC") /\
  (exists prod, parse_single_para_shop_product no_brand_doc "parashop" = Ok prod /\
                ParaProduct.brand prod = "GENERIC").
Proof. split; eexists; split; vm_compute; reflexivity. Qed.

(** ** The single-shop price list *)

Lemma parse_single_shop_product_inv p shop_name prod :
  parse_single_shop_product p shop_name = Ok prod ->
  exists price,
    float_opt (get_default (ShopDoc.price p) (Num 0)) = Ok price /\
    Product.bestPrice prod = price /\
    Product.shopPrices prod =
      [ShopPrice.mk (capitalize shop_name) price (old_price_of (ShopDoc.old_price p))
                    (available_of (ShopDoc.available p)) (get (ShopDoc.url p))].
Proof.
  unfold parse_single_shop_product. intros H.
  inv_bind H. inv_bind H. inv_bind H. inv_bind H. inv_bind H. injection H as <-.
  exists x. auto.
Qed.


Lemma required_str_get_default (f : field string) (d : string) :
  f <> Null -> exists s, required_str (get_default f d) = Ok s.
Proof. destruct f; simpl; [eauto | congruence | eauto]. Qed.




(** * Further properties of the normalisers *)

(** ** The best price is the lowest listed price *)

Lemma key_le_price_trans : Transitive (key_le ShopPrice.price).
Proof. intros a b c Hab Hbc. unfold key_le in *. exact (num_le_trans _ _ _ Hab Hbc). Qed.

Lemma sorted_head_least (l : list ShopPrice.t) (sp : ShopPrice.t) :
  nan_free l -> Sorted (key_le ShopPrice.price) l -> sp ∈ l ->
  num_le (best_price_of l) (ShopPrice.price sp) = true.
Proof.
  intros Hn Hs Hin. apply (Sorted_StronglySorted key_le_price_trans) in Hs.
  destruct Hs as [|x l Hs Hall]; [now apply elem_of_nil in Hin|].
  simpl. apply elem_of_cons in Hin as [->|Hin].
  - apply Forall_cons in Hn as [Hx _]. now apply num_le_refl.
  - rewrite List.Forall_forall in Hall. now apply Hall, list_elem_of_In.
Qed.

(** X1: when no listed price is NaN, bestPrice is at most the price of
    every offer that holds a price neither null nor zero (its rounded
    price in the parapharmacy normaliser); and it is the price of one of
    these offers whenever there is one. *)
Theorem best_price_is_lowest_price (p : Raw.t) (dc : string) (specs : bool) :
  (forall prod, parse_product p dc specs = Ok prod ->
     (nan_free (Product.shopPrices prod) ->
      forall n shop q, n ∈ RETAIL_SHOPS -> priced p n shop q ->
        num_le (Product.bestPrice prod) (float q) = true) /\
     (Product.shopPrices prod <> [] ->
        exists n shop q, n ∈ RETAIL_SHOPS /\ priced p n shop q /\
                         Product.bestPrice prod = float q)) /\
  (forall prod, parse_para_product p dc specs = Ok prod ->
     (nan_free (ParaProduct.shopPrices prod) ->
      forall n shop q, n ∈ PARA_SHOPS -> priced p n shop q ->
        num_le (ParaProduct.bestPrice prod) (round (float q) 3) = true) /\
     (ParaProduct.shopPrices prod <> [] ->
        exists n shop q, n ∈ PARA_SHOPS /\ priced p n shop q /\
                         ParaProduct.bestPrice prod = round (float q) 3)).
Proof.
  split; intros prod H.
  - apply parse_product_inv in H as (sd & Hsd & Hsp & Hbest & _).
    rewrite Hbest, Hsp. split.
    + intros Hnan n shop q Hn (sd' & Hsd' & Hl & Hp & Hne).
      assert (sd' = sd) as -> by congruence.
      apply (sorted_head_least _ (retail_entry n shop q)); [assumption | |].
      * apply sort_by_sorted. unfold nan_free in Hnan.
        now rewrite <- (sort_by_perm ShopPrice.price) in Hnan.
      * apply elem_of_sorted_prices. eauto 10.
    + intros Hne.
      destruct (sort_by ShopPrice.price _) as [|sp rest] eqn:E; [congruence|].
      assert (Hin : sp ∈ sort_by ShopPrice.price
                      (collect_shop_prices retail_entry sd RETAIL_SHOPS))
        by (rewrite E; apply list_elem_of_here).
      apply elem_of_sorted_prices in Hin as (n & shop & q & Hn & Hl & Hp & Hq & ->).
      exists n, shop, q. split; [assumption|]. split; [|reflexivity].
      exists sd. auto.
  - apply parse_para_product_inv in H as (sd & Hsd & Hsp & Hbest & _).
    assert (Hhead : forall sp rest,
              ParaProduct.shopPrices prod = sp :: rest ->
              ParaProduct.bestPrice prod = ShopPrice.price sp).
    { intros sp rest E. rewrite Hbest, E. simpl.
      assert (Hin : sp ∈ sort_by ShopPrice.price
                      (collect_shop_prices para_entry sd PARA_SHOPS))
        by (rewrite <- Hsp, E; apply list_elem_of_here).
      apply elem_of_sorted_prices in Hin as (n & shop & q & _ & _ & _ & _ & ->).
      simpl. apply round_3_idempotent. }
    split.
    + intros Hnan n shop q Hn (sd' & Hsd' & Hl & Hp & Hne).
      assert (sd' = sd) as -> by congruence.
      assert (Hin : para_entry n shop q ∈ ParaProduct.shopPrices prod).
      { rewrite Hsp. apply elem_of_sorted_prices. eauto 10. }
      assert (Hs : Sorted (key_le ShopPrice.price) (ParaProduct.shopPrices prod)).
      { rewrite Hsp. apply sort_by_sorted. unfold nan_free in Hnan.
        now rewrite Hsp, <- (sort_by_perm ShopPrice.price) in Hnan. }
      destruct (ParaProduct.shopPrices prod) as [|sp rest] eqn:E;
        [now apply elem_of_nil in Hin|].
      rewrite (Hhead sp rest eq_refl).
      change (ShopPrice.price sp) with (best_price_of (sp :: rest)).
      now apply (sorted_head_least _ (para_entry n shop q)).
    + intros Hne.
      destruct (ParaProduct.shopPrices prod) as [|sp rest] eqn:E; [congruence|].
      rewrite (Hhead sp rest eq_refl).
      assert (Hin : sp ∈ sort_by ShopPrice.price
                      (collect_shop_prices para_entry sd PARA_SHOPS))
        by (rewrite <- Hsp; apply list_elem_of_here).
      apply elem_of_sorted_prices in Hin as (n & shop & q & Hn & Hl & Hp & Hq & ->).
      exists n, shop, q. split; [assumption|]. split; [|reflexivity].
      exists sd. auto.
Qed.

Lemma best_price_is_lowest_price_witness :
  num_le (Product.bestPrice two_shops_product) (float (Num 100)) = true.
Proof.
  apply (proj1 (proj1 (best_price_is_lowest_price two_shops "" false)
                      two_shops_product ltac:(vm_compute; reflexivity))
               ltac:(repeat constructor)
               "mytek" (offer (Val (Num 100)) Missing (Val true)) (Num 100)).
  - apply list_elem_of_here.
  - exists (<["mytek" := offer (Val (Num 100)) Missing (Val true)]>
             (<["spacenet" := offer (Val (Num 80)) Missing (Val false)]> ∅)).
    split; [reflexivity|]. split; [vm_compute; reflexivity|].
    split; [reflexivity | vm_compute; discriminate].
Defined.

(** ** One entry per shop *)

(** X2: no shop appears twice in the price list, which therefore holds at
    most three entries. *)
Theorem price_list_has_each_shop_once (p : Raw.t) (dc : string) (specs : bool) :
  (forall prod, parse_product p dc specs = Ok prod ->
     NoDup (ShopPrice.shop <$> Product.shopPrices prod) /\
     (length (Product.shopPrices prod) <= 3)%nat) /\
  (forall prod, parse_para_product p dc specs = Ok prod ->
     NoDup (ShopPrice.shop <$> ParaProduct.shopPrices prod) /\
     (length (ParaProduct.shopPrices prod) <= 3)%nat).
Proof.
  split; intros prod H.
  - apply parse_product_inv in H as (sd & Hsd & Hsp & _).
    pose proof (collected_in_order retail_entry capitalize sd RETAIL_SHOPS
                  ltac:(reflexivity)) as Hsub.
    pose proof (sort_by_perm ShopPrice.price
                  (collect_shop_prices retail_entry sd RETAIL_SHOPS)) as Hperm.
    rewrite Hsp, <- Hperm. split.
    + eapply sublist_NoDup; [|exact Hsub].
      apply (bool_decide_unpack _). vm_compute. exact I.
    + apply sublist_length in Hsub. rewrite !length_fmap in Hsub. exact Hsub.
  - apply parse_para_product_inv in H as (sd & Hsd & Hsp & _).
    pose proof (collected_in_order para_entry (fun n => title (replace "-" " " n))
                  sd PARA_SHOPS ltac:(reflexivity)) as Hsub.
    pose proof (sort_by_perm ShopPrice.price
                  (collect_shop_prices para_entry sd PARA_SHOPS)) as Hperm.
    rewrite Hsp, <- Hperm. split.
    + eapply sublist_NoDup; [|exact Hsub].
      apply (bool_decide_unpack _). vm_compute. exact I.
    + apply sublist_length in Hsub. rewrite !length_fmap in Hsub. exact Hsub.
Qed.

Lemma price_list_has_each_shop_once_witness :
  NoDup (ShopPrice.shop <$> Product.shopPrices two_shops_product) /\
  (length (Product.shopPrices two_shops_product) <= 3)%nat.
Proof.
  apply (proj1 (price_list_has_each_shop_once two_shops "" false) two_shops_product).
  vm_compute. reflexivity.
Defined.

(** ** The other fields of a normalised product *)

Lemma parse_product_fields p dc specs prod :
  parse_product p dc specs = Ok prod ->
  exists shops_data,
    shops_of p = Ok shops_data /\
    Product.image prod = retail_image shops_data RETAIL_IMAGE_SHOPS PLACEHOLDER /\
    Product.specifications prod =
      (if specs then Some (merge_specifications shops_data RETAIL_SHOPS) else None) /\
    Product.category prod =
      py_or (get (Raw.subcategory p))
            (py_or (get (Raw.low_category p)) (Some dc)) /\
    required_str (get_default (Raw.title p) "Unknown Product") = Ok (Product.name prod).
Proof.
  unfold parse_product. intros H.
  inv_bind H. inv_bind H. inv_bind H. injection H as <-.
  exists x. simpl. auto.
Qed.

Lemma parse_para_product_fields p dc specs prod :
  parse_para_product p dc specs = Ok prod ->
  exists shops_data,
    shops_of p = Ok shops_data /\
    ParaProduct.image prod = para_image shops_data PARA_SHOPS /\
    ParaProduct.specifications prod =
      (if specs then Some (merge_specifications shops_data PARA_SHOPS) else None) /\
    ParaProduct.category prod =
      py_or (get (Raw.low_category p))
            (py_or (get (Raw.subcategory p)) (Some dc)) /\
    required_str (get_default (Raw.title p) "Unknown Product") = Ok (ParaProduct.name prod).
Proof.
  unfold parse_para_product. intros H.
  inv_bind H. inv_bind H. inv_bind H. injection H as <-.
  exists x. simpl. auto.
Qed.

(** ** The image *)

Lemma pick_image_spec (imgs : list string) (d : string) :
  pick_image imgs d = d \/
  (pick_image imgs d ∈ imgs /\ contains BANNER (pick_image imgs d) = false).
Proof.
  induction imgs as [|img imgs IH]; simpl; [now left|].
  destruct (contains "livraison-gratuite" img) eqn:E; simpl.
  - destruct IH as [IH|[IH1 IH2]]; [now left|]. right. split; [now right | assumption].
  - right. split; [now left | assumption].
Qed.

Lemma retail_image_spec (shops_data : gmap string Offer.t) (names : list string)
    (d : string) :
  retail_image shops_data names d = d \/
  (contains BANNER (retail_image shops_data names d) = false /\
   exists n shop imgs, n ∈ names /\ shops_data !! n = Some shop /\
     Offer.images shop = Val imgs /\ retail_image shops_data names d ∈ imgs).
Proof.
  revert d. induction names as [|n names IH]; intros d; simpl; [now left|].
  assert (Hrest : forall d',
            retail_image shops_data names d' = d' \/
            (contains BANNER (retail_image shops_data names d') = false /\
             exists n0 shop imgs, n0 ∈ n :: names /\ shops_data !! n0 = Some shop /\
               Offer.images shop = Val imgs /\
               retail_image shops_data names d' ∈ imgs)).
  { intros d'. destruct (IH d') as [E|(Hb & n0 & shop & imgs & Hn & ?)]; [now left|].
    right. split; [assumption|]. exists n0, shop, imgs. split; [now right | assumption]. }
  destruct (shops_data !! n) as [shop|] eqn:El; simpl; [|apply Hrest].
  destruct (Offer.images shop) as [| |imgs] eqn:Ei; simpl; try apply Hrest.
  destruct (truthy imgs); [|apply Hrest].
  assert (Hhere : forall img, img ∈ imgs ->
            exists n0 shop0 imgs0, n0 ∈ n :: names /\ shops_data !! n0 = Some shop0 /\
              Offer.images shop0 = Val imgs0 /\ img ∈ imgs0).
  { intros img Himg. exists n, shop, imgs. split; [now left | auto]. }
  destruct (pick_image_spec imgs d) as [E|[Hin Hb]].
  - rewrite E. destruct (negb (d =? PLACEHOLDER)%string); [now left | apply Hrest].
  - destruct (negb (pick_image imgs d =? PLACEHOLDER)%string); [right; auto|].
    destruct (Hrest (pick_image imgs d)) as [E|?]; [|now right].
    rewrite E. right. auto.
Qed.

(** X3: the general retail normalisers never return the free-delivery
    banner as the image; the image is the placeholder or one of the images
    the record holds. *)
Theorem retail_image_is_never_the_banner :
  (forall p dc specs prod, parse_product p dc specs = Ok prod ->
     contains BANNER (Product.image prod) = false /\
     (Product.image prod = PLACEHOLDER \/
      shop_image p RETAIL_IMAGE_SHOPS (Product.image prod))) /\
  (forall p shop_name prod, parse_single_shop_product p shop_name = Ok prod ->
     contains BANNER (Product.image prod) = false /\
     (Product.image prod = PLACEHOLDER \/
      exists imgs, ShopDoc.images p = Val imgs /\ Product.image prod ∈ imgs)).
Proof.
  split.
  - intros p dc specs prod H.
    apply parse_product_fields in H as (sd & Hsd & -> & _).
    destruct (retail_image_spec sd RETAIL_IMAGE_SHOPS PLACEHOLDER)
      as [->|(Hb & n & shop & imgs & Hn & Hl & Hi & Hin)].
    + split; [reflexivity | now left].
    + split; [assumption|]. right. exists sd, n, shop, imgs. auto.
  - intros p shop_name prod H. unfold parse_single_shop_product in H.
    inv_bind H. inv_bind H. inv_bind H. inv_bind H. inv_bind H. injection H as <-.
    simpl. unfold single_retail_image in Hx0.
    destruct (ShopDoc.images p) as [| |imgs]; simpl in Hx0; try discriminate;
      injection Hx0 as <-.
    + split; [reflexivity | now left].
    + destruct (pick_image_spec imgs PLACEHOLDER) as [->|[Hin Hb]].
      * split; [reflexivity | now left].
      * split; [assumption|]. right. eauto.
Qed.

Lemma retail_image_is_never_the_banner_witness :
  contains BANNER (Product.image with_banner_product) = false /\
  (Product.image with_banner_product = PLACEHOLDER \/
   shop_image with_banner RETAIL_IMAGE_SHOPS (Product.image with_banner_product)).
Proof.
  apply (proj1 retail_image_is_never_the_banner with_banner "" true).
  vm_compute. reflexivity.
Defined.

(** ** Merged specifications *)

Lemma merge_specifications_lookup (shops_data : gmap string Offer.t)
    (names : list string) (k : string) :
  merge_specifications shops_data names !! k =
  head (omap (shop_spec shops_data k) names).
Proof.
  unfold merge_specifications.
  set (step := fun (specifications : gmap string string) (shop_name : string) =>
         match shops_data !! shop_name ≫= (fun shop => get (Offer.specifications shop)) with
         | Some specs => specifications ∪ specs
         | None => specifications
         end).
  assert (Hgen : forall acc,
            fold_left step names acc !! k =
            match acc !! k with
            | Some v => Some v
            | None => head (omap (shop_spec shops_data k) names)
            end).
  { induction names as [|n names IH]; intros acc; simpl.
    - now destruct (acc !! k).
    - rewrite IH. unfold step at 1. unfold shop_spec at 2.
      destruct (shops_data !! n) as [shop|]; simpl; [|reflexivity].
      destruct (get (Offer.specifications shop)) as [specs|]; simpl; [|reflexivity].
      rewrite lookup_union.
      destruct (acc !! k) as [v|], (specs !! k) as [w|]; simpl; reflexivity. }
  rewrite Hgen. now rewrite lookup_empty.
Qed.

(** X4: when specifications are requested, the value of a key is the one
    held by the first shop in priority order that has the key, and a key no
    shop has is absent; when they are not requested there is no
    specification mapping at all. *)
Theorem specifications_first_shop_wins (p : Raw.t) (dc : string) :
  (forall prod, parse_product p dc true = Ok prod ->
     exists shops_data m, shops_of p = Ok shops_data /\
       Product.specifications prod = Some m /\
       forall k, m !! k = head (omap (shop_spec shops_data k) RETAIL_SHOPS)) /\
  (forall prod, parse_para_product p dc true = Ok prod ->
     exists shops_data m, shops_of p = Ok shops_data /\
       ParaProduct.specifications prod = Some m /\
       forall k, m !! k = head (omap (shop_spec shops_data k) PARA_SHOPS)) /\
  (forall prod, parse_product p dc false = Ok prod ->
     Product.specifications prod = None) /\
  (forall prod, parse_para_product p dc false = Ok prod ->
     ParaProduct.specifications prod = None).
Proof.
  split; [|split; [|split]]; intros prod H.
  - apply parse_product_fields in H as (sd & Hsd & _ & Hs & _).
    exists sd, (merge_specifications sd RETAIL_SHOPS).
    repeat split; [assumption..|]. intros k. apply merge_specifications_lookup.
  - apply parse_para_product_fields in H as (sd & Hsd & _ & Hs & _).
    exists sd, (merge_specifications sd PARA_SHOPS).
    repeat split; [assumption..|]. intros k. apply merge_specifications_lookup.
  - now apply parse_product_fields in H as (sd & _ & _ & Hs & _).
  - now apply parse_para_product_fields in H as (sd & _ & _ & Hs & _).
Qed.

Lemma specifications_first_shop_wins_witness :
  exists shops_data m, shops_of with_banner = Ok shops_data /\
    Product.specifications with_banner_product = Some m /\
    forall k, m !! k = head (omap (shop_spec shops_data k) RETAIL_SHOPS).
Proof.
  apply (proj1 (specifications_first_shop_wins with_banner "")).
  vm_compute. reflexivity.
Defined.

(** ** When the merged normalisers raise *)

Lemma merged_raises_on_null (d : Raw.t) (dc : string) (specs : bool) :
  Raw.shops d = Null \/ Raw.title d = Null ->
  (exists e, parse_product d dc specs = Raise e) /\
  (exists e, parse_para_product d dc specs = Raise e).
Proof.
  unfold parse_product, parse_para_product, shops_of.
  destruct (Raw.shops d) as [| |m], (Raw.title d) as [| |t]; simpl;
    intros [|]; try congruence; eauto.
Qed.

(** X5: a merged normaliser raises on an explicit null: an
    AttributeError when the shops key holds null, whatever the title; a
    ValidationError when the shops are usable and the title holds null. *)
Theorem merged_normaliser_raises_on_null_shops_or_title (p : Raw.t) (dc : string)
    (specs : bool) :
  (Raw.shops p = Null ->
     parse_product p dc specs = Raise AttributeError /\
     parse_para_product p dc specs = Raise AttributeError) /\
  (Raw.shops p <> Null -> Raw.title p = Null ->
     parse_product p dc specs = Raise ValidationError /\
     parse_para_product p dc specs = Raise ValidationError).
Proof.
  unfold parse_product, parse_para_product, shops_of.
  destruct (Raw.shops p) as [| |m] eqn:Es, (Raw.title p) as [| |t] eqn:Et; simpl;
    repeat split; intros; try congruence; eauto.
Qed.

Lemma merged_normaliser_raises_on_null_shops_or_title_witness :
  parse_product null_title_raw "" false = Raise ValidationError /\
  parse_para_product null_title_raw "" false = Raise ValidationError.
Proof.
  apply (proj2 (merged_normaliser_raises_on_null_shops_or_title null_title_raw "" false));
    [discriminate | reflexivity].
Defined.

(** ** A record without offers *)

(** X6: the price list is empty exactly when no shop of the priority order
    holds a price that is neither null nor zero; the product then has
    bestPrice 0.0, no originalPrice and is out of stock. *)
Theorem no_priced_offer_gives_degenerate_product (p : Raw.t) (dc : string) (specs : bool) :
  (forall prod, parse_product p dc specs = Ok prod ->
     (Product.shopPrices prod = [] <->
        forall n shop q, n ∈ RETAIL_SHOPS -> ~ priced p n shop q) /\
     (Product.shopPrices prod = [] ->
        Product.bestPrice prod = Num 0 /\ Product.originalPrice prod = None /\
        Product.inStock prod = false)) /\
  (forall prod, parse_para_product p dc specs = Ok prod ->
     (ParaProduct.shopPrices prod = [] <->
        forall n shop q, n ∈ PARA_SHOPS -> ~ priced p n shop q) /\
     (ParaProduct.shopPrices prod = [] ->
        ParaProduct.bestPrice prod = Num 0 /\ ParaProduct.originalPrice prod = None /\
        ParaProduct.inStock prod = false)).
Proof.
  split; intros prod H.
  - apply parse_product_inv in H as (sd & Hsd & Hsp & Hbest & Horig & Hst & _).
    split.
    + split.
      * intros E n shop q Hn (sd' & Hsd' & Hl & Hp & Hne).
        assert (sd' = sd) as -> by congruence.
        assert (Hin : retail_entry n shop q ∈ Product.shopPrices prod)
          by (rewrite Hsp; apply elem_of_sorted_prices; eauto 10).
        rewrite E in Hin. now apply elem_of_nil in Hin.
      * intros Hno. destruct (Product.shopPrices prod) as [|sp rest] eqn:E;
          [reflexivity|]. exfalso.
        assert (Hin : sp ∈ sort_by ShopPrice.price
                        (collect_shop_prices retail_entry sd RETAIL_SHOPS))
          by (rewrite <- Hsp; apply list_elem_of_here).
        apply elem_of_sorted_prices in Hin as (n & shop & q & Hn & Hl & Hp & Hq & _).
        apply (Hno n shop q Hn). exists sd. auto.
    + intros E. rewrite Hbest, Horig, Hst, E. now vm_compute.
  - apply parse_para_product_inv in H as (sd & Hsd & Hsp & Hbest & Horig & Hst & _).
    split.
    + split.
      * intros E n shop q Hn (sd' & Hsd' & Hl & Hp & Hne).
        assert (sd' = sd) as -> by congruence.
        assert (Hin : para_entry n shop q ∈ ParaProduct.shopPrices prod)
          by (rewrite Hsp; apply elem_of_sorted_prices; eauto 10).
        rewrite E in Hin. now apply elem_of_nil in Hin.
      * intros Hno. destruct (ParaProduct.shopPrices prod) as [|sp rest] eqn:E;
          [reflexivity|]. exfalso.
        assert (Hin : sp ∈ sort_by ShopPrice.price
                        (collect_shop_prices para_entry sd PARA_SHOPS))
          by (rewrite <- Hsp; apply list_elem_of_here).
        apply elem_of_sorted_prices in Hin as (n & shop & q & Hn & Hl & Hp & Hq & _).
        apply (Hno n shop q Hn). exists sd. auto.
    + intros E. rewrite Hbest, Horig, Hst, E. now vm_compute.
Qed.

Lemma no_priced_offer_gives_degenerate_product_witness :
  Product.shopPrices two_shops_product = [] <->
  forall n shop q, n ∈ RETAIL_SHOPS -> ~ priced two_shops n shop q.
Proof.
  apply (proj1 (no_priced_offer_gives_degenerate_product two_shops "" false)
               two_shops_product).
  vm_compute. reflexivity.
Defined.

(** ** The category *)

Lemma py_or_category (a b : field string) (dc : string) :
  (forall s, a = Val s -> s <> "" ->
     py_or (get a) (py_or (get b) (Some dc)) = Some s) /\
  (blank a -> forall s, b = Val s -> s <> "" ->
     py_or (get a) (py_or (get b) (Some dc)) = Some s) /\
  (blank a -> blank b -> py_or (get a) (py_or (get b) (Some dc)) = Some dc).
Proof.
  assert (Hblank : forall f : field string, blank f -> truthy (get f) = false).
  { intros [| |[|c s]] Hf; try reflexivity. now specialize (Hf _ eq_refl). }
  assert (Hfull : forall (f : field string) s, f = Val s -> s <> "" ->
                    truthy (get f) = true).
  { intros f [|c s] -> Hs; [congruence | reflexivity]. }
  unfold py_or. repeat split.
  - intros s E Hs. rewrite (Hfull a s E Hs). now rewrite E.
  - intros Ha s E Hs. rewrite (Hblank a Ha), (Hfull b s E Hs). now rewrite E.
  - intros Ha Hb. rewrite (Hblank a Ha), (Hblank b Hb).
    now destruct (truthy (Some dc)).
Qed.

(** X7: the category of a normalised product is never absent: it is the
    first non-empty of the record's two category keys, else the caller's
    default.  The general retail normaliser asks subcategory first, the
    parapharmacy normaliser low_category first. *)
Theorem category_is_first_nonempty_key (p : Raw.t) (dc : string) (specs : bool) :
  (forall prod, parse_product p dc specs = Ok prod ->
     (forall s, Raw.subcategory p = Val s -> s <> "" ->
        Product.category prod = Some s) /\
     (blank (Raw.subcategory p) -> forall s, Raw.low_category p = Val s -> s <> "" ->
        Product.category prod = Some s) /\
     (blank (Raw.subcategory p) -> blank (Raw.low_category p) ->
        Product.category prod = Some dc)) /\
  (forall prod, parse_para_product p dc specs = Ok prod ->
     (forall s, Raw.low_category p = Val s -> s <> "" ->
        ParaProduct.category prod = Some s) /\
     (blank (Raw.low_category p) -> forall s, Raw.subcategory p = Val s -> s <> "" ->
        ParaProduct.category prod = Some s) /\
     (blank (Raw.low_category p) -> blank (Raw.subcategory p) ->
        ParaProduct.category prod = Some dc)).
Proof.
  split; intros prod H.
  - apply parse_product_fields in H as (sd & _ & _ & _ & -> & _).
    apply py_or_category.
  - apply parse_para_product_fields in H as (sd & _ & _ & _ & -> & _).
    apply py_or_category.
Qed.

Lemma category_is_first_nonempty_key_witness :
  Product.category categorised_product = Some "Ultrabooks".
Proof.
  apply (proj1 (proj1 (category_is_first_nonempty_key categorised "" false)
                      categorised_product ltac:(vm_compute; reflexivity))
               "Ultrabooks").
  - reflexivity.
  - discriminate.
Defined.

(** ** Precision of the parapharmacy prices *)

Lemma round_three_places (x : number) : three_places (round x 3).
Proof.
  split; [apply round_3_idempotent|].
  destruct x as [q| |b]; simpl; [|discriminate..].
  intros v _. exists (decimal_round q 3). split; [eexists|]; reflexivity.
Qed.

Lemma emit_original_round (o : option number) (x : number) :
  emit_original o (fun q => round q 3) = Some x -> three_places x.
Proof.
  unfold emit_original. destruct (truthy o); [|discriminate].
  destruct o as [q|]; simpl; [|discriminate].
  intros [= <-]. apply round_three_places.
Qed.

Lemma round_old_decimals (o : option number) (x : number) :
  round_old o = Some x -> three_places x.
Proof.
  unfold round_old. destruct (truthy o); [|discriminate].
  destruct o as [q|]; simpl; [|discriminate].
  intros [= <-]. apply round_three_places.
Qed.

(** X8: every price a parapharmacy product shows is a price of three
    decimal places, one that rounding to three places leaves as it is:
    bestPrice, originalPrice and the listed prices of the merged
    normaliser; bestPrice, originalPrice and the listed price and old
    price of the single-shop normaliser. *)
Theorem para_product_prices_have_three_decimals :
  (forall p dc specs prod, parse_para_product p dc specs = Ok prod ->
     three_places (ParaProduct.bestPrice prod) /\
     (forall x, ParaProduct.originalPrice prod = Some x -> three_places x) /\
     (forall sp, sp ∈ ParaProduct.shopPrices prod ->
        three_places (ShopPrice.price sp))) /\
  (forall p shop_name prod, parse_single_para_shop_product p shop_name = Ok prod ->
     three_places (ParaProduct.bestPrice prod) /\
     (forall x, ParaProduct.originalPrice prod = Some x -> three_places x) /\
     (forall sp, sp ∈ ParaProduct.shopPrices prod ->
        three_places (ShopPrice.price sp) /\
        forall x, ShopPrice.oldPrice sp = Some x -> three_places x)).
Proof.
  split.
  - intros p dc specs prod H.
    apply parse_para_product_inv in H as (sd & _ & Hsp & -> & -> & _).
    split; [apply round_three_places|].
    split; [intros x; apply emit_original_round|].
    intros sp Hin. rewrite Hsp, <- (sort_by_perm ShopPrice.price) in Hin.
    apply para_prices_rounded in Hin as (q & ->). apply round_three_places.
  - intros p shop_name prod H. unfold parse_single_para_shop_product in H.
    inv_bind H. inv_bind H. inv_bind H. inv_bind H. injection H as <-. simpl.
    split; [apply round_three_places|]. split; [apply round_old_decimals|].
    intros sp Hsp. apply list_elem_of_singleton in Hsp as ->. simpl.
    split; [apply round_three_places | apply round_old_decimals].
Qed.

Lemma para_product_prices_have_three_decimals_witness :
  three_places (ParaProduct.bestPrice para_fine_product) /\
  (forall x, ParaProduct.originalPrice para_fine_product = Some x -> three_places x) /\
  (forall sp, sp ∈ ParaProduct.shopPrices para_fine_product ->
     three_places (ShopPrice.price sp)).
Proof.
  apply (proj1 para_product_prices_have_three_decimals para_fine "" false).
  vm_compute. reflexivity.
Defined.

(** ** The single-shop normalisers *)

(** X9: a single-shop product is in stock exactly when its record holds
    available = true, and it has an originalPrice exactly when the record
    holds an old price that is neither null nor zero: that old price as a
    double in the general retail normaliser, the double rounded to three
    places in the parapharmacy one. *)
Theorem single_shop_stock_and_original_price (p : ShopDoc.t) (shop_name : string) :
  (forall prod, parse_single_shop_product p shop_name = Ok prod ->
     (Product.inStock prod = true <-> ShopDoc.available p = Val true) /\
     old_price_shown (ShopDoc.old_price p) (Product.originalPrice prod)) /\
  (forall prod, parse_single_para_shop_product p shop_name = Ok prod ->
     (ParaProduct.inStock prod = true <-> ShopDoc.available p = Val true) /\
     (forall x, ParaProduct.originalPrice prod = Some x <->
        exists old, ShopDoc.old_price p = Val old /\ nonzero old /\
                    x = round (float old) 3)).
Proof.
  split; intros prod H.
  - unfold parse_single_shop_product in H.
    inv_bind H. inv_bind H. inv_bind H. inv_bind H. inv_bind H. injection H as <-.
    simpl. split; [apply available_of_true | intros o; apply truthy_old_price].
  - unfold parse_single_para_shop_product in H.
    inv_bind H. inv_bind H. inv_bind H. inv_bind H. injection H as <-.
    simpl. split; [apply available_of_true|].
    intros y. unfold round_old.
    destruct (old_price_of (ShopDoc.old_price p)) as [o|] eqn:E.
    + apply truthy_old_price in E as (old & Eo & Hne & ->).
      assert (Ht : truthy (Some (float old)) = true).
      { unfold truthy, truthy_option. fold (truthy (float old)).
        rewrite truthy_float. now apply truthy_number_spec. }
      rewrite Ht. simpl. split.
      * intros [= <-]. eauto.
      * intros (old' & Eo' & _ & ->). congruence.
    + simpl. split; [discriminate|].
      intros (old & Eo & Hne & _).
      assert (old_price_of (ShopDoc.old_price p) = Some (float old))
        by (apply truthy_old_price; eauto).
      congruence.
Qed.

Lemma single_shop_stock_and_original_price_witness :
  (Product.inStock discounted_product = true <->
   ShopDoc.available discounted_doc = Val true) /\
  old_price_shown (ShopDoc.old_price discounted_doc)
                  (Product.originalPrice discounted_product).
Proof.
  apply (proj1 (single_shop_stock_and_original_price discounted_doc "mytek")
               discounted_product).
  vm_compute. reflexivity.
Defined.

(** X10: a single-shop normaliser raises exactly on an explicit null.  A
    null price is a TypeError; with a usable price, null images are a
    TypeError in the general retail normaliser only (the parapharmacy one
    falls back to the placeholder); a null title or brand is then a
    ValidationError. *)
Theorem single_shop_normaliser_raises_on_null (p : ShopDoc.t) (shop_name : string) :
  (ShopDoc.price p = Null ->
     parse_single_shop_product p shop_name = Raise TypeError /\
     parse_single_para_shop_product p shop_name = Raise TypeError) /\
  (ShopDoc.price p <> Null -> ShopDoc.images p = Null ->
     parse_single_shop_product p shop_name = Raise TypeError) /\
  (ShopDoc.price p <> Null -> ShopDoc.images p <> Null ->
   ShopDoc.title p = Null \/ ShopDoc.brand p = Null ->
     parse_single_shop_product p shop_name = Raise ValidationError) /\
  (ShopDoc.price p <> Null ->
   ShopDoc.title p = Null \/ ShopDoc.brand p = Null ->
     parse_single_para_shop_product p shop_name = Raise ValidationError) /\
  (ShopDoc.price p <> Null -> ShopDoc.images p = Null ->
   ShopDoc.title p <> Null -> ShopDoc.brand p <> Null ->
   ShopDoc.description p <> Null ->
     exists prod, parse_single_para_shop_product p shop_name = Ok prod /\
                  ParaProduct.image prod = PLACEHOLDER).
Proof.
  unfold parse_single_shop_product, parse_single_para_shop_product,
    single_retail_image, single_para_image.
  destruct (ShopDoc.price p) as [| |q], (ShopDoc.images p) as [| |imgs],
    (ShopDoc.title p) as [| |t], (ShopDoc.brand p) as [| |[|c b]],
    (ShopDoc.description p) as [| |d]; simpl;
    repeat split; intros; try congruence;
    repeat match goal with
           | H : _ \/ _ |- _ => destruct H
           end; try congruence; eauto.
Qed.

Lemma single_shop_normaliser_raises_on_null_witness :
  parse_single_shop_product null_price_doc "mytek" = Raise TypeError /\
  parse_single_para_shop_product null_price_doc "parashop" = Raise TypeError.
Proof.
  apply (proj1 (single_shop_normaliser_raises_on_null null_price_doc "mytek")).
  reflexivity.
Defined.

(** ** Size and order of the search results *)

Section SearchOrder.
Context {P : Type}.
Variable to_result : P -> SearchResult.t.
Variable parse_merged : Raw.t -> result P.
Variable parse_single : ShopDoc.t -> string -> result P.

Local Abbreviation result_of := (source_result to_result parse_merged parse_single).

Lemma scan_merged_order docs st st' :
  scan_merged to_result parse_merged docs st = Ok st' ->
  exists rs,
    Forall2 (fun p r => result_of (FromMerged p) = Ok r)
            (fresh_docs Raw.sku docs st.2) rs /\
    st'.1 = st.1 ++ rs.
Proof.
  revert st. induction docs as [|p docs IH]; intros st H; simpl in H.
  - injection H as <-. exists []. split; [constructor | now rewrite app_nil_r].
  - cbn [fresh_docs]. destruct (fresh_sku (Raw.sku p) st.2) as [k|].
    + inv_bind H. apply IH in H as (rs & Hres & E). simpl in E, Hres.
      exists (to_result x :: rs). split.
      * constructor; [|assumption]. simpl. now rewrite Hx.
      * now rewrite E, <- app_assoc.
    + now apply IH in H.
Qed.

Lemma scan_details_order limit shop_name docs st st' :
  scan_details to_result parse_single limit shop_name docs st = Ok st' ->
  exists ss rs,
    Forall2 (fun (s : string * ShopDoc.t) r => result_of (FromShop s.1 s.2) = Ok r) ss rs /\
    Forall (fun s : string * ShopDoc.t => s.1 = shop_name /\ s.2 ∈ docs) ss /\
    st'.1 = st.1 ++ rs.
Proof.
  revert st. induction docs as [|p docs IH]; intros st H; simpl in H.
  - injection H as <-. exists [], [].
    split; [constructor|]. split; [constructor | now rewrite app_nil_r].
  - assert (Hweak : forall ss : list (string * ShopDoc.t),
              Forall (fun s => s.1 = shop_name /\ s.2 ∈ docs) ss ->
              Forall (fun s => s.1 = shop_name /\ s.2 ∈ p :: docs) ss).
    { intros ss Hss. eapply Forall_impl; [exact Hss|]. intros s [E Hin].
      split; [assumption | now apply list_elem_of_further]. }
    destruct (fresh_sku (ShopDoc.sku p) st.2) as [k|].
    + inv_bind H.
      assert (Hone : result_of (FromShop (shop_name, p).1 (shop_name, p).2) =
                     Ok (to_result x)) by (simpl; now rewrite Hx).
      assert (Hhere : (shop_name, p).1 = shop_name /\ (shop_name, p).2 ∈ p :: docs)
        by (split; [reflexivity | apply list_elem_of_here]).
      destruct (len_ge _ limit).
      * injection H as <-. exists [(shop_name, p)], [to_result x].
        split; [now repeat constructor|].
        split; [now repeat constructor | reflexivity].
      * apply IH in H as (ss & rs & Hres & Hfrom & E). simpl in E.
        exists ((shop_name, p) :: ss), (to_result x :: rs).
        split; [now constructor|]. split; [|now rewrite E, <- app_assoc].
        constructor; [assumption | now apply Hweak].
    + apply IH in H as (ss & rs & Hres & Hfrom & E).
      exists ss, rs. split; [assumption|]. split; [now apply Hweak | assumption].
Qed.

Lemma scan_collections_order db query limit remaining colls st st' :
  scan_collections to_result parse_single db query limit remaining colls st = Ok st' ->
  exists ss rs,
    Forall2 (fun (s : string * ShopDoc.t) r => result_of (FromShop s.1 s.2) = Ok r) ss rs /\
    Forall (fun s : string * ShopDoc.t => yielded colls db query (FromShop s.1 s.2)) ss /\
    st'.1 = st.1 ++ rs.
Proof.
  revert st. induction colls as [|[shop_name collection_name] colls IH];
    intros st H; simpl in H.
  - injection H as <-. exists [], [].
    split; [constructor|]. split; [constructor | now rewrite app_nil_r].
  - destruct (len_ge st limit).
    + injection H as <-. exists [], [].
      split; [constructor|]. split; [constructor | now rewrite app_nil_r].
    + inv_bind H. inv_bind H.
      apply scan_details_order in Hx0 as (ss1 & rs1 & Hres1 & Hfrom1 & E1).
      apply IH in H as (ss2 & rs2 & Hres2 & Hfrom2 & E2).
      exists (ss1 ++ ss2), (rs1 ++ rs2).
      split; [now apply Forall2_app|]. split; [|now rewrite E2, E1, <- app_assoc].
      apply Forall_app. split.
      * eapply Forall_impl; [exact Hfrom1|]. intros s [Es Hin]. simpl.
        exists collection_name, remaining, x.
        split; [rewrite Es; apply list_elem_of_here | now split].
      * eapply Forall_impl; [exact Hfrom2|]. intros s (c & n & docs & Hc & Hq & Hin).
        exists c, n, docs. split; [now apply list_elem_of_further | now split].
Qed.

Lemma search_with_order details db query limit results :
  search_with to_result parse_merged parse_single details db query limit = Ok results ->
  exists docs ss from_merged from_details,
    Database.find_merged db query limit = Ok docs /\
    merged_then_details to_result parse_merged parse_single
                        (fresh_docs Raw.sku docs ∅) ss from_merged from_details /\
    Forall (fun s : string * ShopDoc.t =>
              yielded details db query (FromShop s.1 s.2)) ss /\
    results = py_slice_to (from_merged ++ from_details) limit /\
    (limit <= Z.of_nat (length from_merged) -> from_details = []).
Proof.
  unfold search_with. intros H. inv_bind H. inv_bind H. inv_bind H.
  injection H as <-.
  apply scan_merged_order in Hx0 as (rs & Hres & E). simpl in E, Hres.
  unfold len_ge in Hx1. rewrite E in Hx1.
  destruct (limit <=? Z.of_nat (length rs)) eqn:El; simpl in Hx1.
  - injection Hx1 as <-. exists x, [], rs, [].
    split; [assumption|]. split; [split; [assumption | constructor]|].
    split; [constructor|]. split; [now rewrite E, app_nil_r | reflexivity].
  - apply scan_collections_order in Hx1 as (ss & rs' & Hres' & Hfrom & E').
    exists x, ss, rs, rs'.
    split; [assumption|]. split; [split; assumption|]. split; [assumption|].
    split; [now rewrite E', E|].
    intros Hle. apply Z.leb_gt in El. lia.
Qed.

Lemma search_with_length details db query limit results :
  0 <= limit ->
  search_with to_result parse_merged parse_single details db query limit = Ok results ->
  Z.of_nat (length results) <= limit.
Proof.
  intros Hl H. unfold search_with in H. inv_bind H. inv_bind H. inv_bind H.
  injection H as <-. unfold py_slice_to.
  apply Z.leb_le in Hl. rewrite Hl. rewrite length_take. lia.
Qed.
End SearchOrder.

(** X11: a search with a limit that is not negative returns at most
    [limit] results. *)
Theorem search_returns_at_most_limit (db : Database.t) (query : string) (limit : Z) :
  0 <= limit ->
  (forall results, search_products db query limit = Ok results ->
     Z.of_nat (length results) <= limit) /\
  (forall results, search_para_products db query limit = Ok results ->
     Z.of_nat (length results) <= limit).
Proof.
  intros Hl. split; intros results H; now apply search_with_length in H.
Qed.

Lemma search_returns_at_most_limit_witness :
  Z.of_nat (length [product_result two_shops_product]) <= 10.
Proof.
  apply (proj1 (search_returns_at_most_limit repeating_db "lap" 10 ltac:(lia))).
  vm_compute. reflexivity.
Defined.

(** X12: the results of a search are those of the documents of the
    merged cursor that carry a non-empty SKU no earlier document of the
    cursor carries, in cursor order, followed by those of documents the
    details cursors handed out, cut at [limit]; when the merged documents
    alone give [limit] results, no details document contributes. *)
Theorem search_lists_merged_results_first (db : Database.t) (query : string) (limit : Z) :
  (forall results, search_products db query limit = Ok results ->
     exists docs ss from_merged from_details,
       Database.find_merged db query limit = Ok docs /\
       merged_then_details product_result (fun p => parse_product p "" false)
                           parse_single_shop_product
                           (fresh_docs Raw.sku docs ∅) ss from_merged from_details /\
       Forall (fun s : string * ShopDoc.t =>
                 yielded RETAIL_DETAILS db query (FromShop s.1 s.2)) ss /\
       results = py_slice_to (from_merged ++ from_details) limit /\
       (limit <= Z.of_nat (length from_merged) -> from_details = [])) /\
  (forall results, search_para_products db query limit = Ok results ->
     exists docs ss from_merged from_details,
       Database.find_merged db query limit = Ok docs /\
       merged_then_details para_product_result (fun p => parse_para_product p "" false)
                           parse_single_para_shop_product
                           (fresh_docs Raw.sku docs ∅) ss from_merged from_details /\
       Forall (fun s : string * ShopDoc.t =>
                 yielded PARA_DETAILS db query (FromShop s.1 s.2)) ss /\
       results = py_slice_to (from_merged ++ from_details) limit /\
       (limit <= Z.of_nat (length from_merged) -> from_details = [])).
Proof. split; intros results H; now apply search_with_order in H. Qed.

Lemma search_lists_merged_results_first_witness :
  exists docs ss from_merged from_details,
    Database.find_merged mixed_db "lap" 10 = Ok docs /\
    merged_then_details product_result (fun p => parse_product p "" false)
                        parse_single_shop_product
                        (fresh_docs Raw.sku docs ∅) ss from_merged from_details /\
    Forall (fun s : string * ShopDoc.t =>
              yielded RETAIL_DETAILS mixed_db "lap" (FromShop s.1 s.2)) ss /\
    [product_result two_shops_product; product_result discounted_product] =
      py_slice_to (from_merged ++ from_details) 10 /\
    (10 <= Z.of_nat (length from_merged) -> from_details = []).
Proof.
  apply (proj1 (search_lists_merged_results_first mixed_db "lap" 10)).
  vm_compute. reflexivity.
Defined.

(** X13: when the merged collection alone fills the limit, the details
    collections are not queried: the search succeeds although every
    details query would raise. *)
Theorem search_skips_details_when_full (db : Database.t) (query : string) (limit : Z)
    (docs : list Raw.t) (st : search_state) :
  Database.find_merged db query limit = Ok docs ->
  scan_merged product_result (fun p => parse_product p "" false) docs ([], ∅) = Ok st ->
  limit <= Z.of_nat (length st.1) ->
  search_products db query limit = Ok (py_slice_to st.1 limit) /\
  search_products (Database.mk (Database.find_merged db)
                               (fun _ _ _ => Raise QueryError)
                               (Database.aggregate db)) query limit =
    Ok (py_slice_to st.1 limit).
Proof.
  intros Hfind Hscan Hfull. unfold search_products, search_with. simpl.
  rewrite Hfind. simpl. rewrite Hscan. simpl.
  unfold len_ge. apply Z.leb_le in Hfull. rewrite Hfull. simpl. auto.
Qed.

Lemma search_skips_details_when_full_witness :
  search_products merged_only_db "lap" 1 = Ok [product_result two_shops_product].
Proof.
  apply (proj1 (search_skips_details_when_full merged_only_db "lap" 1 [two_shops]
                  one_result_state
                  eq_refl ltac:(vm_compute; reflexivity) ltac:(simpl; lia))).
Defined.

(** ** The page a listing returns *)

Lemma parse_all_Forall2 {P : Type} (parse : Raw.t -> result P) docs products :
  parse_all parse docs = Ok products ->
  Forall2 (fun d prod => parse d = Ok prod) docs products.
Proof.
  revert products. induction docs as [|d docs IH]; intros products H; simpl in H.
  - injection H as <-. constructor.
  - inv_bind H. inv_bind H. injection H as <-. constructor; auto.
Qed.

Lemma parse_all_Raise {P : Type} (parse : Raw.t -> result P) docs d e :
  d ∈ docs -> parse d = Raise e -> exists e', parse_all parse docs = Raise e'.
Proof.
  intros Hin Hd. induction docs as [|d' docs IH]; [now apply elem_of_nil in Hin|].
  simpl. apply elem_of_cons in Hin as [<-|Hin].
  - rewrite Hd. simpl. eauto.
  - destruct (parse d') as [x|e0]; simpl; [|eauto].
    destruct (IH Hin) as (e' & ->). simpl. eauto.
Qed.

Lemma listing_try_Ok {P : Type} (parse : Raw.t -> result P) answer page limit resp :
  listing_try parse answer page limit = Ok resp ->
  exists r rest docs,
    answer = Ok (r :: rest) /\
    get_default (FacetResult.products r) [] = Some docs /\
    Forall2 (fun d prod => parse d = Ok prod) docs (ListResponse.products resp) /\
    ListResponse.total resp =
      match get_default (FacetResult.metadata r) [] with
      | Some (t :: _) => t
      | Some [] | None => 0
      end /\
    ListResponse.page resp = page /\ ListResponse.limit resp = limit.
Proof.
  unfold listing_try. intros H.
  inv_bind H. inv_bind H. inv_bind H. inv_bind H. injection H as <-. simpl.
  destruct x as [|r rest]; [discriminate|]. injection Hx0 as <-.
  destruct (get_default (FacetResult.products r) []) as [docs|] eqn:Ed; [|discriminate].
  exists r, rest, docs.
  split; [assumption|]. split; [assumption|].
  split; [now apply parse_all_Forall2|]. auto.
Qed.

(** X14: when the [try] block of a listing runs to its end, the page holds
    the normalisation, without specifications, of each document of the
    slice the database returned, in the order of the slice; total is the
    count of the first metadata document (0 when there is none), and page
    and limit are the requested ones. *)
Theorem listing_page_is_the_normalised_slice (db : Database.t)
    (category : option string) (category_type : string) (search : option string)
    (min_price max_price : option number) (in_stock_only : bool) (page limit : Z) :
  let answer := Database.aggregate db
                  (retail_pipeline category category_type search
                                   min_price max_price in_stock_only page limit) in
  forall resp,
    listing_try (fun p => parse_product p "" false) answer page limit = Ok resp ->
    exists r rest docs,
      answer = Ok (r :: rest) /\
      get_default (FacetResult.products r) [] = Some docs /\
      Forall2 (fun d prod => parse_product d "" false = Ok prod /\
                             Product.specifications prod = None)
              docs (ListResponse.products resp) /\
      ListResponse.total resp =
        match get_default (FacetResult.metadata r) [] with
        | Some (t :: _) => t
        | Some [] | None => 0
        end /\
      ListResponse.page resp = page /\ ListResponse.limit resp = limit /\
      get_products_listing db category category_type search
                           min_price max_price in_stock_only page limit = resp.
Proof.
  intros answer resp H.
  pose proof (listing_with_Ok _ _ _ _ _ _ _ _ _ _ _ _ H) as Hresp.
  apply listing_try_Ok in H as (r & rest & docs & Ha & Hd & Hall & Ht & Hp & Hl).
  exists r, rest, docs. repeat split; try assumption.
  eapply Forall2_impl; [exact Hall|]. intros d prod Hd'. split; [assumption|].
  now apply parse_product_fields in Hd' as (sd & _ & _ & Hs & _).
Qed.

Lemma listing_page_is_the_normalised_slice_witness :
  get_products_listing paging_db None "subcategory" None None None false 3 20 =
  ListResponse.mk [two_shops_product] 41 3 20 3.
Proof.
  destruct (listing_page_is_the_normalised_slice paging_db None "subcategory" None
              None None false 3 20 (ListResponse.mk [two_shops_product] 41 3 20 3)
              ltac:(vm_compute; reflexivity))
    as (r & rest & docs & _ & _ & _ & _ & _ & _ & E).
  exact E.
Defined.

Lemma total_pages_of_positive (total limit pages : Z) :
  1 <= limit -> total_pages_of total limit = Ok pages -> 1 <= pages.
Proof.
  intros Hl. unfold total_pages_of, floordiv.
  destruct (0 <? total) eqn:Et; [|intros [= <-]; lia].
  destruct (limit =? 0); [discriminate|]. intros [= <-].
  apply Z.ltb_lt in Et. apply Z.div_le_lower_bound; lia.
Qed.

(** X15: with limit >= 1, a listing has totalPages = 0 exactly when its
    [try] block raised; a page built from an answer of the database has at
    least one page, even when nothing matches. *)
Theorem zero_total_pages_means_failure (db : Database.t)
    (category : option string) (category_type : string) (search : option string)
    (min_price max_price : option number) (in_stock_only : bool) (page limit : Z) :
  1 <= limit ->
  (ListResponse.totalPages
     (get_products_listing db category category_type search
                           min_price max_price in_stock_only page limit) = 0 <->
   exists e,
     listing_try (fun p => parse_product p "" false)
       (Database.aggregate db
          (retail_pipeline category category_type search
                           min_price max_price in_stock_only page limit))
       page limit = Raise e) /\
  (ListResponse.totalPages
     (get_para_products_listing db category category_type search
                                min_price max_price in_stock_only page limit) = 0 <->
   exists e,
     listing_try (fun p => parse_para_product p "" false)
       (Database.aggregate db
          (para_pipeline category category_type search
                         min_price max_price in_stock_only page limit))
       page limit = Raise e).
Proof.
  intros Hl. unfold get_products_listing, get_para_products_listing, listing_with,
    retail_pipeline, para_pipeline.
  split.
  - destruct (listing_try _ _ page limit) as [resp|e] eqn:E; simpl.
    + apply listing_try_pages, (total_pages_of_positive _ _ _ Hl) in E.
      split; [lia | intros (e & He); discriminate].
    + split; eauto.
  - destruct (listing_try _ _ page limit) as [resp|e] eqn:E; simpl.
    + apply listing_try_pages, (total_pages_of_positive _ _ _ Hl) in E.
      split; [lia | intros (e & He); discriminate].
    + split; eauto.
Qed.

Lemma zero_total_pages_means_failure_witness :
  ListResponse.totalPages
    (get_products_listing failing_db None "subcategory" None None None false 1 20) = 0 <->
  exists e,
    listing_try (fun p => parse_product p "" false)
      (Database.aggregate failing_db
         (retail_pipeline None "subcategory" None None None false 1 20))
      1 20 = Raise e.
Proof.
  apply (proj1 (zero_total_pages_means_failure failing_db None "subcategory" None
                  None None false 1 20 ltac:(lia))).
Defined.

(** X16: one document of the slice that does not normalise (shops or title
    holding null) costs the whole page: the listing returns the empty page
    with total 0, whatever the other documents and the count are. *)
Theorem one_bad_document_empties_the_page (db : Database.t)
    (category : option string) (category_type : string) (search : option string)
    (min_price max_price : option number) (in_stock_only : bool) (page limit : Z)
    (r : FacetResult.t) (rest : list FacetResult.t) (docs : list Raw.t) (d : Raw.t) :
  FacetResult.products r = Val docs -> d ∈ docs ->
  Raw.shops d = Null \/ Raw.title d = Null ->
  (Database.aggregate db
     (retail_pipeline category category_type search
                      min_price max_price in_stock_only page limit) = Ok (r :: rest) ->
   get_products_listing db category category_type search
                        min_price max_price in_stock_only page limit =
   ListResponse.mk [] 0 page limit 0) /\
  (Database.aggregate db
     (para_pipeline category category_type search
                    min_price max_price in_stock_only page limit) = Ok (r :: rest) ->
   get_para_products_listing db category category_type search
                             min_price max_price in_stock_only page limit =
   ListResponse.mk [] 0 page limit 0).
Proof.
  intros Hdocs Hin Hbad.
  destruct (merged_raises_on_null d "" false Hbad) as [Hretail Hpara].
  unfold get_products_listing, get_para_products_listing, listing_with,
    retail_pipeline, para_pipeline, listing_try.
  split; intros ->; simpl; rewrite Hdocs; simpl.
  - destruct Hretail as (e & He).
    destruct (parse_all_Raise (fun p => parse_product p "" false) docs d e Hin He)
      as (e' & ->).
    now destruct (total_pages_of _ limit).
  - destruct Hpara as (e & He).
    destruct (parse_all_Raise (fun p => parse_para_product p "" false) docs d e Hin He)
      as (e' & ->).
    now destruct (total_pages_of _ limit).
Qed.

Lemma one_bad_document_empties_the_page_witness :
  get_products_listing spoiled_db None "subcategory" None None None false 1 20 =
  ListResponse.mk [] 0 1 20 0.
Proof.
  apply (proj1 (one_bad_document_empties_the_page spoiled_db None "subcategory" None
                  None None false 1 20
                  (FacetResult.mk (Val [2]) (Val [two_shops; null_title_raw])) []
                  [two_shops; null_title_raw] null_title_raw eq_refl
                  ltac:(apply list_elem_of_further, list_elem_of_here)
                  ltac:(right; reflexivity))).
  reflexivity.
Defined.

(** ** The pipeline a listing sends *)

Lemma conditions_listing_pipeline match_field category category_type search
    min_price max_price in_stock_only page limit :
  conditions (listing_pipeline match_field category category_type search
                               min_price max_price in_stock_only page limit) =
  match_stage match_field category category_type search ++
  filter_stage min_price max_price in_stock_only.
Proof.
  unfold conditions, listing_pipeline. simpl.
  destruct (filter_stage min_price max_price in_stock_only) as [|c l]; simpl;
    now rewrite ?app_nil_r.
Qed.

Lemma field_condition_of_pipeline match_field category category_type search
    min_price max_price in_stock_only page limit f v :
  FieldEq f v ∈ conditions (listing_pipeline match_field category category_type search
                              min_price max_price in_stock_only page limit) ->
  f = match_field category_type /\ category = Some v /\ v <> "".
Proof.
  rewrite conditions_listing_pipeline, elem_of_app.
  unfold match_stage, filter_stage. intros [H|H].
  - apply elem_of_app in H as [H|H].
    + destruct category as [[|c s]|]; simpl in H; try now apply elem_of_nil in H.
      apply list_elem_of_singleton in H. injection H as -> ->. now repeat split.
    + destruct search as [[|c s]|]; simpl in H; try now apply elem_of_nil in H.
      now apply list_elem_of_singleton in H.
  - destruct min_price, max_price, in_stock_only; simpl in H;
      repeat (apply elem_of_cons in H as [H|H]; [discriminate|]);
      now apply elem_of_nil in H.
Qed.

(** X17: the only document field a listing matches on by equality is a
    category field of a fixed list, whatever string the caller passes as
    category_type: subcategory or low_category in the general retail
    listing; top_category, low_category or subcategory in the parapharmacy
    listing.  The value matched is the requested category, which is not
    empty. *)
Theorem listing_matches_only_category_fields
    (category : option string) (category_type : string) (search : option string)
    (min_price max_price : option number) (in_stock_only : bool) (page limit : Z)
    (f v : string) :
  (FieldEq f v ∈ conditions (retail_pipeline category category_type search
                               min_price max_price in_stock_only page limit) ->
   f ∈ ["subcategory"; "low_category"] /\ category = Some v /\ v <> "") /\
  (FieldEq f v ∈ conditions (para_pipeline category category_type search
                               min_price max_price in_stock_only page limit) ->
   f ∈ ["top_category"; "low_category"; "subcategory"] /\
   category = Some v /\ v <> "").
Proof.
  split; intros H; apply field_condition_of_pipeline in H as (-> & Hc & Hv);
    (split; [|now split]).
  - unfold retail_match_field. case_bool_decide; [assumption|].
    apply list_elem_of_here.
  - unfold get_category_field.
    repeat match goal with
           | |- context [String.eqb ?a ?b] => destruct (String.eqb a b)
           end; set_solver.
Qed.

Lemma listing_matches_only_category_fields_witness :
  "subcategory" ∈ ["subcategory"; "low_category"] /\
  Some "laptops" = Some "laptops" /\ "laptops" <> "".
Proof.
  apply (proj1 (listing_matches_only_category_fields (Some "laptops")
                  "title; drop" None None None false 1 20 "subcategory" "laptops")).
  vm_compute. apply list_elem_of_here.
Defined.

(** X18: the filters of a listing reach the pipeline exactly as given: a
    lower price bound, an upper price bound, the stock condition and the
    text pattern occur among its conditions exactly when the request
    carries them (the pattern when it is not empty); the pipeline ends
    with the facet that skips (page - 1) * limit documents and keeps
    limit. *)
Theorem listing_pipeline_carries_the_filters (match_field : string -> string)
    (category : option string) (category_type : string) (search : option string)
    (min_price max_price : option number) (in_stock_only : bool) (page limit : Z) :
  let pipeline := listing_pipeline match_field category category_type search
                                   min_price max_price in_stock_only page limit in
  (forall q, BestPriceGte q ∈ conditions pipeline <-> min_price = Some q) /\
  (forall q, BestPriceLte q ∈ conditions pipeline <-> max_price = Some q) /\
  (DerivedInStock ∈ conditions pipeline <-> in_stock_only = true) /\
  (forall s, TitleOrSkuRegex s ∈ conditions pipeline <-> search = Some s /\ s <> "") /\
  last pipeline = Some (Facet ((page - 1) * limit) limit).
Proof.
  intros pipeline. subst pipeline.
  rewrite conditions_listing_pipeline.
  unfold match_stage, filter_stage, listing_pipeline.
  repeat split.
  - rewrite !elem_of_app. intros [[H|H]|[H|[H|H]]].
    + destruct category as [[|c s]|]; simpl in H; try now apply elem_of_nil in H.
      now apply list_elem_of_singleton in H.
    + destruct search as [[|c s]|]; simpl in H; try now apply elem_of_nil in H.
      now apply list_elem_of_singleton in H.
    + destruct min_price; [|now apply elem_of_nil in H].
      apply list_elem_of_singleton in H. congruence.
    + destruct max_price; [|now apply elem_of_nil in H].
      now apply list_elem_of_singleton in H.
    + destruct in_stock_only; [|now apply elem_of_nil in H].
      now apply list_elem_of_singleton in H.
  - intros ->. rewrite !elem_of_app. right. left. apply list_elem_of_here.
  - rewrite !elem_of_app. intros [[H|H]|[H|[H|H]]].
    + destruct category as [[|c s]|]; simpl in H; try now apply elem_of_nil in H.
      now apply list_elem_of_singleton in H.
    + destruct search as [[|c s]|]; simpl in H; try now apply elem_of_nil in H.
      now apply list_elem_of_singleton in H.
    + destruct min_price; [|now apply elem_of_nil in H].
      now apply list_elem_of_singleton in H.
    + destruct max_price; [|now apply elem_of_nil in H].
      apply list_elem_of_singleton in H. congruence.
    + destruct in_stock_only; [|now apply elem_of_nil in H].
      now apply list_elem_of_singleton in H.
  - intros ->. rewrite !elem_of_app. right. right. left. apply list_elem_of_here.
  - rewrite !elem_of_app. intros [[H|H]|[H|[H|H]]].
    + destruct category as [[|c s]|]; simpl in H; try now apply elem_of_nil in H.
      now apply list_elem_of_singleton in H.
    + destruct search as [[|c s]|]; simpl in H; try now apply elem_of_nil in H.
      now apply list_elem_of_singleton in H.
    + destruct min_price; [|now apply elem_of_nil in H].
      now apply list_elem_of_singleton in H.
    + destruct max_price; [|now apply elem_of_nil in H].
      now apply list_elem_of_singleton in H.
    + now destruct in_stock_only; [|apply elem_of_nil in H].
  - intros ->. rewrite !elem_of_app. right. right. right. apply list_elem_of_here.
  - rewrite !elem_of_app in H. destruct H as [[H|H]|[H|[H|H]]].
    + destruct category as [[|c s']|]; simpl in H; try now apply elem_of_nil in H.
      now apply list_elem_of_singleton in H.
    + destruct search as [[|c s']|]; simpl in H; try now apply elem_of_nil in H.
      apply list_elem_of_singleton in H. congruence.
    + destruct min_price; [|now apply elem_of_nil in H].
      now apply list_elem_of_singleton in H.
    + destruct max_price; [|now apply elem_of_nil in H].
      now apply list_elem_of_singleton in H.
    + destruct in_stock_only; [|now apply elem_of_nil in H].
      now apply list_elem_of_singleton in H.
  - rewrite !elem_of_app in H. destruct H as [[H|H]|[H|[H|H]]].
    + destruct category as [[|c s']|]; simpl in H; try now apply elem_of_nil in H.
      now apply list_elem_of_singleton in H.
    + destruct search as [[|c s']|]; simpl in H; try now apply elem_of_nil in H.
      apply list_elem_of_singleton in H. injection H as ->. discriminate.
    + destruct min_price; [|now apply elem_of_nil in H].
      now apply list_elem_of_singleton in H.
    + destruct max_price; [|now apply elem_of_nil in H].
      now apply list_elem_of_singleton in H.
    + destruct in_stock_only; [|now apply elem_of_nil in H].
      now apply list_elem_of_singleton in H.
  - intros [-> Hs]. rewrite !elem_of_app. left. right.
    destruct s as [|c s]; [congruence|]. apply list_elem_of_here.
  - destruct (truthy _); now rewrite ?app_nil_l, ?last_app, ?last_cons.
Qed.

(** * Properties of the other accessors *)

(** ** Lookup by SKU and by id *)

Section LookupFacts.
Context {P : Type}.
Variable parse_merged : Raw.t -> result P.
Variable parse_single : ShopDoc.t -> string -> result P.

Lemma lookup_details_Some st key colls prod :
  lookup_details parse_single st key colls = Ok (Some prod) <->
  exists shop_name doc, first_hit st key colls shop_name doc /\
                        parse_single doc shop_name = Ok prod.
Proof.
  induction colls as [|[s c] colls IH]; simpl.
  - split; [discriminate|].
    intros (s & doc & (pre & c & post & E & _) & _). now destruct pre.
  - destruct (Store.find_one_details st c key) as [[doc|]|e] eqn:Ef; simpl.
    + split.
      * intros H. inv_bind H. injection H as <-.
        exists s, doc. split; [|assumption].
        exists [], c, colls. repeat split; [constructor | assumption].
      * intros (s' & doc' & (pre & c' & post & E & Hpre & Hhit) & Hp).
        destruct pre as [|[s0 c0] pre]; simpl in E; injection E as -> -> ->.
        -- rewrite Ef in Hhit. injection Hhit as <-. now rewrite Hp.
        -- apply Forall_cons in Hpre as [Hc _]. simpl in Hc. congruence.
    + rewrite IH. split.
      * intros (s' & doc' & (pre & c' & post & -> & Hpre & Hhit) & Hp).
        exists s', doc'. split; [|assumption].
        exists ((s, c) :: pre), c', post. repeat split; [|assumption].
        now constructor.
      * intros (s' & doc' & (pre & c' & post & E & Hpre & Hhit) & Hp).
        destruct pre as [|[s0 c0] pre]; simpl in E; injection E as -> -> ->.
        -- congruence.
        -- apply Forall_cons in Hpre as [_ Hpre].
           exists s', doc'. split; [|assumption]. exists pre, c', post. auto.
    + split; [discriminate|].
      intros (s' & doc' & (pre & c' & post & E & Hpre & Hhit) & Hp).
      destruct pre as [|[s0 c0] pre]; simpl in E; injection E as -> -> ->.
      * congruence.
      * apply Forall_cons in Hpre as [Hc _]. simpl in Hc. congruence.
Qed.

Lemma lookup_details_None st key colls :
  lookup_details parse_single st key colls = Ok None <-> no_hit st key colls.
Proof.
  unfold no_hit. induction colls as [|[s c] colls IH]; simpl.
  - split; [constructor | reflexivity].
  - rewrite Forall_cons. simpl.
    destruct (Store.find_one_details st c key) as [[doc|]|e]; simpl.
    + split; [|intros [? _]; discriminate].
      intros H. inv_bind H. discriminate.
    + rewrite IH. tauto.
    + split; [discriminate | intros [? _]; discriminate].
Qed.

Lemma lookup_with_Some st key colls prod :
  lookup_with parse_merged parse_single st key colls = Ok (Some prod) <->
  (exists doc, Store.find_one_merged st key = Ok (Some doc) /\
               parse_merged doc = Ok prod) \/
  (Store.find_one_merged st key = Ok None /\
   exists shop_name doc, first_hit st key colls shop_name doc /\
                         parse_single doc shop_name = Ok prod).
Proof.
  unfold lookup_with.
  destruct (Store.find_one_merged st key) as [[doc|]|e]; simpl.
  - split.
    + intros H. inv_bind H. injection H as <-. left. eauto.
    + intros [(doc' & [= <-] & ->)|[? _]]; [reflexivity | discriminate].
  - rewrite lookup_details_Some. split; [auto|].
    intros [(doc' & ? & _)|[_ H]]; [discriminate | assumption].
  - split; [discriminate|]. intros [(doc' & ? & _)|[? _]]; discriminate.
Qed.

Lemma lookup_with_None st key colls :
  lookup_with parse_merged parse_single st key colls = Ok None <->
  Store.find_one_merged st key = Ok None /\ no_hit st key colls.
Proof.
  unfold lookup_with.
  destruct (Store.find_one_merged st key) as [[doc|]|e]; simpl.
  - split; [|intros [? _]; discriminate]. intros H. inv_bind H. discriminate.
  - rewrite lookup_details_None. tauto.
  - split; [discriminate | intros [? _]; discriminate].
Qed.
End LookupFacts.

(** X19: a lookup by SKU returns the normalisation, with specifications,
    of the merged document when there is one; otherwise that of the
    document of the first details collection, in the fixed order, that
    holds one; and nothing else. *)
Theorem lookup_returns_the_first_match (st : Store.t) (sku : string) :
  (forall prod, get_product_by_sku st sku = Ok (Some prod) <->
     (exists doc, Store.find_one_merged st (BySku sku) = Ok (Some doc) /\
                  parse_product doc "" true = Ok prod) \/
     (Store.find_one_merged st (BySku sku) = Ok None /\
      exists shop_name doc, first_hit st (BySku sku) RETAIL_DETAILS shop_name doc /\
                            parse_single_shop_product doc shop_name = Ok prod)) /\
  (forall prod, get_para_product_by_sku st sku = Ok (Some prod) <->
     (exists doc, Store.find_one_merged st (BySku sku) = Ok (Some doc) /\
                  parse_para_product doc "" true = Ok prod) \/
     (Store.find_one_merged st (BySku sku) = Ok None /\
      exists shop_name doc, first_hit st (BySku sku) PARA_DETAILS shop_name doc /\
                            parse_single_para_shop_product doc shop_name = Ok prod)).
Proof. split; intros prod; apply lookup_with_Some. Qed.

(** X20: a product a lookup finds in the merged collection carries a
    specification mapping; a product it finds in a details collection has
    exactly one price entry, which carries its bestPrice. *)
Theorem lookup_product_shape (st : Store.t) (sku : string) (prod : Product.t) :
  get_product_by_sku st sku = Ok (Some prod) ->
  (forall doc, Store.find_one_merged st (BySku sku) = Ok (Some doc) ->
     exists m, Product.specifications prod = Some m) /\
  (Store.find_one_merged st (BySku sku) = Ok None ->
     exists sp, Product.shopPrices prod = [sp] /\
                Product.bestPrice prod = ShopPrice.price sp).
Proof.
  intros H. apply lookup_with_Some in H as [(doc & Hm & Hp)|(Hm & s & doc & _ & Hp)].
  - split; [|congruence]. intros _ _.
    apply parse_product_fields in Hp as (sd & _ & _ & Hs & _). eauto.
  - split; [congruence|]. intros _.
    apply parse_single_shop_product_inv in Hp as (price & _ & Hb & Hs). eauto.
Qed.

Lemma lookup_product_shape_witness :
  exists sp, Product.shopPrices bare_spacenet_product = [sp] /\
             Product.bestPrice bare_spacenet_product = ShopPrice.price sp.
Proof.
  apply (proj2 (lookup_product_shape details_only_store "SKU-2" bare_spacenet_product
                  ltac:(vm_compute; reflexivity))).
  reflexivity.
Defined.

(** X21: the by-SKU routes answer 404 exactly when neither the merged
    collection nor any details collection holds a document (and no query
    raised before that); the by-id routes answer 404 also for every id
    [ObjectId] rejects, without a query. *)
Theorem not_found_means_absent_everywhere (object_id : string -> option string)
    (st : Store.t) (s : string) :
  (by_sku_route st s = HttpError 404 <->
     Store.find_one_merged st (BySku s) = Ok None /\
     no_hit st (BySku s) RETAIL_DETAILS) /\
  (para_by_sku_route st s = HttpError 404 <->
     Store.find_one_merged st (BySku s) = Ok None /\
     no_hit st (BySku s) PARA_DETAILS) /\
  (by_id_route object_id st s = HttpError 404 <->
     object_id s = None \/
     exists obj_id, object_id s = Some obj_id /\
       Store.find_one_merged st (ById obj_id) = Ok None /\
       no_hit st (ById obj_id) RETAIL_DETAILS) /\
  (para_by_id_route object_id st s = HttpError 404 <->
     object_id s = None \/
     exists obj_id, object_id s = Some obj_id /\
       Store.find_one_merged st (ById obj_id) = Ok None /\
       no_hit st (ById obj_id) PARA_DETAILS).
Proof.
  assert (H404 : forall A (r : result (option A)),
            found_or_404 r = HttpError 404 <-> r = Ok None).
  { intros A [[a|]|e]; simpl; split; congruence. }
  unfold by_sku_route, para_by_sku_route, by_id_route, para_by_id_route,
    get_product_by_sku, get_para_product_by_sku, get_product_by_id,
    get_para_product_by_id.
  rewrite !H404. split; [|split; [|split]].
  - apply lookup_with_None.
  - apply lookup_with_None.
  - destruct (object_id s) as [obj_id|]; [|split; [now left | reflexivity]].
    rewrite lookup_with_None. split; [right; eauto|].
    intros [|(o & [= <-] & H)]; [discriminate | assumption].
  - destruct (object_id s) as [obj_id|]; [|split; [now left | reflexivity]].
    rewrite lookup_with_None. split; [right; eauto|].
    intros [|(o & [= <-] & H)]; [discriminate | assumption].
Qed.

Lemma lookup_returns_the_first_match_witness :
  get_product_by_sku details_only_store "SKU-2" = Ok (Some bare_spacenet_product).
Proof.
  apply (proj1 (lookup_returns_the_first_match details_only_store "SKU-2")).
  right. split; [reflexivity|].
  exists "spacenet", bare_doc. split; [|vm_compute; reflexivity].
  exists [("mytek", "mytek_details")], "spacenet_details",
         [("tunisianet", "tunisianet_details")].
  repeat split. now repeat constructor.
Defined.

(** ** Distinct categories *)

Lemma insert_str_perm (x : string) (l : list string) : insert_str x l ≡ₚ x :: l.
Proof.
  induction l as [|y l IH]; simpl; [reflexivity|].
  destruct (String.leb x y); [reflexivity|].
  rewrite IH. apply perm_swap.
Qed.

Lemma sorted_perm (l : list string) : sorted l ≡ₚ l.
Proof.
  induction l as [|x l IH]; simpl; [reflexivity|].
  now rewrite insert_str_perm, IH.
Qed.

Lemma insert_str_sorted (x : string) (l : list string) :
  Sorted str_le l -> Sorted str_le (insert_str x l).
Proof.
  induction 1 as [|y l Hs IH Hhd]; simpl; [repeat constructor|].
  destruct (String.leb x y) eqn:E.
  - repeat constructor; assumption.
  - constructor; [assumption|].
    assert (Hyx : str_le y x).
    { destruct (String.leb_total x y) as [H|H]; [congruence | exact H]. }
    destruct l as [|z l]; simpl; [now repeat constructor|].
    destruct (String.leb x z); constructor; [assumption|].
    now inversion Hhd.
Qed.

Lemma sorted_Sorted (l : list string) : Sorted str_le (sorted l).
Proof.
  induction l as [|x l IH]; simpl; [constructor | now apply insert_str_sorted].
Qed.

Lemma elem_of_truthy_strings (categories : list (option string)) (c : string) :
  c ∈ truthy_strings categories <-> Some c ∈ categories /\ c <> "".
Proof.
  unfold truthy_strings. rewrite list_elem_of_omap. split.
  - intros ([[|a s]|] & Hin & E); simpl in E; try discriminate.
    injection E as <-. split; [assumption | discriminate].
  - intros [Hin Hne]. exists (Some c). split; [assumption|].
    destruct c; [congruence | reflexivity].
Qed.

Lemma distinct_categories_listing (st : Store.t) (field_name : string) :
  category_listing (Store.distinct st field_name) (distinct_categories st field_name).
Proof.
  unfold category_listing, distinct_categories.
  destruct (Store.distinct st field_name) as [categories|e].
  - split; [apply sorted_Sorted|]. split; [|split; [|discriminate]].
    + apply Forall_forall. intros c Hc. rewrite sorted_perm in Hc.
      now apply elem_of_truthy_strings in Hc.
    + intros cs [= <-]. split; [apply sorted_perm|].
      intros c. rewrite sorted_perm. apply elem_of_truthy_strings.
  - split; [constructor|]. split; [constructor|]. split; [discriminate | reflexivity].
Qed.

(** X22: each category accessor returns, in ascending order, exactly the
    non-empty strings among the distinct values of its field (null and the
    empty string are dropped, nothing else is), and the empty list when the
    query raises.  The parapharmacy accessor reads one of its three
    category fields whatever type it is asked for. *)
Theorem categories_are_sorted_and_nonempty (st : Store.t) (category_type : string) :
  category_listing (Store.distinct st "subcategory") (get_categories st) /\
  category_listing (Store.distinct st "low_category") (get_all_low_categories st) /\
  category_listing (Store.distinct st (get_category_field category_type))
                   (get_para_categories st category_type) /\
  get_category_field category_type ∈ ["top_category"; "low_category"; "subcategory"].
Proof.
  split; [apply distinct_categories_listing|].
  split; [apply distinct_categories_listing|].
  split; [apply distinct_categories_listing|].
  unfold get_category_field.
  repeat match goal with
         | |- context [String.eqb ?a ?b] => destruct (String.eqb a b)
         end; set_solver.
Qed.

(** ** Random products *)

Lemma category_not_empty (a b : field string) (dc : string) :
  dc <> "" ->
  exists c, py_or (get a) (py_or (get b) (Some dc)) = Some c /\ c <> "".
Proof.
  intros Hdc. unfold py_or.
  destruct a as [| |[|ca sa]], b as [| |[|cb sb]]; simpl;
    try (destruct dc; [congruence|]); simpl; eexists; split;
    try reflexivity; congruence.
Qed.

(** X23: the random accessors ask the database for [min(limit, 10)]
    documents, never more than 10, on the category field the category
    type selects (a field of the fixed list, the first of the list when
    the type is unknown), and return the normalisation of each document
    received, in order, without specifications and with the requested
    category as the default: when the requested category is not empty, no
    product comes back without a category. *)
Theorem random_products_are_capped_and_categorised (st : Store.t)
    (category category_type : string) (limit : Z) :
  (forall products,
     get_random_products st category category_type limit = Ok products ->
     exists docs,
       Store.sample st (retail_match_field category_type) category (Z.min limit 10) =
         Ok docs /\
       retail_match_field category_type ∈ ["subcategory"; "low_category"] /\
       (category_type ∉ ["subcategory"; "low_category"] ->
        retail_match_field category_type = "subcategory") /\
       Forall2 (fun d prod => parse_product d category false = Ok prod) docs products /\
       (category <> "" ->
        Forall (fun prod => exists c, Product.category prod = Some c /\ c <> "")
               products)) /\
  (forall products,
     get_para_random_products st category category_type limit = Ok products ->
     exists docs,
       Store.sample st (get_category_field category_type) category (Z.min limit 10) =
         Ok docs /\
       get_category_field category_type ∈ ["top_category"; "low_category"; "subcategory"] /\
       (category_type ∉ ["top"; "low"; "top_category"; "low_category"; "subcategory"] ->
        get_category_field category_type = "top_category") /\
       Forall2 (fun d prod => parse_para_product d category false = Ok prod)
               docs products /\
       (category <> "" ->
        Forall (fun prod => exists c, ParaProduct.category prod = Some c /\ c <> "")
               products)) /\
  Z.min limit 10 <= 10.
Proof.
  split; [|split; [|lia]]; intros products H.
  - unfold get_random_products in H. inv_bind H.
    apply parse_all_Forall2 in H.
    exists x. split; [assumption|]. split.
    { unfold retail_match_field. case_bool_decide; [assumption | apply list_elem_of_here]. }
    split.
    { intros Hn. unfold retail_match_field. now case_bool_decide. }
    split; [assumption|].
    intros Hc. apply Forall_forall. intros prod Hin.
    apply list_elem_of_lookup in Hin as (i & Hi).
    destruct (Forall2_lookup_r _ _ _ i prod H Hi) as (d & _ & Hd).
    apply parse_product_fields in Hd as (sd & _ & _ & _ & -> & _).
    now apply category_not_empty.
  - unfold get_para_random_products in H. inv_bind H.
    apply parse_all_Forall2 in H.
    exists x. split; [assumption|]. split.
    { unfold get_category_field.
      repeat match goal with
             | |- context [String.eqb ?a ?b] => destruct (String.eqb a b)
             end; set_solver. }
    split.
    { intros Hn. unfold get_category_field.
      repeat match goal with
             | |- context [String.eqb ?a ?b] =>
                 destruct (String.eqb_spec a b) as [->|_]; [exfalso; set_solver|]
             end. reflexivity. }
    split; [assumption|].
    intros Hc. apply Forall_forall. intros prod Hin.
    apply list_elem_of_lookup in Hin as (i & Hi).
    destruct (Forall2_lookup_r _ _ _ i prod H Hi) as (d & _ & Hd).
    apply parse_para_product_fields in Hd as (sd & _ & _ & _ & -> & _).
    now apply category_not_empty.
Qed.

Lemma random_products_are_capped_and_categorised_witness :
  exists docs,
    Store.sample details_only_store (retail_match_field "brand") "Laptops"
                 (Z.min 25 10) = Ok docs /\
    retail_match_field "brand" ∈ ["subcategory"; "low_category"] /\
    ("brand" ∉ ["subcategory"; "low_category"] ->
     retail_match_field "brand" = "subcategory") /\
    Forall2 (fun d prod => parse_product d "Laptops" false = Ok prod)
            docs sampled_products /\
    ("Laptops" <> "" ->
     Forall (fun prod => exists c, Product.category prod = Some c /\ c <> "")
            sampled_products).
Proof.
  apply (proj1 (random_products_are_capped_and_categorised details_only_store
                  "Laptops" "brand" 25)).
  vm_compute. reflexivity.
Defined.

(** ** Category analytics *)

Lemma round_field_spec (f : field number) (x : number) :
  round_field f = Ok x -> rounded_from f x.
Proof.
  unfold round_field, rounded_from.
  destruct (get_default f (Num 0)) as [q|]; [|discriminate].
  intros [= <-]. exists q. split; [reflexivity|]. split; [reflexivity|].
  apply round_rounded.
Qed.

Lemma parse_ranking_spec (r : RankingDoc.t) (x : ShopRanking.t) :
  parse_ranking r = Ok x -> presents r x.
Proof.
  unfold parse_ranking, presents. intros H.
  inv_bind H. inv_bind H. inv_bind H. inv_bind H. inv_bind H. injection H as <-.
  simpl. apply round_field_spec in Hx, Hx0, Hx1.
  destruct (get_default (RankingDoc.shop r) "") as [s|]; [|discriminate].
  destruct (get_default (RankingDoc.product_count r) 0) as [c|]; [|discriminate].
  injection Hx2 as <-. injection Hx3 as <-. auto.
Qed.

Lemma parse_rankings_spec (rs : list RankingDoc.t) (xs : list ShopRanking.t) :
  parse_rankings rs = Ok xs -> Forall2 presents rs xs.
Proof.
  revert xs. induction rs as [|r rs IH]; intros xs H; simpl in H.
  - injection H as <-. constructor.
  - inv_bind H. inv_bind H. injection H as <-.
    constructor; [now apply parse_ranking_spec | now apply IH].
Qed.

Lemma parse_rankings_null (rs : list RankingDoc.t) (r : RankingDoc.t) :
  r ∈ rs -> null_price r -> exists e, parse_rankings rs = Raise e.
Proof.
  intros Hin Hnull. induction rs as [|r' rs IH]; [now apply elem_of_nil in Hin|].
  simpl. apply elem_of_cons in Hin as [<-|Hin].
  - assert (Hr : exists e, parse_ranking r = Raise e).
    { unfold parse_ranking, round_field.
      destruct Hnull as [E|[E|E]]; rewrite E; simpl;
        repeat match goal with
               | |- context [get_default ?f ?d] => destruct (get_default f d)
               end; simpl; eauto. }
    destruct Hr as (e & ->). simpl. eauto.
  - destruct (parse_ranking r') as [x|e]; simpl; [|eauto].
    destruct (IH Hin) as (e & ->). simpl. eauto.
Qed.

(** X24: the analytics a category accessor returns present the stored
    document: one ranking per stored ranking, in order, with the stored
    shop and product count, and every price (the three of each ranking and
    the cheapest average) is Python's [round] of the stored number to two
    places: the double nearest to a two-place decimal at most 0.005 away
    from the stored double. *)
Theorem category_analytics_present_rounded_rankings (st : Store.t) (category : string)
    (analytics : CategoryAnalytics.t) :
  get_category_analytics st category = Some analytics ->
  exists doc rs,
    Store.find_one_analytics st category = Ok (Some doc) /\
    get_default (AnalyticsDoc.shop_rankings doc) [] = Some rs /\
    Forall2 presents rs (CategoryAnalytics.shop_rankings analytics) /\
    rounded_from (AnalyticsDoc.cheapest_avg_price doc)
                 (CategoryAnalytics.cheapest_avg_price analytics).
Proof.
  unfold get_category_analytics. intros H.
  destruct (category_analytics_try st category) as [o|e] eqn:E; [|discriminate].
  subst o. unfold category_analytics_try in E. inv_bind E.
  destruct x as [doc|]; [|discriminate].
  inv_bind E. inv_bind E. inv_bind E. inv_bind E. inv_bind E. injection E as <-.
  simpl. exists doc.
  destruct (get_default (AnalyticsDoc.shop_rankings doc) []) as [rs|]; [|discriminate].
  exists rs. repeat split; try assumption; try reflexivity.
  - now apply parse_rankings_spec.
  - now apply round_field_spec.
Qed.

Lemma category_analytics_present_rounded_rankings_witness :
  exists doc rs,
    Store.find_one_analytics details_only_store "Laptops" = Ok (Some doc) /\
    get_default (AnalyticsDoc.shop_rankings doc) [] = Some rs /\
    Forall2 presents rs (CategoryAnalytics.shop_rankings laptop_analytics) /\
    rounded_from (AnalyticsDoc.cheapest_avg_price doc)
                 (CategoryAnalytics.cheapest_avg_price laptop_analytics).
Proof.
  apply (category_analytics_present_rounded_rankings details_only_store "Laptops").
  vm_compute. reflexivity.
Defined.

(** X25: the analytics route answers 404 not only when the category has
    no document: a query that raises, and a single ranking with a null
    price, also end in [None] from the accessor and 404 from the route. *)
Theorem analytics_errors_look_like_not_found (st : Store.t) (category : string) :
  (forall e, Store.find_one_analytics st category = Raise e ->
     analytics_route st category = HttpError 404) /\
  (Store.find_one_analytics st category = Ok None ->
     analytics_route st category = HttpError 404) /\
  (forall doc rs r,
     Store.find_one_analytics st category = Ok (Some doc) ->
     AnalyticsDoc.shop_rankings doc = Val rs -> r ∈ rs -> null_price r ->
     analytics_route st category = HttpError 404).
Proof.
  unfold analytics_route, get_category_analytics, category_analytics_try.
  split; [|split].
  - now intros e ->.
  - now intros ->.
  - intros doc rs r -> Hrs Hin Hnull. simpl. rewrite Hrs. simpl.
    destruct (parse_rankings_null rs r Hin Hnull) as (e & ->). reflexivity.
Qed.

Lemma analytics_errors_look_like_not_found_witness :
  analytics_route null_ranking_store "Laptops" = HttpError 404.
Proof.
  apply (proj2 (proj2 (analytics_errors_look_like_not_found null_ranking_store
                         "Laptops"))
               (AnalyticsDoc.mk (Val "Laptops") (Val "Mytek") (Val (Num 10))
                  (Val [RankingDoc.mk (Val "Mytek") (Val (Num 10)) Null (Val (Num 12)) (Val 3)])
                  (Val true))
               [RankingDoc.mk (Val "Mytek") (Val (Num 10)) Null (Val (Num 12)) (Val 3)]
               (RankingDoc.mk (Val "Mytek") (Val (Num 10)) Null (Val (Num 12)) (Val 3))).
  - reflexivity.
  - reflexivity.
  - apply list_elem_of_here.
  - right. left. reflexivity.
Defined.

(** ** The search routes *)

(** X26: a search route answers a query of fewer than two characters with
    the empty list, whatever the database does; and with a limit that is
    not negative, a list it answers never has more than [limit] entries. *)
Theorem search_route_short_query_and_size (db : Database.t) (q : string) (limit : Z) :
  ((py_len q < 2)%nat ->
     search_products_route db q limit = Http200 [] /\
     search_para_products_route db q limit = Http200 []) /\
  (0 <= limit ->
     (forall body, search_products_route db q limit = Http200 body ->
        Z.of_nat (length body) <= limit) /\
     (forall body, search_para_products_route db q limit = Http200 body ->
        Z.of_nat (length body) <= limit)).
Proof.
  unfold search_products_route, search_para_products_route, search_route. split.
  - intros Hq. apply Nat.ltb_lt in Hq. now rewrite Hq.
  - intros Hl. destruct (py_len q <? 2)%nat.
    + split; intros body [= <-]; simpl; lia.
    + split; intros body H.
      * destruct (search_products db q limit) as [results|e] eqn:E; [|discriminate].
        injection H as <-. unfold search_products in E.
        now apply search_with_length in E.
      * destruct (search_para_products db q limit) as [results|e] eqn:E; [|discriminate].
        injection H as <-. unfold search_para_products in E.
        now apply search_with_length in E.
Qed.

Lemma search_route_short_query_and_size_witness :
  search_products_route failing_db "é" 10 = Http200 [] /\
  search_para_products_route failing_db "é" 10 = Http200 [].
Proof.
  apply (proj1 (search_route_short_query_and_size failing_db "é" 10)).
  vm_compute. lia.
Defined.

(** ** The brand of a merged product *)

Lemma first_brand_not_empty (shops_data : gmap string Offer.t) (names : list string) :
  first_brand shops_data names <> "".
Proof.
  induction names as [|n names IH]; simpl; [discriminate|].
  destruct (shops_data !! n ≫= _) as [[|c b]|]; simpl; try exact IH. discriminate.
Qed.

(** X27: in the merged normalisers the brand is never the empty string:
    it is "Generic" when no shop of the priority order holds a non-empty
    brand, and otherwise comes from the first shop that holds one, whose
    brand, when written in ASCII, it is in upper case. *)
Theorem merged_brand_is_first_nonempty_uppercased (p : Raw.t) (dc : string)
    (specs : bool) :
  (forall prod, parse_product p dc specs = Ok prod ->
     Product.brand prod <> "" /\
     exists shops_data, shops_of p = Ok shops_data /\
       match head (omap (shop_brand shops_data) RETAIL_SHOPS) with
       | Some b => ascii_only b = true -> Product.brand prod = upper b
       | None => Product.brand prod = "Generic"
       end) /\
  (forall prod, parse_para_product p dc specs = Ok prod ->
     ParaProduct.brand prod <> "" /\
     exists shops_data, shops_of p = Ok shops_data /\
       match head (omap (shop_brand shops_data) PARA_SHOPS) with
       | Some b => ascii_only b = true -> ParaProduct.brand prod = upper b
       | None => ParaProduct.brand prod = "Generic"
       end).
Proof.
  split; intros prod H.
  - apply parse_product_inv in H as (sd & Hsd & _ & _ & _ & _ & Hb).
    rewrite Hb. split; [apply first_brand_not_empty|].
    exists sd. split; [assumption|]. rewrite first_brand_spec.
    now destruct (head (omap (shop_brand sd) RETAIL_SHOPS)).
  - apply parse_para_product_inv in H as (sd & Hsd & _ & _ & _ & _ & Hb).
    rewrite Hb. split; [apply first_brand_not_empty|].
    exists sd. split; [assumption|]. rewrite first_brand_spec.
    now destruct (head (omap (shop_brand sd) PARA_SHOPS)).
Qed.

Lemma merged_brand_is_first_nonempty_uppercased_witness :
  Product.brand branded_product <> "" /\
  exists shops_data, shops_of branded = Ok shops_data /\
    match head (omap (shop_brand shops_data) RETAIL_SHOPS) with
    | Some b => ascii_only b = true -> Product.brand branded_product = upper b
    | None => Product.brand branded_product = "Generic"
    end.
Proof.
  apply (proj1 (merged_brand_is_first_nonempty_uppercased branded "" false)).
  vm_compute. reflexivity.
Defined.
